(** * A movie catalogue on SQLite: the store, bulk transfer and display code

    Shallow embedding of [lib.py]: the [movies] table and the functions
    that read and write it ([search_movies], [add_movie], [modify_movie],
    [delete_movies]), the JSON import and export ([import_movies],
    [export_movies]) and the width-aware padding of the report
    ([get_display_width], [pad_string]).

    Conventions of the embedding.
    - A Python [str] is the list of its code points ([list N]).
    - A Python [float] and an SQLite REAL are binary64 numbers, taken as
      [spec_float] (precision 53, emax 1024).
    - The table is the list of its rows in rowid order together with the
      AUTOINCREMENT counter of [sqlite_sequence]; a full scan returns the
      rows in that order.
    - Each interactive function takes, one argument per [input()] call, the
      line the console returned, and gives back the new state with the
      status line it prints last.  The table printed by [list_rpt] has no
      effect on the state and is left out.
    - Library functions whose tables or algorithms are not part of the
      repository are parameters of the development: the Unicode East Asian
      Width property, Python's [int()], [float()] and [float.__repr__],
      [json.load], and SQLite's conversions between TEXT and numbers.
      For the round trip of an exported file the decoder of the [json]
      module and the UTF-8 reader are also written out ([json_loads],
      [json_load_utf8]); the parameter [json.load] is compared to them
      on the file at hand.
    - The database file [movies.db] and the files SQLite keeps beside it
      are read and written by SQLite alone: the state holds the table they
      contain, and the file system of the model holds every other path.
    - Exhaustion of rowids, of memory and of the disk is outside the
      model. *)

From Stdlib Require Import ZArith NArith QArith Lia List String Ascii.
From Stdlib Require Import SpecFloat.
From stdpp Require Import base option list gmap strings pretty.

Local Open Scope Z_scope.

(** ** Text *)

Abbreviation str := (list N).

(** The code points of an ASCII literal. *)
Definition lit (s : string) : str :=
  (fun a => N_of_ascii a) <$> list_ascii_of_string s.

(** [str.isspace] for one code point (CPython's [_PyUnicode_IsWhitespace]). *)
Definition py_isspace (c : N) : bool :=
  ((9 <=? c) && (c <=? 13) || (28 <=? c) && (c <=? 32) || (c =? 133)
   || (c =? 160) || (c =? 5760) || (8192 <=? c) && (c <=? 8202)
   || (c =? 8232) || (c =? 8233) || (c =? 8239) || (c =? 8287)
   || (c =? 12288))%N.

Fixpoint lstrip (s : str) : str :=
  match s with
  | c :: s' => if py_isspace c then lstrip s' else s
  | [] => []
  end.

(** [s.strip()] *)
Definition strip (s : str) : str := rev (lstrip (rev (lstrip s))).

(** [s.lower() == 'y']: the only strings whose lower-casing is "y" are
    "y" and "Y". *)
Definition lower_is_y (s : str) : bool :=
  match s with
  | [c] => ((c =? 121) || (c =? 89))%N
  | _ => false
  end.

(** Decimal text of an integer ([int.__repr__], and SQLite's rendering). *)
Definition decimal (z : Z) : str := lit (pretty z).

(** A [str] can hold lone surrogates (U+D800 to U+DFFF); UTF-8 has no
    encoding for them, and [PyUnicode_AsUTF8] fails on such a text. *)
Definition is_surrogate (c : N) : bool := ((55296 <=? c) && (c <=? 57343))%N.

Definition encodable (s : str) : bool := forallb (fun c => negb (is_surrogate c)) s.

(** A text as a UTF-8 decoder hands it out, and so every text read from
    SQLite or from a file: a sequence of Unicode scalar values (code
    points up to U+10FFFF, the surrogates apart). *)
Definition scalar (c : N) : bool :=
  ((c <? 55296) || (57343 <? c) && (c <? 1114112))%N.

Definition text_ok (s : str) : bool := forallb scalar s.

(** ** Floats *)

Abbreviation float := spec_float.

Definition f_1_0 : float := S754_finite false 4503599627370496 (-52).
Definition f_10_0 : float := S754_finite false 5629499534213120 (-49).
(** The binary64 numbers nearest to 0.99 and 10.01. *)
Definition f_0_99 : float := S754_finite false 8917127262193582 (-53).
Definition f_10_01 : float := S754_finite false 5635129033747333 (-49).

Definition is_binary64 (f : float) : bool := valid_binary 53 1024 f.

(** The rational [m * 2 ^ e]. *)
Definition finite_value (m : positive) (e : Z) : Q :=
  match e with
  | Z0 => inject_Z (Zpos m)
  | Zpos k => inject_Z (Zpos m * 2 ^ Zpos k)
  | Zneg k => Qmake (Zpos m) (2 ^ k)%positive
  end.

(** The rational a float denotes; infinities and NaN denote none. *)
Definition float_value (f : float) : option Q :=
  match f with
  | S754_zero _ => Some 0%Q
  | S754_finite s m e =>
      Some (if s then Qopp (finite_value m e) else finite_value m e)
  | _ => None
  end.

(** The float nearest to an integer (round to nearest, ties to even). *)
Definition float_of_Z (z : Z) : float := binary_normalize 53 1024 z 0 false.

(** The integer a float denotes exactly, if it denotes one. *)
Definition float_exact_Z (f : float) : option Z :=
  match f with
  | S754_zero _ => Some 0
  | S754_finite s m e =>
      let sg (z : Z) := if s then - z else z in
      match e with
      | Z0 => Some (sg (Zpos m))
      | Zpos k => Some (sg (Zpos m * 2 ^ Zpos k))
      | Zneg k => if (Zpos m mod 2 ^ Zpos k =? 0)
                  then Some (sg (Zpos m / 2 ^ Zpos k)) else None
      end
  | _ => None
  end.

(** Python's [a <= b] on floats. *)
Definition float_le (a b : float) : bool := SFleb a b.

(** ** SQL LIKE

    [title LIKE pattern] as SQLite evaluates it by default: [%] stands for
    any run of characters, [_] for any one character, every other pattern
    character matches itself, ASCII letters without regard to case.  No
    ESCAPE clause is given, so no character of the pattern is literal. *)

Definition pct : N := 37.
Definition und : N := 95.

Definition like_fold (c : N) : N :=
  (if (65 <=? c) && (c <=? 90) then c + 32 else c)%N.

Fixpoint like (pattern s : str) : bool :=
  match pattern with
  | [] => match s with [] => true | _ => false end
  | c :: p' =>
      if (c =? pct)%N then
        (fix any (s : str) : bool :=
           like p' s || match s with [] => false | _ :: s' => any s' end) s
      else
        match s with
        | [] => false
        | d :: s' => ((c =? und) || (like_fold c =? like_fold d))%N && like p' s'
        end
  end.

(** SQLite reads the pattern and the text as C strings: each ends at its
    first U+0000. *)
Fixpoint until_nul (s : str) : str :=
  match s with
  | [] => []
  | c :: s' => if (c =? 0)%N then [] else c :: until_nul s'
  end.

Definition sqlite_like (pattern s : str) : bool :=
  like (until_nul pattern) (until_nul s).

(** [SQLITE_MAX_LIKE_PATTERN_LENGTH], in bytes. *)
Definition LIKE_PATTERN_LENGTH : Z := 50000.

(** The meaning of a LIKE pattern, rule by rule. *)
Inductive like_spec : str -> str -> Prop :=
  | like_nil : like_spec [] []
  | like_any p s1 s2 : like_spec p s2 -> like_spec (pct :: p) (s1 ++ s2)
  | like_one p d s : like_spec p s -> like_spec (und :: p) (d :: s)
  | like_char c d p s :
      c <> pct -> c <> und -> like_fold c = like_fold d ->
      like_spec p s -> like_spec (c :: p) (d :: s).

(** [x] occurs in [s], exactly ([x in s] in Python). *)
Fixpoint starts_with (x s : str) : bool :=
  match x, s with
  | [], _ => true
  | c :: x', d :: s' => (c =? d)%N && starts_with x' s'
  | _ :: _, [] => false
  end.




(** ** The table

    [CREATE TABLE movies (id INTEGER PRIMARY KEY AUTOINCREMENT,
       title TEXT NOT NULL, director TEXT NOT NULL, genre TEXT NOT NULL,
       year INTEGER NOT NULL,
       rating REAL CHECK (rating >= 1.0 AND rating <= 10.0))] *)

(** An SQLite value (no BLOB reaches the table). *)
Inductive sqlval :=
  | SNull
  | SInt (z : Z)
  | SReal (f : float)
  | SText (s : str).

(** A stored row.  A TEXT NOT NULL column always holds text; [year] and
    [rating] hold whatever storage class their affinity leaves. *)
Record Movie := {
  movie_id : Z;
  title : str;
  director : str;
  genre : str;
  year : sqlval;
  rating : sqlval
}.

(** The table and the largest id ever given ([sqlite_sequence]). *)
Record database := { rows : list Movie; sequence : Z }.

Definition empty_database : database := {| rows := []; sequence := 0 |}.

(** A Python value: what [json.load] returns and what is bound to [?]. *)
#[warnings="-register-all"]
Inductive pyval :=
  | PyNone
  | PyBool (b : bool)
  | PyInt (z : Z)
  | PyFloat (f : float)
  | PyStr (s : str)
  | PyList (l : list pyval)
  | PyDict (d : list (str * pyval)).

Inductive exn :=
  | IntegrityError      (* sqlite3.DatabaseError *)
  | ProgrammingError    (* sqlite3.DatabaseError *)
  | OperationalError    (* sqlite3.DatabaseError *)
  | UnicodeEncodeError  (* ValueError *)
  | OverflowError
  | KeyError
  | TypeError
  | FileNotFoundError
  | JSONDecodeError     (* ValueError *)
  | UnicodeDecodeError. (* ValueError *)

Inductive result (A : Type) :=
  | Ok (a : A)
  | Raise (e : exn).
Arguments Ok {A} a.
Arguments Raise {A} e.

Definition bind_result {A B} (r : result A) (k : A -> result B) : result B :=
  match r with Ok a => k a | Raise e => Raise e end.

Notation "'let*' x := r 'in' k" := (bind_result r (fun x => k))
  (at level 10, x name, r at level 100, k at level 200).

Fixpoint map_result {A B} (f : A -> result B) (l : list A) : result (list B) :=
  match l with
  | [] => Ok []
  | a :: l' => let* b := f a in let* bs := map_result f l' in Ok (b :: bs)
  end.

(** What the functions print as their last line. *)
Inductive msg :=
  | MsgNoData | MsgImported | MsgFileNotFound | MsgJsonError
  | MsgDatabaseError (e : exn) | MsgOtherError (e : exn)
  | MsgAdded | MsgRatingRange | MsgNumberFormat
  | MsgYearFormat | MsgRatingFormat | MsgModified | MsgNothingModified
  | MsgAllDeleted | MsgDeleteCancelled | MsgDeleted
  | MsgExported.

(** [except sqlite3.DatabaseError ... except Exception ...] *)
Definition report (e : exn) : msg :=
  match e with
  | IntegrityError | ProgrammingError | OperationalError => MsgDatabaseError e
  | _ => MsgOtherError e
  end.

(** [except ValueError] *)
Definition is_ValueError (e : exn) : bool :=
  match e with
  | UnicodeEncodeError | UnicodeDecodeError | JSONDecodeError => true
  | _ => false
  end.

Definition min_i64 : Z := - 2 ^ 63.
Definition max_i64 : Z := 2 ^ 63 - 1.
Definition in_i64 (z : Z) : bool := (min_i64 <=? z) && (z <=? max_i64).

(** A float as an SQLite value: SQLite keeps no NaN, it stores NULL. *)
Definition sql_real (f : float) : sqlval :=
  match f with
  | S754_nan => SNull
  | _ => SReal f
  end.

(** Binding a Python value to a [?] of a statement.  A text is handed
    over as UTF-8. *)
Definition bind_param (v : pyval) : result sqlval :=
  match v with
  | PyNone => Ok SNull
  | PyBool b => Ok (SInt (if b then 1 else 0))
  | PyInt z => if in_i64 z then Ok (SInt z) else Raise OverflowError
  | PyFloat f => Ok (sql_real f)
  | PyStr s => if encodable s then Ok (SText s) else Raise UnicodeEncodeError
  | PyList _ | PyDict _ => Raise ProgrammingError
  end.

(** The Python value of a column of a fetched row. *)
Definition py_of_sql (v : sqlval) : pyval :=
  match v with
  | SNull => PyNone
  | SInt z => PyInt z
  | SReal f => PyFloat f
  | SText s => PyStr s
  end.

(** SQL's three-valued AND; [None] is NULL. *)
Definition sql_and (a b : option bool) : option bool :=
  match a, b with
  | Some false, _ | _, Some false => Some false
  | Some true, Some true => Some true
  | _, _ => None
  end.

(** A stored value against a REAL literal: NULL compares to nothing, text
    sorts after every number.  (No INTEGER is left in a column of REAL
    affinity; one is compared through its float.) *)
Definition sql_compare (v : sqlval) (c : float) : option comparison :=
  match v with
  | SNull => None
  | SInt z => SFcompare (float_of_Z z) c
  | SReal f => SFcompare f c
  | SText _ => Some Gt
  end.

Definition sql_ge (v : sqlval) (c : float) : option bool :=
  match sql_compare v c with
  | Some Lt => Some false
  | Some _ => Some true
  | None => None
  end.

Definition sql_le (v : sqlval) (c : float) : option bool :=
  match sql_compare v c with
  | Some Gt => Some false
  | Some _ => Some true
  | None => None
  end.

(** [CHECK (rating >= 1.0 AND rating <= 10.0)]: only a result of false is
    a violation. *)
Definition check_rating (v : sqlval) : bool :=
  match sql_and (sql_ge v f_1_0) (sql_le v f_10_0) with
  | Some false => false
  | _ => true
  end.

(** A REAL that is a whole number strictly inside the 64-bit range is kept
    as an INTEGER in a column of INTEGER affinity. *)
Definition real_to_integer (f : float) : sqlval :=
  match float_exact_Z f with
  | Some z => if (min_i64 <? z) && (z <? max_i64) then SInt z else sql_real f
  | None => sql_real f
  end.

(** ** Files *)

Definition DB_PATH : string := "movies.db".
Definition JSON_IN_PATH : string := "movies.json".
Definition JSON_OUT_PATH : string := "exported.json".

(** A file system: the bytes of each file, by path. *)
Abbreviation files := (gmap string (list N)).

(** The database file and the files SQLite keeps beside it (the journal,
    the write-ahead log and its index): their names begin with that of the
    database.  SQLite alone reads and writes them; what they hold is the
    table of the state, not an entry of the file system of the model. *)
Definition sqlite_file (path : string) : bool := String.prefix DB_PATH path.

(** UTF-8, as a text file opened with [encoding='utf-8'] writes it. *)
Definition utf8_char (c : N) : list N :=
  (if c <? 128 then [c]
   else if c <? 2048 then
     [N.lor 192 (N.shiftr c 6); N.lor 128 (N.land c 63)]
   else if c <? 65536 then
     [N.lor 224 (N.shiftr c 12); N.lor 128 (N.land (N.shiftr c 6) 63);
      N.lor 128 (N.land c 63)]
   else
     [N.lor 240 (N.shiftr c 18); N.lor 128 (N.land (N.shiftr c 12) 63);
      N.lor 128 (N.land (N.shiftr c 6) 63); N.lor 128 (N.land c 63)])%N.

Definition utf8_encode (s : str) : list N := concat (utf8_char <$> s).

(** UTF-8 as a text file opened with [encoding='utf-8'] reads it: the
    shortest form only, no surrogate, nothing beyond U+10FFFF; [None] is
    the UnicodeDecodeError. *)
Definition is_cont (b : N) : bool := ((128 <=? b) && (b <? 192))%N.

Fixpoint utf8_decode (b : list N) : option str :=
  match b with
  | [] => Some []
  | b1 :: r1 =>
      (if b1 <? 128 then cons b1 <$> utf8_decode r1
       else if b1 <? 192 then None
       else if b1 <? 224 then
         match r1 with
         | b2 :: r2 =>
             let c := (b1 - 192) * 64 + (b2 - 128) in
             if is_cont b2 && (128 <=? c)
             then cons c <$> utf8_decode r2 else None
         | _ => None
         end
       else if b1 <? 240 then
         match r1 with
         | b2 :: b3 :: r3 =>
             let c := (b1 - 224) * 4096 + (b2 - 128) * 64 + (b3 - 128) in
             if is_cont b2 && is_cont b3 && (2048 <=? c) && scalar c
             then cons c <$> utf8_decode r3 else None
         | _ => None
         end
       else if b1 <? 248 then
         match r1 with
         | b2 :: b3 :: b4 :: r4 =>
             let c := (b1 - 240) * 262144 + (b2 - 128) * 4096
                      + (b3 - 128) * 64 + (b4 - 128) in
             if is_cont b2 && is_cont b3 && is_cont b4 && (65536 <=? c)
                && (c <? 1114112)
             then cons c <$> utf8_decode r4 else None
         | _ => None
         end
       else None)%N
  end.

(** The line ends of a text file read with the default [newline=None]:
    a carriage return, alone or before a line feed, is read as a line
    feed. *)
Fixpoint universal_newlines (s : str) : str :=
  match s with
  | [] => []
  | c :: s' =>
      if (c =? 13)%N then
        10%N :: match s' with
                | c' :: s'' =>
                    if (c' =? 10)%N then universal_newlines s''
                    else universal_newlines s'
                | [] => []
                end
      else c :: universal_newlines s'
  end.

Definition open_read (fs : files) (path : string) : result (list N) :=
  match fs !! path with
  | Some content => Ok content
  | None => Raise FileNotFoundError
  end.

(** ** JSON text: [json.dump(obj, f, ensure_ascii=False, indent=4)] *)

Definition hex_digit (n : N) : N := (if n <? 10 then 48 + n else 87 + n)%N.

(** [py_encode_basestring]: only the quote, the backslash and the control
    characters below U+0020 are escaped. *)
Definition escape_char (c : N) : str :=
  (if c =? 34 then [92; 34]
   else if c =? 92 then [92; 92]
   else if c =? 10 then [92; 110]
   else if c =? 13 then [92; 114]
   else if c =? 9 then [92; 116]
   else if c =? 12 then [92; 102]
   else if c =? 8 then [92; 98]
   else if c <? 32 then [92; 117; 48; 48; hex_digit (c / 16); hex_digit (c mod 16)]
   else [c])%N.

Definition py_encode_basestring (s : str) : str :=
  [34%N] ++ concat (escape_char <$> s) ++ [34%N].

(** A newline and the indentation of nesting depth [level]. *)
Definition newline_indent (level : nat) : str :=
  10%N :: repeat 32%N (4 * level).

Fixpoint join (sep : str) (l : list str) : str :=
  match l with
  | [] => []
  | [x] => x
  | x :: l' => x ++ sep ++ join sep l'
  end.

(** ** Reading JSON text: [json.loads]

    The decoder of the [json] module (its scanner, [scanstring],
    [JSONArray] and [JSONObject]) on the code points of a document.  All
    its errors are JSONDecodeError, here [None].  The recursion limit of
    the interpreter and its limit on the digits of an integer are left
    out. *)

Definition is_digit (c : N) : bool := ((48 <=? c) && (c <=? 57))%N.

(** [WHITESPACE]: space, tab, line feed, carriage return. *)
Definition is_ws (c : N) : bool :=
  ((c =? 32) || (c =? 9) || (c =? 10) || (c =? 13))%N.

Fixpoint skip_ws (s : str) : str :=
  match s with
  | c :: s' => if is_ws c then skip_ws s' else s
  | [] => []
  end.

(** The digits at the head of a text, and the rest. *)
Fixpoint span_digits (s : str) : str * str :=
  match s with
  | c :: s' =>
      if is_digit c then let '(ds, r) := span_digits s' in (c :: ds, r)
      else ([], s)
  | [] => ([], [])
  end.

(** [NUMBER_RE], part by part: an optional minus sign; the integer part,
    a zero or a digit from 1 to 9 and more digits; an optional fraction,
    a point and one digit at least; an optional exponent, [e] or [E], an
    optional sign and one digit at least. *)
Definition take_sign (s : str) : str * str :=
  match s with
  | c :: s' => if (c =? 45)%N then ([c], s') else ([], s)
  | [] => ([], [])
  end.

Definition take_int (s : str) : option (str * str) :=
  match s with
  | c :: s' =>
      if (c =? 48)%N then Some ([c], s')
      else if is_digit c then let '(ds, r) := span_digits s' in Some (c :: ds, r)
      else None
  | [] => None
  end.

Definition take_frac (s : str) : str * str :=
  match s with
  | p :: c :: s' =>
      if (p =? 46)%N && is_digit c
      then let '(ds, r) := span_digits s' in (p :: c :: ds, r)
      else ([], s)
  | _ => ([], s)
  end.

Definition take_exp (s : str) : str * str :=
  match s with
  | e :: s' =>
      if ((e =? 101) || (e =? 69))%N then
        let '(sg, s'') :=
          match s' with
          | x :: s'' => if ((x =? 43) || (x =? 45))%N then ([x], s'') else ([], s')
          | [] => ([], s')
          end in
        match span_digits s'' with
        | (d :: ds, r) => (e :: sg ++ d :: ds, r)
        | ([], _) => ([], s)
        end
      else ([], s)
  | [] => ([], s)
  end.

(** The number at the head of a text: its text, whether it has a fraction
    or an exponent, and what follows it. *)
Definition match_number (s : str) : option (str * bool * str) :=
  let '(sign, s0) := take_sign s in
  match take_int s0 with
  | Some (int_part, s1) =>
      let '(frac, s2) := take_frac s1 in
      let '(exp, s3) := take_exp s2 in
      Some (sign ++ int_part ++ frac ++ exp,
            match frac ++ exp with [] => false | _ :: _ => true end, s3)
  | None => None
  end.

(** [int] on the text of a JSON integer. *)
Definition int_of_digits (ds : str) : Z :=
  fold_left (fun a c => 10 * a + (Z.of_N c - 48)) ds 0.

Definition parse_int (t : str) : Z :=
  match t with
  | c :: ds => if (c =? 45)%N then - int_of_digits ds else int_of_digits t
  | [] => 0
  end.

(** The escapes of a string. *)
Definition hex_value (c : N) : option N :=
  (if (48 <=? c) && (c <=? 57) then Some (c - 48)
   else if (97 <=? c) && (c <=? 102) then Some (c - 87)
   else if (65 <=? c) && (c <=? 70) then Some (c - 55)
   else None)%N.

Definition hex4 (a b c d : N) : option N :=
  match hex_value a, hex_value b, hex_value c, hex_value d with
  | Some x, Some y, Some z, Some w => Some (((x * 16 + y) * 16 + z) * 16 + w)%N
  | _, _, _, _ => None
  end.

Definition unescape (c : N) : option N :=
  (if c =? 34 then Some 34          (* quote *)
   else if c =? 92 then Some 92     (* backslash *)
   else if c =? 47 then Some 47     (* slash *)
   else if c =? 98 then Some 8      (* b *)
   else if c =? 102 then Some 12    (* f *)
   else if c =? 110 then Some 10    (* n *)
   else if c =? 114 then Some 13    (* r *)
   else if c =? 116 then Some 9     (* t *)
   else None)%N.

Definition is_high_surrogate (c : N) : bool := ((55296 <=? c) && (c <=? 56319))%N.
Definition is_low_surrogate (c : N) : bool := ((56320 <=? c) && (c <=? 57343))%N.

Definition join_surrogates (hi lo : N) : N :=
  (65536 + (hi - 55296) * 1024 + (lo - 56320))%N.

(** [scanstring], strict, from the character after the opening quote: the
    string and what follows its closing quote.  An escaped high surrogate
    followed by an escaped low surrogate is one character. *)
Fixpoint scanstring (s : str) : option (str * str) :=
  match s with
  | [] => None
  | c :: s1 =>
      if (c =? 34)%N then Some ([], s1)
      else if (c =? 92)%N then
        match s1 with
        | [] => None
        | e :: s2 =>
            if (e =? 117)%N then
              match s2 with
              | h1 :: h2 :: h3 :: h4 :: s3 =>
                  match hex4 h1 h2 h3 h4 with
                  | Some u =>
                      let lone :=
                        match scanstring s3 with
                        | Some (x, r) => Some (u :: x, r)
                        | None => None
                        end in
                      match s3 with
                      | b :: u' :: g1 :: g2 :: g3 :: g4 :: s4 =>
                          match (if is_high_surrogate u && (b =? 92) && (u' =? 117)
                                 then hex4 g1 g2 g3 g4 else None)%N with
                          | Some v =>
                              if is_low_surrogate v then
                                match scanstring s4 with
                                | Some (x, r) => Some (join_surrogates u v :: x, r)
                                | None => None
                                end
                              else lone
                          | None => lone
                          end
                      | _ => lone
                      end
                  | None => None
                  end
              | _ => None
              end
            else
              match unescape e with
              | Some ch =>
                  match scanstring s2 with
                  | Some (x, r) => Some (ch :: x, r)
                  | None => None
                  end
              | None => None
              end
        end
      else if (c <? 32)%N then None
      else
        match scanstring s1 with
        | Some (x, r) => Some (c :: x, r)
        | None => None
        end
  end.

(** [d[key] = value] on a dict in insertion order. *)
Fixpoint dict_set (d : list (str * pyval)) (key : str) (value : pyval)
  : list (str * pyval) :=
  match d with
  | [] => [(key, value)]
  | (k, v) :: d' =>
      if decide (k = key) then (k, value) :: d' else (k, v) :: dict_set d' key value
  end.

Definition dict_of_pairs (pairs : list (str * pyval)) : list (str * pyval) :=
  fold_left (fun d kv => dict_set d (fst kv) (snd kv)) pairs [].

(** The values of an array, from its first value to the closing
    bracket; [scan] reads one value. *)
Fixpoint parse_elements (scan : str -> option (pyval * str)) (n : nat) (s : str)
  : option (list pyval * str) :=
  match n with
  | O => None
  | S n' =>
      '(v, r) ← scan s;
      match skip_ws r with
      | c :: r' =>
          if (c =? 93)%N then Some ([v], r')
          else if (c =? 44)%N then
            '(vs, r'') ← parse_elements scan n' (skip_ws r'); Some (v :: vs, r'')
          else None
      | [] => None
      end
  end.

(** [JSONArray], from the character after the opening bracket. *)
Definition parse_array (scan : str -> option (pyval * str)) (n : nat) (s : str)
  : option (pyval * str) :=
  match skip_ws s with
  | c :: s' =>
      if (c =? 93)%N then Some (PyList [], s')
      else '(vs, r) ← parse_elements scan n (skip_ws s); Some (PyList vs, r)
  | [] => None
  end.

(** The members of an object, from the quote of its first key to the
    closing brace. *)
Fixpoint parse_members (scan : str -> option (pyval * str)) (n : nat) (s : str)
  : option (list (str * pyval) * str) :=
  match n with
  | O => None
  | S n' =>
      match s with
      | q :: s1 =>
          if (q =? 34)%N then
            '(key, r) ← scanstring s1;
            match skip_ws r with
            | c :: r1 =>
                if (c =? 58)%N then
                  '(v, r2) ← scan (skip_ws r1);
                  match skip_ws r2 with
                  | c' :: r3 =>
                      if (c' =? 125)%N then Some ([(key, v)], r3)
                      else if (c' =? 44)%N then
                        '(kvs, r4) ← parse_members scan n' (skip_ws r3);
                        Some ((key, v) :: kvs, r4)
                      else None
                  | [] => None
                  end
                else None
            | [] => None
            end
          else None
      | [] => None
      end
  end.

(** [JSONObject], from the character after the opening brace. *)
Definition parse_object (scan : str -> option (pyval * str)) (n : nat) (s : str)
  : option (pyval * str) :=
  match skip_ws s with
  | c :: s' =>
      if (c =? 125)%N then Some (PyDict [], s')
      else '(kvs, r) ← parse_members scan n (skip_ws s);
           Some (PyDict (dict_of_pairs kvs), r)
  | [] => None
  end.

Section Movies.

Set Default Proof Using "Type".

(** ** The libraries the code calls *)

(** [unicodedata.east_asian_width]. *)
Inductive width_class := EA_F | EA_H | EA_W | EA_Na | EA_A | EA_N.
Variable east_asian_width : N -> width_class.

(** [int(s)] and [float(s)]; [None] stands for [ValueError]. *)
Variable py_int : str -> option Z.
Variable py_float : str -> option float.

(** [float.__repr__] of a finite float. *)
Variable float_repr : float -> str.

(** [json.load] on the bytes of a file opened as UTF-8 text. *)
Variable json_load : list N -> result pyval.

(** SQLite's text of a REAL stored in a TEXT column, and the number a text
    denotes when it is stored in a numeric column ([None]: the text is not
    a number and stays text). *)
Variable sqlite_real_text : float -> str.
Variable sqlite_numeric : str -> option (Z + float).

(** ** Display *)

Definition get_display_width (s : str) : Z :=
  fold_left
    (fun width ch =>
       match east_asian_width ch with
       | EA_F | EA_W | EA_A => width + 2
       | _ => width + 1
       end)
    s 0.

Definition pad_string (s : str) (total_width : Z) : str :=
  let padding := total_width - get_display_width s in
  s ++ repeat 32%N (Z.to_nat (Z.max padding 0)).

(** The width of one character, as the specification words it. *)
Definition char_width (ch : N) : Z :=
  match east_asian_width ch with
  | EA_F | EA_W | EA_A => 2
  | _ => 1
  end.

(** ** Column affinity and constraints *)

(** A value written to a TEXT NOT NULL column; [None] when the constraint
    fails. *)
Definition text_column (v : sqlval) : option str :=
  match v with
  | SNull => None
  | SInt z => Some (decimal z)
  | SReal f => Some (sqlite_real_text f)
  | SText s => Some s
  end.

Definition integer_affinity (v : sqlval) : sqlval :=
  match v with
  | SReal f => real_to_integer f
  | SText s =>
      match sqlite_numeric s with
      | Some (inl z) => SInt z
      | Some (inr f) => real_to_integer f
      | None => v
      end
  | _ => v
  end.

(** A value written to [year INTEGER NOT NULL]. *)
Definition year_column (v : sqlval) : option sqlval :=
  match integer_affinity v with
  | SNull => None
  | v' => Some v'
  end.

Definition real_affinity (v : sqlval) : sqlval :=
  match v with
  | SInt z => sql_real (float_of_Z z)
  | SText s =>
      match sqlite_numeric s with
      | Some (inl z) => sql_real (float_of_Z z)
      | Some (inr f) => sql_real f
      | None => v
      end
  | _ => v
  end.

(** A value written to [rating REAL CHECK (...)]. *)
Definition rating_column (v : sqlval) : option sqlval :=
  let v' := real_affinity v in
  if check_rating v' then Some v' else None.

(** ** Statements *)

(** [SELECT * FROM movies WHERE title LIKE ?], the pattern bound.  LIKE
    is evaluated row by row, and refuses a pattern of more bytes than the
    limit. *)
Definition select_like (d : database) (pattern : str) : result (list Movie) :=
  match rows d with
  | [] => Ok []
  | _ :: _ =>
      if LIKE_PATTERN_LENGTH <? Z.of_nat (length (utf8_encode pattern))
      then Raise OperationalError
      else Ok (filter (fun m => sqlite_like pattern (title m)) (rows d))
  end.

(** [INSERT INTO movies (title, director, genre, year, rating)
     VALUES (?, ?, ?, ?, ?)] with its five bound values. *)
Definition insert_row (d : database) (p : list sqlval) : result database :=
  match p with
  | [t; di; g; y; r] =>
      match text_column t, text_column di, text_column g,
            year_column y, rating_column r with
      | Some t', Some di', Some g', Some y', Some r' =>
          let i := sequence d + 1 in
          Ok {| rows := rows d ++ [{| movie_id := i; title := t'; director := di';
                                      genre := g'; year := y'; rating := r' |}];
                sequence := i |}
      | _, _, _, _, _ => Raise IntegrityError
      end
  | _ => Raise ProgrammingError
  end.

(** [conn.execute(INSERT, params)] *)
Definition execute_insert (d : database) (params : list pyval) : result database :=
  let* p := map_result bind_param params in insert_row d p.

(** [conn.executemany(INSERT, seq)]: the rows one after the other. *)
Fixpoint executemany_insert (d : database) (seq_of_params : list (list pyval))
  : result database :=
  match seq_of_params with
  | [] => Ok d
  | params :: rest =>
      let* d' := execute_insert d params in executemany_insert d' rest
  end.

(** The columns an UPDATE can name. *)
Inductive column := CTitle | CDirector | CGenre | CYear | CRating.

(** One [k = ?] of a SET clause on one row. *)
Definition assign (m : Movie) (kv : column * sqlval) : option Movie :=
  let '(k, v) := kv in
  match k with
  | CTitle => t ← text_column v;
      Some {| movie_id := movie_id m; title := t; director := director m;
              genre := genre m; year := year m; rating := rating m |}
  | CDirector => t ← text_column v;
      Some {| movie_id := movie_id m; title := title m; director := t;
              genre := genre m; year := year m; rating := rating m |}
  | CGenre => t ← text_column v;
      Some {| movie_id := movie_id m; title := title m; director := director m;
              genre := t; year := year m; rating := rating m |}
  | CYear => y ← year_column v;
      Some {| movie_id := movie_id m; title := title m; director := director m;
              genre := genre m; year := y; rating := rating m |}
  | CRating => r ← rating_column v;
      Some {| movie_id := movie_id m; title := title m; director := director m;
              genre := genre m; year := year m; rating := r |}
  end.

Fixpoint assign_all (m : Movie) (sets : list (column * sqlval)) : option Movie :=
  match sets with
  | [] => Some m
  | kv :: sets' => m' ← assign m kv; assign_all m' sets'
  end.

(** [UPDATE movies SET k = ?, ... WHERE id = ?] over the rows. *)
Fixpoint update_rows (l : list Movie) (sets : list (column * sqlval)) (i : Z)
  : option (list Movie) :=
  match l with
  | [] => Some []
  | m :: l' =>
      m' ← (if movie_id m =? i then assign_all m sets else Some m);
      l'' ← update_rows l' sets i;
      Some (m' :: l'')
  end.

(** [conn.execute(UPDATE, params)] with [params] the new values followed
    by the id; a failed constraint leaves the table as it was. *)
Definition execute_update (d : database) (update_fields : list (column * pyval))
    (i : Z) : result database :=
  let* sets := map_result
                 (fun kv => let* v := bind_param (snd kv) in Ok (fst kv, v))
                 update_fields in
  let* _ := bind_param (PyInt i) in
  match update_rows (rows d) sets i with
  | Some l => Ok {| rows := l; sequence := sequence d |}
  | None => Raise IntegrityError
  end.

(** [DELETE FROM movies WHERE id = ?] *)
Definition delete_id (l : list Movie) (i : Z) : list Movie :=
  filter (fun m => movie_id m <> i) l.

(** [conn.executemany(DELETE, ids)] *)
Definition executemany_delete (d : database) (ids : list Z) : database :=
  {| rows := fold_left delete_id ids (rows d); sequence := sequence d |}.

(** [DELETE FROM movies] *)
Definition delete_all (d : database) : database :=
  {| rows := []; sequence := sequence d |}.

(** ** The functions of [lib.py] *)

(** The query of [search_movies]: its rows, or the exception it raises. *)
Definition execute_select (d : database) (title : str) : result (list Movie) :=
  match title with
  | _ :: _ =>
      let pattern := [pct] ++ title ++ [pct] in
      let* _ := bind_param (PyStr pattern) in select_like d pattern
  | [] => Ok (rows d)
  end.

(** What [search_movies] returns; after an exception, which it prints,
    that is the empty list. *)
Definition search_movies (d : database) (title : str) : list Movie :=
  match execute_select d title with
  | Ok movies => movies
  | Raise _ => []
  end.

(** Whether [search_movies] prints the line of one of its two [except]
    clauses. *)
Definition search_fails (d : database) (title : str) : bool :=
  match execute_select d title with
  | Ok _ => false
  | Raise _ => true
  end.

Definition add_movie (d : database) (title director genre year rating : str)
  : database * msg :=
  let title := strip title in
  let director := strip director in
  let genre := strip genre in
  match py_int (strip year) with
  | None => (d, MsgNumberFormat)
  | Some year =>
      match py_float (strip rating) with
      | None => (d, MsgNumberFormat)
      | Some rating =>
          if negb (float_le f_1_0 rating && float_le rating f_10_0)
          then (d, MsgRatingRange)
          else
            match execute_insert d [PyStr title; PyStr director; PyStr genre;
                                    PyInt year; PyFloat rating] with
            | Ok d' => (d', MsgAdded)
            | Raise e => (d, if is_ValueError e then MsgNumberFormat
                             else report e)
            end
      end
  end.

(** [update_fields[k] = v] when the line typed for [k] is not empty. *)
Definition set_if (line : str) (k : column) (v : pyval)
    (update_fields : list (column * pyval)) : list (column * pyval) :=
  match line with
  | _ :: _ => update_fields ++ [(k, v)]
  | [] => update_fields
  end.

Definition modify_movie (d : database)
    (title new_title new_director new_genre new_year new_rating : str)
  : database * msg :=
  let title := strip title in
  match search_movies d title with
  | [] => (d, MsgNoData)
  | movie :: _ =>
      let new_title := strip new_title in
      let new_director := strip new_director in
      let new_genre := strip new_genre in
      let new_year := strip new_year in
      let new_rating := strip new_rating in
      let update_fields := [] in
      let update_fields := set_if new_title CTitle (PyStr new_title) update_fields in
      let update_fields := set_if new_director CDirector (PyStr new_director) update_fields in
      let update_fields := set_if new_genre CGenre (PyStr new_genre) update_fields in
      match (match new_year with
             | _ :: _ => option_map (fun y => update_fields ++ [(CYear, PyInt y)])
                                    (py_int new_year)
             | [] => Some update_fields
             end) with
      | None => (d, MsgYearFormat)
      | Some update_fields =>
          match (match new_rating with
                 | _ :: _ =>
                     match py_float new_rating with
                     | Some rating_value =>
                         if negb (float_le f_1_0 rating_value
                                  && float_le rating_value f_10_0)
                         then inl MsgRatingRange
                         else inr (update_fields ++ [(CRating, PyFloat rating_value)])
                     | None => inl MsgRatingFormat
                     end
                 | [] => inr update_fields
                 end) with
          | inl m => (d, m)
          | inr update_fields =>
              match update_fields with
              | _ :: _ =>
                  match execute_update d update_fields (movie_id movie) with
                  | Ok d' => (d', MsgModified)
                  | Raise e => (d, report e)
                  end
              | [] => (d, MsgNothingModified)
              end
          end
      end
  end.

(** [confirm] is the answer to whichever of the two confirmation prompts
    the run reaches. *)
Definition delete_movies (d : database) (all_delete confirm title : str)
  : database * msg :=
  if lower_is_y all_delete then
    if lower_is_y confirm then (delete_all d, MsgAllDeleted)
    else (d, MsgDeleteCancelled)
  else
    let title := strip title in
    let movies := search_movies d title in
    match movies with
    | [] => (d, MsgNoData)
    | _ :: _ =>
        if lower_is_y confirm then
          let ids_to_delete := movie_id <$> movies in
          (executemany_delete d ids_to_delete, MsgDeleted)
        else (d, MsgDeleteCancelled)
    end.

(** [json.dump]'s text of a float. *)
Definition floatstr (f : float) : str :=
  match f with
  | S754_nan => lit "NaN"
  | S754_infinity false => lit "Infinity"
  | S754_infinity true => lit "-Infinity"
  | _ => float_repr f
  end.

(** The text [json.dump] writes for [o] at nesting depth [level]. *)
Fixpoint iterencode (level : nat) (o : pyval) : str :=
  match o with
  | PyNone => lit "null"
  | PyBool true => lit "true"
  | PyBool false => lit "false"
  | PyInt z => decimal z
  | PyFloat f => floatstr f
  | PyStr s => py_encode_basestring s
  | PyList [] => lit "[]"
  | PyList l =>
      lit "[" ++ newline_indent (S level)
      ++ join (lit "," ++ newline_indent (S level))
              (List.map (iterencode (S level)) l)
      ++ newline_indent level ++ lit "]"
  | PyDict [] => lit "{}"
  | PyDict d =>
      lit "{" ++ newline_indent (S level)
      ++ join (lit "," ++ newline_indent (S level))
              (List.map (fun kv => let '(k, v) := kv in
                           py_encode_basestring k ++ lit ": "
                           ++ iterencode (S level) v) d)
      ++ newline_indent level ++ lit "}"
  end.

(** [dict(movie)] for a fetched row. *)
Definition dict_of_row (m : Movie) : pyval :=
  PyDict [(lit "id", PyInt (movie_id m));
          (lit "title", PyStr (title m));
          (lit "director", PyStr (director m));
          (lit "genre", PyStr (genre m));
          (lit "year", py_of_sql (year m));
          (lit "rating", py_of_sql (rating m))].

Definition export_movies (d : database) (fs : files) (all_export title : str)
  : files * msg :=
  let movies := if lower_is_y all_export then search_movies d []
                else search_movies d (strip title) in
  match movies with
  | [] => (fs, MsgNoData)
  | _ :: _ =>
      let movies_list := dict_of_row <$> movies in
      (<[JSON_OUT_PATH := utf8_encode (iterencode 0 (PyList movies_list))]> fs,
       MsgExported)
  end.

Fixpoint dict_get (d : list (str * pyval)) (key : str) : option pyval :=
  match d with
  | [] => None
  | (k, v) :: d' => if decide (k = key) then Some v else dict_get d' key
  end.

(** [o[key]] *)
Definition getitem (o : pyval) (key : str) : result pyval :=
  match o with
  | PyDict d => match dict_get d key with Some v => Ok v | None => Raise KeyError end
  | _ => Raise TypeError
  end.

(** [for movie in o] *)
Definition iterate (o : pyval) : result (list pyval) :=
  match o with
  | PyList l => Ok l
  | PyDict d => Ok ((fun kv => PyStr (fst kv)) <$> d)
  | PyStr s => Ok ((fun c => PyStr [c]) <$> s)
  | _ => Raise TypeError
  end.

(** [(movie['title'], movie['director'], movie['genre'], movie['year'],
      movie['rating'])] *)
Definition movie_params (movie : pyval) : result (list pyval) :=
  let* t := getitem movie (lit "title") in
  let* di := getitem movie (lit "director") in
  let* g := getitem movie (lit "genre") in
  let* y := getitem movie (lit "year") in
  let* r := getitem movie (lit "rating") in
  Ok [t; di; g; y; r].

Definition import_movies (d : database) (fs : files) : database * msg :=
  match (let* content := open_read fs JSON_IN_PATH in
         let* movies := json_load content in
         let* items := iterate movies in
         let* seq_of_params := map_result movie_params items in
         executemany_insert d seq_of_params) with
  | Ok d' => (d', MsgImported)
  | Raise FileNotFoundError => (d, MsgFileNotFound)
  | Raise JSONDecodeError => (d, MsgJsonError)
  | Raise e => (d, report e)
  end.

(** ** A model of [json.load] *)

(** The scanner: one value at the head of a text.  [fuel] bounds the
    nesting and the number of items of an array or an object; the length
    of the text is enough. *)
Fixpoint scan_once (fuel : nat) (s : str) : option (pyval * str) :=
  match fuel with
  | O => None
  | S fuel' =>
      match s with
      | [] => None
      | c :: s1 =>
          if (c =? 34)%N then '(x, r) ← scanstring s1; Some (PyStr x, r)
          else if (c =? 123)%N then parse_object (scan_once fuel') fuel' s1
          else if (c =? 91)%N then parse_array (scan_once fuel') fuel' s1
          else if starts_with (lit "null") s then Some (PyNone, drop 4 s)
          else if starts_with (lit "true") s then Some (PyBool true, drop 4 s)
          else if starts_with (lit "false") s then Some (PyBool false, drop 5 s)
          else
            match match_number s with
            | Some (t, is_float, r) =>
                if is_float then f ← py_float t; Some (PyFloat f, r)
                else Some (PyInt (parse_int t), r)
            | None =>
                if starts_with (lit "NaN") s
                then Some (PyFloat S754_nan, drop 3 s)
                else if starts_with (lit "Infinity") s
                then Some (PyFloat (S754_infinity false), drop 8 s)
                else if starts_with (lit "-Infinity") s
                then Some (PyFloat (S754_infinity true), drop 9 s)
                else None
            end
      end
  end.

(** [json.loads] on a text: no byte order mark, one value, white space
    around it and nothing else. *)
Definition json_loads (s : str) : result pyval :=
  match s with
  | 65279%N :: _ => Raise JSONDecodeError
  | _ =>
      match scan_once (S (length s)) (skip_ws s) with
      | Some (v, r) =>
          match skip_ws r with
          | [] => Ok v
          | _ :: _ => Raise JSONDecodeError
          end
      | None => Raise JSONDecodeError
      end
  end.

(** [json.load] on the bytes of a file opened as UTF-8 text. *)
Definition json_load_utf8 (content : list N) : result pyval :=
  match utf8_decode content with
  | Some s => json_loads (universal_newlines s)
  | None => Raise UnicodeDecodeError
  end.

(** ** Vocabulary of the statements *)

(** The bytes of the pattern [search_movies] binds for the filter [x]. *)
Definition pattern_bytes (x : str) : Z :=
  Z.of_nat (length (utf8_encode ([pct] ++ x ++ [pct]))).

(** A rating between 1 and 10, as a number. *)
Definition rating_in_range (r : float) : Prop :=
  exists q, float_value r = Some q /\ (1 <= q)%Q /\ (q <= 10)%Q.

(** The five fields of a record other than its id. *)
Definition fields (m : Movie) : str * str * str * sqlval * sqlval :=
  (title m, director m, genre m, year m, rating m).

(** What a [year] and a [rating] the table holds look like: the value is
    the one SQLite keeps for the column. *)
Definition year_ok (y : sqlval) : bool :=
  match y with
  | SNull => false
  | SInt z => in_i64 z
  | SReal S754_nan => false
  | SReal f => match real_to_integer f with SReal _ => true | _ => false end
  | SText s => match sqlite_numeric s with None => true | Some _ => false end
  end.

Definition rating_ok (r : sqlval) : bool :=
  match r with
  | SNull => true
  | SReal f => float_le f_1_0 f && float_le f f_10_0
  | _ => false
  end.

Definition row_ok (m : Movie) : Prop :=
  year_ok (year m) = true /\ rating_ok (rating m) = true.

(** No two rows share an id, no id is beyond the counter, and every row is
    as SQLite stores it. *)
Definition table_ok (d : database) : Prop :=
  NoDup (movie_id <$> rows d)
  /\ Forall (fun m => movie_id m <= sequence d) (rows d)
  /\ Forall row_ok (rows d).

(** The texts of a row are such texts. *)
Definition texts_ok (m : Movie) : Prop :=
  text_ok (title m) = true /\ text_ok (director m) = true
  /\ text_ok (genre m) = true
  /\ match year m with SText s => text_ok s = true | _ => True end.

(** The float conversions of the interpreter at [f]: [repr] writes a
    JSON number with a fraction or an exponent, and [float] reads that
    text back as [f]. *)
Definition float_ok (f : float) : Prop :=
  match f with
  | S754_nan | S754_infinity _ => True
  | _ => match_number (float_repr f) = Some (float_repr f, true, [])
         /\ py_float (float_repr f) = Some f
  end.

Definition sql_float_ok (v : sqlval) : Prop :=
  match v with SReal f => float_ok f | _ => True end.

Definition floats_ok (m : Movie) : Prop :=
  sql_float_ok (year m) /\ sql_float_ok (rating m).

(** What follows a value in the exported text: a comma or a line feed. *)
Definition delimiter (c : N) : Prop := c = 44%N \/ c = 10%N.

(** A character a text file gives back as it was written: a scalar value
    other than the carriage return. *)
Definition file_char (c : N) : bool := scalar c && negb (c =? 13)%N.

(** SQLite makes an INTEGER of a text only when the number fits 64 bits. *)
Definition numeric_fits : Prop :=
  forall s z, sqlite_numeric s = Some (inl z) -> in_i64 z = true.

(** The layout of the exported file: an array with one object per line
    group, members indented by eight spaces. *)
Definition quoted (s : str) : str := [34%N] ++ concat (escape_char <$> s) ++ [34%N].

Definition json_of_sql (v : sqlval) : str :=
  match v with
  | SNull => lit "null"
  | SInt z => decimal z
  | SReal f => floatstr f
  | SText s => quoted s
  end.

Definition member (key : string) (value : str) : str :=
  [34%N] ++ lit key ++ [34%N] ++ lit ": " ++ value.

Definition object_text (m : Movie) : str :=
  lit "{" ++ [10%N] ++ repeat 32%N 8
  ++ member "id" (decimal (movie_id m)) ++ lit "," ++ [10%N] ++ repeat 32%N 8
  ++ member "title" (quoted (title m)) ++ lit "," ++ [10%N] ++ repeat 32%N 8
  ++ member "director" (quoted (director m)) ++ lit "," ++ [10%N] ++ repeat 32%N 8
  ++ member "genre" (quoted (genre m)) ++ lit "," ++ [10%N] ++ repeat 32%N 8
  ++ member "year" (json_of_sql (year m)) ++ lit "," ++ [10%N] ++ repeat 32%N 8
  ++ member "rating" (json_of_sql (rating m))
  ++ [10%N] ++ repeat 32%N 4 ++ lit "}".

Fixpoint array_items (ms : list Movie) : str :=
  match ms with
  | [] => []
  | m :: ms' => lit "," ++ [10%N] ++ repeat 32%N 4 ++ object_text m ++ array_items ms'
  end.

Definition array_text (m : Movie) (ms : list Movie) : str :=
  lit "[" ++ [10%N] ++ repeat 32%N 4 ++ object_text m ++ array_items ms
  ++ [10%N] ++ lit "]".

(** Lines that [modify_movie] accepts for the record [target]: its id
    and the year typed fit 64 bits, the texts typed can be bound, the
    rating typed is in the range, and some line is not blank. *)
Definition accepted (target : Movie) (nt nd ng ny nr : str) : Prop :=
  in_i64 (movie_id target) = true
  /\ encodable (strip nt) = true /\ encodable (strip nd) = true
  /\ encodable (strip ng) = true
  /\ (strip ny = [] \/ exists y, py_int (strip ny) = Some y /\ in_i64 y = true)
  /\ (strip nr = []
      \/ exists f, py_float (strip nr) = Some f
                   /\ float_le f_1_0 f && float_le f f_10_0 = true)
  /\ ~ (strip nt = [] /\ strip nd = [] /\ strip ng = []
        /\ strip ny = [] /\ strip nr = []).

(** The record [m] after an update that names the fields whose line is not
    empty. *)
Definition updated (m : Movie) (new_title new_director new_genre : str)
    (new_year new_rating : option sqlval) : Movie :=
  {| movie_id := movie_id m;
     title := match new_title with [] => title m | _ => new_title end;
     director := match new_director with [] => director m | _ => new_director end;
     genre := match new_genre with [] => genre m | _ => new_genre end;
     year := default (year m) new_year;
     rating := default (rating m) new_rating |}.

(** ** The report: [list_rpt] *)

(** [str(x)] for a float and for the value of a column. *)
Definition float_str (f : float) : str :=
  match f with
  | S754_nan => lit "nan"
  | S754_infinity false => lit "inf"
  | S754_infinity true => lit "-inf"
  | _ => float_repr f
  end.

Definition str_of_sql (v : sqlval) : str :=
  match v with
  | SNull => lit "None"
  | SInt z => decimal z
  | SReal f => float_str f
  | SText s => s
  end.

(** What one [print] writes: a status line, a line of text, or one of the
    fixed texts of [main]. *)
Inductive output :=
  | Status (m : msg)
  | Line (s : str)
  | Menu                (* the nine lines of the menu *)
  | SearchError         (* the line of an [except] clause of [search_movies] *)
  | OtherErrorEOF       (* the line of [except Exception] for an EOFError *)
  | InvalidOption
  | Bye.

(** The column titles (電影名稱, 導演, 類型, 上映年份, 評分) and widths. *)
Definition headers : list str :=
  [[38651; 24433; 21517; 31281]; [23566; 28436]; [39006; 22411];
   [19978; 26144; 24180; 20221]; [35413; 20998]]%N.

Definition widths : list Z := [20; 24; 12; 10; 6].

Definition header_line : str := concat (zip_with pad_string headers widths).

(** The line printed for one movie. *)
Definition row_line (movie : Movie) : str :=
  let row := [pad_string (title movie) (widths !!! 0%nat);
              pad_string (director movie) (widths !!! 1%nat);
              pad_string (genre movie) (widths !!! 2%nat);
              pad_string (str_of_sql (year movie)) (widths !!! 3%nat);
              pad_string (str_of_sql (rating movie)) (widths !!! 4%nat)] in
  concat row.

Definition list_rpt (movies : list Movie) : list output :=
  match movies with
  | [] => [Status MsgNoData]
  | _ :: _ =>
      [Line []; Line header_line;
       Line (repeat 45%N (Z.to_nat (foldr Z.add 0 widths)))]
      ++ ((fun movie => Line (row_line movie)) <$> movies)
  end.

(** ** The session: [main]

    The state of a run, and each function of [lib.py] as [main] calls it:
    reading its lines from the console, in the order of its [input()]
    calls, and printing.  A function that finds the console at its end
    raises EOFError; outside a [try] the error ends the program. *)

Record world := { w_db : database; w_files : files; w_out : list output }.

Definition say (o : list output) (w : world) : world :=
  {| w_db := w_db w; w_files := w_files w; w_out := w_out w ++ o |}.

Inductive ending :=
  | Exited          (* choice 7 *)
  | EndOfInput      (* EOFError, not caught *)
  | OutOfFuel.

Inductive step :=
  | Continue (w : world) (rest : list str)
  | Stop (w : world) (e : ending).

(** [lib.connect_db()] and [lib.create_table(conn)]: the table of the
    database file, a new one if the file has none. *)
Definition create_table (stored : option database) : database :=
  default empty_database stored.

Definition run_import (stdin : list str) (w : world) : step :=
  let '(d, m) := import_movies (w_db w) (w_files w) in
  Continue {| w_db := d; w_files := w_files w; w_out := w_out w ++ [Status m] |}
           stdin.

(** What a call of [search_movies] prints. *)
Definition search_output (d : database) (title : str) : list output :=
  if search_fails d title then [SearchError] else [].

Definition run_search (stdin : list str) (w : world) : step :=
  match stdin with
  | [] => Stop w EndOfInput
  | yn :: rest =>
      if lower_is_y yn then
        Continue (say (list_rpt (search_movies (w_db w) [])) w) rest
      else
        match rest with
        | [] => Stop w EndOfInput
        | title :: rest' =>
            Continue (say (search_output (w_db w) (strip title)
                           ++ list_rpt (search_movies (w_db w) (strip title))) w)
                     rest'
        end
  end.

(** The year and the rating are read inside the [try]: there the EOFError
    is caught and reported. *)
Definition run_add (stdin : list str) (w : world) : step :=
  match stdin with
  | title :: director :: genre :: rest =>
      match rest with
      | [] => Continue (say [OtherErrorEOF] w) []
      | year :: rest1 =>
          match py_int (strip year) with
          | None => Continue (say [Status MsgNumberFormat] w) rest1
          | Some _ =>
              match rest1 with
              | [] => Continue (say [OtherErrorEOF] w) []
              | rating :: rest2 =>
                  let '(d, m) := add_movie (w_db w) title director genre
                                           year rating in
                  Continue {| w_db := d; w_files := w_files w;
                              w_out := w_out w ++ [Status m] |} rest2
              end
          end
      end
  | _ => Stop w EndOfInput
  end.

Definition run_modify (stdin : list str) (w : world) : step :=
  match stdin with
  | [] => Stop w EndOfInput
  | title :: rest =>
      match search_movies (w_db w) (strip title) with
      | [] => Continue (say (search_output (w_db w) (strip title)
                             ++ [Status MsgNoData]) w) rest
      | movies =>
          match rest with
          | new_title :: new_director :: new_genre :: new_year
            :: new_rating :: rest' =>
              let '(d, m) := modify_movie (w_db w) title new_title new_director
                                          new_genre new_year new_rating in
              Continue {| w_db := d; w_files := w_files w;
                          w_out := w_out w ++ list_rpt movies ++ [Status m] |}
                       rest'
          | _ => Stop (say (list_rpt movies) w) EndOfInput
          end
      end
  end.

Definition run_delete (stdin : list str) (w : world) : step :=
  match stdin with
  | [] => Stop w EndOfInput
  | all_delete :: rest =>
      if lower_is_y all_delete then
        match rest with
        | [] => Stop w EndOfInput
        | confirm :: rest' =>
            let '(d, m) := delete_movies (w_db w) all_delete confirm [] in
            Continue {| w_db := d; w_files := w_files w;
                        w_out := w_out w ++ [Status m] |} rest'
        end
      else
        match rest with
        | [] => Stop w EndOfInput
        | title :: rest' =>
            match search_movies (w_db w) (strip title) with
            | [] => Continue (say (search_output (w_db w) (strip title)
                                   ++ [Status MsgNoData]) w) rest'
            | movies =>
                match rest' with
                | [] => Stop (say (list_rpt movies) w) EndOfInput
                | confirm :: rest'' =>
                    let '(d, m) := delete_movies (w_db w) all_delete confirm
                                                 title in
                    Continue {| w_db := d; w_files := w_files w;
                                w_out := w_out w ++ list_rpt movies ++ [Status m] |}
                             rest''
                end
            end
        end
  end.

Definition run_export (stdin : list str) (w : world) : step :=
  match stdin with
  | [] => Stop w EndOfInput
  | all_export :: rest =>
      if lower_is_y all_export then
        let '(fs, m) := export_movies (w_db w) (w_files w) all_export [] in
        Continue {| w_db := w_db w; w_files := fs;
                    w_out := w_out w ++ [Status m] |} rest
      else
        match rest with
        | [] => Stop w EndOfInput
        | title :: rest' =>
            let '(fs, m) := export_movies (w_db w) (w_files w) all_export title in
            Continue {| w_db := w_db w; w_files := fs;
                        w_out := w_out w ++ search_output (w_db w) (strip title)
                                 ++ [Status m] |} rest'
        end
  end.

(** One turn of the [while True] of [main]. *)
Definition turn (stdin : list str) (w : world) : step :=
  let w := say [Menu] w in
  match stdin with
  | [] => Stop w EndOfInput
  | choice :: rest =>
      let choice := strip choice in
      if decide (choice = lit "1") then run_import rest w
      else if decide (choice = lit "2") then run_search rest w
      else if decide (choice = lit "3") then run_add rest w
      else if decide (choice = lit "4") then run_modify rest w
      else if decide (choice = lit "5") then run_delete rest w
      else if decide (choice = lit "6") then run_export rest w
      else if decide (choice = lit "7") then Stop (say [Bye] w) Exited
      else Continue (say [InvalidOption] w) rest
  end.

Fixpoint main_loop (fuel : nat) (stdin : list str) (w : world) : world * ending :=
  match fuel with
  | O => (w, OutOfFuel)
  | S fuel' =>
      match turn stdin w with
      | Continue w' rest => main_loop fuel' rest w'
      | Stop w' e => (w', e)
      end
  end.

(** [main()]: every turn reads a line, so one turn more than there are
    lines is all the loop can make. *)
Definition main (stored : option database) (fs : files) (stdin : list str)
  : world * ending :=
  main_loop (S (length stdin)) stdin
            {| w_db := create_table stored; w_files := fs; w_out := [] |}.

(** ** Vocabulary of the further statements *)

(** The five texts of a row of the report. *)
Definition row_texts (m : Movie) : list str :=
  [title m; director m; genre m; str_of_sql (year m); str_of_sql (rating m)].

(** Every text of the row is at most as wide as its column. *)
Definition fits (m : Movie) : Prop :=
  Forall2 (fun s w => get_display_width s <= w) (row_texts m) widths.

(** From [d] to [d']: the id counter does not go back, and a row of [d']
    has the id of a row of [d] or an id beyond the counter of [d]. *)
Definition grows (d d' : database) : Prop :=
  sequence d <= sequence d'
  /\ forall m, m ∈ rows d' ->
       movie_id m ∈ (movie_id <$> rows d) \/ sequence d < movie_id m.

(** The state a turn leaves. *)
Definition state_of (s : step) : world :=
  match s with
  | Continue w _ | Stop w _ => w
  end.

(** ** Sample data *)

Definition f_8_8 : float := S754_finite false 4953959590107546 (-49).
Definition f_9_0 : float := S754_finite false 5066549580791808 (-49).

Definition inception : Movie :=
  {| movie_id := 1; title := lit "Inception"; director := lit "Nolan";
     genre := lit "Sci-Fi"; year := SInt 2010; rating := SReal f_8_8 |}.

Definition interstellar : Movie :=
  {| movie_id := 2; title := lit "Interstellar"; director := lit "Nolan";
     genre := lit "Sci-Fi"; year := SInt 2014; rating := SReal f_9_0 |}.

Definition catalogue : database :=
  {| rows := [inception; interstellar]; sequence := 2 |}.

(** A width table that knows the CJK unified ideographs only. *)
Definition cjk_width (c : N) : width_class :=
  if ((19968 <=? c) && (c <=? 40959))%N then EA_W else EA_Na.

(** The entries of [repr] and of [float] at the ratings of the sample. *)
Definition sample_repr (f : float) : str :=
  if SFeqb f f_8_8 then lit "8.8"
  else if SFeqb f f_9_0 then lit "9.0"
  else [].

Definition sample_float (s : str) : option float :=
  if decide (s = lit "8.8") then Some f_8_8
  else if decide (s = lit "9.0") then Some f_9_0
  else None.

(** ** Tactics *)

(** Evaluates the closed powers of two of the goal. *)
Ltac eval_pow2 :=
  repeat match goal with
         | |- context [2 ^ ?x] =>
             let v := eval vm_compute in (2 ^ x) in change (2 ^ x) with v
         end.

(** Linear arithmetic with division and remainder by a constant. *)
Ltac div_lia :=
  clear east_asian_width py_int py_float float_repr json_load sqlite_real_text
        sqlite_numeric;
  zify; Z.to_euclidean_division_equations; lia.

(** The two outcomes of [modify_movie]: nothing written, or the requested
    value of a field. *)
Ltac unchanged := left; split; [reflexivity|discriminate].
Ltac requested :=
  first [left; split; reflexivity
        |right; eexists; split; [discriminate|];
         split; [reflexivity|]; split; [assumption|reflexivity]].

(** Picks the message of the goal out of a list of alternatives. *)
Ltac listed :=
  cbn [snd]; solve [repeat first [reflexivity | left; reflexivity | right]].

(** * Properties *)

(** ** Display *)

Lemma fold_width_acc (s : str) (a : Z) :
  fold_left
    (fun width ch =>
       match east_asian_width ch with
       | EA_F | EA_W | EA_A => width + 2
       | _ => width + 1
       end) s a
  = a + foldr (fun ch w => char_width ch + w) 0 s.
Proof.
  revert a. induction s as [|c s IH]; intros a; simpl.
  - lia.
  - rewrite IH. unfold char_width. destruct (east_asian_width c); lia.
Qed.

Lemma get_display_width_sum (s : str) :
  get_display_width s = foldr (fun ch w => char_width ch + w) 0 s.
Proof. unfold get_display_width. rewrite fold_width_acc. lia. Qed.

Lemma get_display_width_app (s t : str) :
  get_display_width (s ++ t) = get_display_width s + get_display_width t.
Proof.
  rewrite !get_display_width_sum. induction s as [|c s IH]; simpl; lia.
Qed.

Lemma char_width_cases (c : N) : char_width c = 1 \/ char_width c = 2.
Proof. unfold char_width. destruct (east_asian_width c); auto. Qed.

Lemma get_display_width_nonneg (s : str) : 0 <= get_display_width s.
Proof.
  rewrite get_display_width_sum. induction s as [|c s IH]; simpl; [lia|].
  pose proof (char_width_cases c). lia.
Qed.

Lemma get_display_width_spaces (n : nat) :
  east_asian_width 32 = EA_Na ->
  get_display_width (repeat 32%N n) = Z.of_nat n.
Proof.
  intros Hsp. rewrite get_display_width_sum.
  assert (Hw : char_width 32 = 1) by (unfold char_width; rewrite Hsp; reflexivity).
  induction n as [|n IH]; [reflexivity|].
  cbn [repeat foldr]. rewrite IH, Hw. lia.
Qed.

(** C7. [get_display_width] adds 2 for a character of East Asian width F,
    W or A and 1 for any other, so "A" has width 1, "中" width 2 and "A中B"
    width 4; [pad_string "中" 4] is "中" and two spaces; a text at least as
    wide as the target comes back as it is, and in general the padded text
    is as wide as the larger of the two. *)
Theorem display_width_and_padding :
  east_asian_width 65 = EA_Na ->
  east_asian_width 66 = EA_Na ->
  east_asian_width 20013 = EA_W ->
  east_asian_width 32 = EA_Na ->
  (forall s, get_display_width s = foldr (fun ch w => char_width ch + w) 0 s)
  /\ get_display_width [65%N] = 1
  /\ get_display_width [20013%N] = 2
  /\ get_display_width [65%N; 20013%N; 66%N] = 4
  /\ pad_string [20013%N] 4 = [20013%N; 32%N; 32%N]
  /\ (forall s w, w <= get_display_width s -> pad_string s w = s)
  /\ (forall s w, get_display_width (pad_string s w) = Z.max w (get_display_width s)).
Proof.
  intros HA HB Hzh Hsp.
  assert (W1 : get_display_width [65%N] = 1)
    by (unfold get_display_width; simpl; rewrite HA; reflexivity).
  assert (W2 : get_display_width [20013%N] = 2)
    by (unfold get_display_width; simpl; rewrite Hzh; reflexivity).
  repeat split.
  - apply get_display_width_sum.
  - exact W1.
  - exact W2.
  - unfold get_display_width; simpl. rewrite HA, Hzh, HB. reflexivity.
  - unfold pad_string. rewrite W2. reflexivity.
  - intros s w Hw. unfold pad_string.
    replace (Z.max (w - get_display_width s) 0) with 0 by lia.
    simpl. apply app_nil_r.
  - intros s w. unfold pad_string.
    rewrite get_display_width_app, get_display_width_spaces by exact Hsp.
    pose proof (get_display_width_nonneg s). lia.
Qed.

(** ** Search *)

Lemma like_any_step (p s : str) :
  like (pct :: p) s
  = like p s || match s with [] => false | _ :: s' => like (pct :: p) s' end.
Proof. destruct s; reflexivity. Qed.

Lemma like_other_step (c : N) (p s : str) :
  c <> pct ->
  like (c :: p) s
  = match s with
    | [] => false
    | d :: s' => ((c =? und) || (like_fold c =? like_fold d))%N && like p s'
    end.
Proof.
  intros Hc. simpl. destruct (N.eqb_spec c pct); [contradiction|reflexivity].
Qed.

Lemma like_any_skip (p s1 s2 : str) :
  like p s2 = true -> like (pct :: p) (s1 ++ s2) = true.
Proof.
  intros H. induction s1 as [|d s1 IH].
  - simpl app. rewrite like_any_step, H. reflexivity.
  - simpl app. rewrite like_any_step, IH. apply orb_true_r.
Qed.




Lemma like_complete (p s : str) : like_spec p s -> like p s = true.
Proof.
  induction 1 as [|p s1 s2 _ IH|p d s _ IH|c d p s Hc Hu Hf _ IH].
  - reflexivity.
  - apply like_any_skip, IH.
  - rewrite like_other_step by discriminate. rewrite IH. reflexivity.
  - rewrite like_other_step by exact Hc. rewrite IH, Hf, N.eqb_refl.
    rewrite orb_true_r. reflexivity.
Qed.




Lemma encodable_app (s t : str) :
  encodable (s ++ t) = encodable s && encodable t.
Proof. apply forallb_app. Qed.

Lemma encodable_pattern (x : str) : encodable ([pct] ++ x ++ [pct]) = encodable x.
Proof.
  rewrite !encodable_app. change (encodable [pct]) with true.
  rewrite andb_true_r. reflexivity.
Qed.


Lemma search_movies_too_long (d : database) (x : str) :
  x <> [] -> rows d <> [] -> LIKE_PATTERN_LENGTH < pattern_bytes x ->
  search_movies d x = [].
Proof.
  intros Hx Hr Hl. destruct x as [|c x]; [contradiction|].
  unfold search_movies, execute_select. cbn [bind_param].
  destruct (encodable _); cbn [bind_result]; [|reflexivity].
  unfold select_like. destruct (rows d) as [|m l]; [contradiction|].
  unfold pattern_bytes in Hl. apply Z.ltb_lt in Hl. rewrite Hl. reflexivity.
Qed.

Lemma search_movies_filter (d : database) (x : str) :
  x <> [] -> encodable x = true ->
  pattern_bytes x <= LIKE_PATTERN_LENGTH \/ rows d = [] ->
  search_movies d x
  = filter (fun m => sqlite_like ([pct] ++ x ++ [pct]) (title m)) (rows d).
Proof.
  intros Hx He Hl. destruct x as [|c x]; [contradiction|].
  unfold search_movies, execute_select. cbn [bind_param].
  rewrite (encodable_pattern (c :: x)), He. cbn [bind_result].
  unfold select_like. destruct (rows d) as [|m l] eqn:Hr; [reflexivity|].
  destruct Hl as [Hl|Hl]; [|discriminate].
  unfold pattern_bytes in Hl. apply Z.ltb_ge in Hl. rewrite Hl. reflexivity.
Qed.

(** Whatever the filter, the search returns nothing or the rows that pass
    a test. *)
Lemma search_movies_outcome (d : database) (x : str) :
  search_movies d x = []
  \/ exists P : Movie -> bool, search_movies d x = filter (fun m => P m) (rows d).
Proof.
  destruct x as [|c x].
  - right. exists (fun _ => true). cbn. symmetry.
    induction (rows d) as [|m l IH]; [reflexivity|].
    rewrite filter_cons_True by exact I. now rewrite IH.
  - unfold search_movies, execute_select. cbn [bind_param].
    destruct (encodable _); cbn [bind_result]; [|left; reflexivity].
    unfold select_like. destruct (rows d) as [|m l]; [left; reflexivity|].
    destruct (_ <? _); [left; reflexivity|].
    right. exists (fun m => sqlite_like ([pct] ++ (c :: x) ++ [pct]) (title m)).
    reflexivity.
Qed.



(** ** Ratings as numbers *)

Lemma digits2_pos_bounds (m : positive) :
  2 ^ (Zpos (digits2_pos m) - 1) <= Zpos m < 2 ^ Zpos (digits2_pos m).
Proof.
  induction m as [p IH|p IH|]; cbn [digits2_pos].
  - rewrite Pos2Z.inj_succ, (Pos2Z.inj_xI p).
    replace (Z.succ (Zpos (digits2_pos p)) - 1)
      with (Z.succ (Zpos (digits2_pos p) - 1)) by lia.
    rewrite !Z.pow_succ_r by lia.
    destruct IH as [Hlo Hhi].
    set (a := 2 ^ (Zpos (digits2_pos p) - 1)) in *.
    set (b := 2 ^ Zpos (digits2_pos p)) in *.
    clearbody a b. lia.
  - rewrite Pos2Z.inj_succ, (Pos2Z.inj_xO p).
    replace (Z.succ (Zpos (digits2_pos p)) - 1)
      with (Z.succ (Zpos (digits2_pos p) - 1)) by lia.
    rewrite !Z.pow_succ_r by lia.
    destruct IH as [Hlo Hhi].
    set (a := 2 ^ (Zpos (digits2_pos p) - 1)) in *.
    set (b := 2 ^ Zpos (digits2_pos p)) in *.
    clearbody a b. lia.
  - split; reflexivity.
Qed.

Lemma binary64_mantissa (m : positive) (e : Z) :
  bounded 53 1024 m e = true ->
  Zpos m < 2 ^ 53 /\ -1074 <= e <= 971 /\ (-1074 < e -> 2 ^ 52 <= Zpos m).
Proof.
  unfold bounded, canonical_mantissa, fexp, emin. intros H.
  apply andb_true_iff in H as [Hc He].
  apply Z.eqb_eq in Hc. apply Z.leb_le in He.
  pose proof (digits2_pos_bounds m) as [Hlo Hhi].
  set (dg := Zpos (digits2_pos m)) in *.
  assert (Hd : dg <= 53) by lia.
  split; [|split].
  - eapply Z.lt_le_trans; [exact Hhi|]. apply Z.pow_le_mono_r; lia.
  - lia.
  - intros Hn. assert (dg = 53) as Hdg by lia. rewrite Hdg in Hlo. exact Hlo.
Qed.

Lemma float_le_finite (m1 m2 : positive) (e1 e2 : Z) :
  float_le (S754_finite false m1 e1) (S754_finite false m2 e2)
  = match e1 ?= e2 with
    | Lt => true
    | Gt => false
    | Eq => (m1 <=? m2)%positive
    end.
Proof.
  unfold float_le, SFleb, SFcompare. destruct (e1 ?= e2); reflexivity.
Qed.

Lemma finite_value_ge (m : positive) (e a : Z) :
  (inject_Z a <= finite_value m e)%Q
  <-> a * 2 ^ Z.max 0 (- e) <= Zpos m * 2 ^ Z.max 0 e.
Proof.
  destruct e as [|k|k]; unfold finite_value, Qle; cbn [Qnum Qden inject_Z].
  - change (2 ^ Z.max 0 (- 0)) with 1. change (2 ^ Z.max 0 0) with 1. lia.
  - replace (Z.max 0 (- Zpos k)) with 0 by lia.
    replace (Z.max 0 (Zpos k)) with (Zpos k) by lia.
    change (2 ^ 0) with 1. lia.
  - replace (Z.max 0 (- Zneg k)) with (Zpos k) by lia.
    replace (Z.max 0 (Zneg k)) with 0 by lia.
    change (2 ^ 0) with 1. rewrite Pos2Z.inj_pow. lia.
Qed.

Lemma finite_value_le (m : positive) (e a : Z) :
  (finite_value m e <= inject_Z a)%Q
  <-> Zpos m * 2 ^ Z.max 0 e <= a * 2 ^ Z.max 0 (- e).
Proof.
  destruct e as [|k|k]; unfold finite_value, Qle; cbn [Qnum Qden inject_Z].
  - change (2 ^ Z.max 0 (- 0)) with 1. change (2 ^ Z.max 0 0) with 1. lia.
  - replace (Z.max 0 (- Zpos k)) with 0 by lia.
    replace (Z.max 0 (Zpos k)) with (Zpos k) by lia.
    change (2 ^ 0) with 1. lia.
  - replace (Z.max 0 (- Zneg k)) with (Zpos k) by lia.
    replace (Z.max 0 (Zneg k)) with 0 by lia.
    change (2 ^ 0) with 1. rewrite Pos2Z.inj_pow. lia.
Qed.

Lemma finite_value_pos (m : positive) (e : Z) : (0 < finite_value m e)%Q.
Proof.
  destruct e as [|k|k]; unfold finite_value, Qlt; cbn [Qnum Qden inject_Z].
  - lia.
  - assert (0 < 2 ^ Zpos k) by (apply Z.pow_pos_nonneg; lia). nia.
  - lia.
Qed.

Lemma finite_range (m : positive) (e : Z) :
  bounded 53 1024 m e = true ->
  float_le f_1_0 (S754_finite false m e)
  && float_le (S754_finite false m e) f_10_0 = true
  <-> (inject_Z 1 <= finite_value m e)%Q /\ (finite_value m e <= inject_Z 10)%Q.
Proof.
  intros Hb. apply binary64_mantissa in Hb as (Hm & He & Hn).
  unfold f_1_0, f_10_0. rewrite !float_le_finite.
  rewrite finite_value_ge, finite_value_le.
  assert (E53 : 2 ^ 53 = 9007199254740992) by reflexivity.
  assert (E52 : 2 ^ 52 = 4503599627370496) by reflexivity.
  assert (E48 : 2 ^ 48 = 281474976710656) by reflexivity.
  rewrite E53 in Hm. rewrite E52 in Hn.
  assert (Hcase : e < -52 \/ e = -52 \/ e = -51 \/ e = -50 \/ e = -49 \/ -49 < e)
    by lia.
  destruct Hcase as [Hlt|[->|[->|[->|[->|Hgt]]]]].
  - assert (Hc : (-52 ?= e) = Gt) by (apply Z.compare_gt_iff; lia).
    rewrite Hc. cbn [andb].
    replace (Z.max 0 e) with 0 by lia.
    replace (Z.max 0 (- e)) with (- e) by lia.
    assert (Hp : 2 ^ 53 <= 2 ^ (- e)) by (apply Z.pow_le_mono_r; lia).
    rewrite E53 in Hp. change (2 ^ 0) with 1.
    split; [discriminate|]. intros [H1 _]. lia.
  - cbn [Z.compare Pos.compare Pos.compare_cont CompOpp andb]. eval_pow2.
    rewrite andb_true_r, Pos2Z.inj_leb, Z.leb_le. specialize (Hn ltac:(lia)). lia.
  - cbn [Z.compare Pos.compare Pos.compare_cont CompOpp andb]. eval_pow2.
    specialize (Hn ltac:(lia)). split; [lia|reflexivity].
  - cbn [Z.compare Pos.compare Pos.compare_cont CompOpp andb]. eval_pow2.
    specialize (Hn ltac:(lia)). split; [lia|reflexivity].
  - cbn [Z.compare Pos.compare Pos.compare_cont CompOpp andb]. eval_pow2.
    rewrite Pos2Z.inj_leb, Z.leb_le. specialize (Hn ltac:(lia)). lia.
  - assert (Hc : (-52 ?= e) = Lt) by (apply Z.compare_lt_iff; lia).
    assert (Hc' : (e ?= -49) = Gt) by (apply Z.compare_gt_iff; lia).
    rewrite Hc, Hc'. cbn [andb].
    specialize (Hn ltac:(lia)).
    assert (Hp : 2 ^ Z.max 0 (- e) <= 2 ^ 48) by (apply Z.pow_le_mono_r; lia).
    rewrite E48 in Hp.
    assert (Hq : 0 < 2 ^ Z.max 0 e) by (apply Z.pow_pos_nonneg; lia).
    split; [discriminate|]. intros [_ H10]. nia.
Qed.

Lemma rating_check_range (r : float) :
  is_binary64 r = true ->
  float_le f_1_0 r && float_le r f_10_0 = true <-> rating_in_range r.
Proof.
  intros Hv. unfold rating_in_range.
  destruct r as [s|s| |s m e].
  - split; [discriminate|].
    intros (q & Hq & H1 & _). injection Hq as <-.
    unfold Qle in H1. simpl in H1. lia.
  - split; [destruct s; discriminate|]. intros (q & Hq & _). discriminate.
  - split; [discriminate|]. intros (q & Hq & _). discriminate.
  - destruct s.
    + split; [discriminate|].
      intros (q & Hq & H1 & _). injection Hq as <-.
      pose proof (finite_value_pos m e) as Hp.
      apply Qopp_le_compat in H1. rewrite Qopp_involutive in H1.
      exfalso. apply (Qlt_irrefl 0).
      eapply Qlt_le_trans; [exact Hp|].
      eapply Qle_trans; [exact H1|]. discriminate.
    + rewrite (finite_range m e Hv). cbn [float_value]. split.
      * intros [H1 H10]. exists (finite_value m e). auto.
      * intros (q & Hq & H1 & H10). injection Hq as <-. auto.
Qed.

Lemma float_le_not_nan (a r : float) : float_le a r = true -> r <> S754_nan.
Proof. intros H ->. destruct a; discriminate. Qed.

(** [f_0_99] and [f_10_01] are within half a unit in the last place of
    0.99 and 10.01: they are what [float("0.99")] and [float("10.01")]
    return. *)
Example f_0_99_nearest :
  ((99 # 100) - (1 # 2 ^ 54) <= finite_value 8917127262193582 (-53)
   /\ finite_value 8917127262193582 (-53) <= (99 # 100) + (1 # 2 ^ 54))%Q.
Proof. split; vm_compute; discriminate. Qed.

Example f_10_01_nearest :
  ((1001 # 100) - (1 # 2 ^ 50) <= finite_value 5635129033747333 (-49)
   /\ finite_value 5635129033747333 (-49) <= (1001 # 100) + (1 # 2 ^ 50))%Q.
Proof. split; vm_compute; discriminate. Qed.

(** ** The CHECK constraint and Python's comparison agree *)

Lemma SFcompare_antisym (a b : float) :
  SFcompare a b = option_map CompOpp (SFcompare b a).
Proof.
  destruct a as [sa|sa| |sa ma ea], b as [sb|sb| |sb mb eb];
    try destruct sa; try destruct sb; try reflexivity;
    unfold SFcompare, option_map; f_equal;
    rewrite (Z.compare_antisym ea eb);
    destruct (ea ?= eb); cbn [CompOpp]; try reflexivity;
    rewrite (Pos.compare_cont_antisym mb ma Eq); reflexivity.
Qed.

Lemma sql_le_real (r c : float) :
  sql_le (SReal r) c
  = match SFcompare r c with Some _ => Some (float_le r c) | None => None end.
Proof.
  unfold sql_le, sql_compare, float_le, SFleb.
  destruct (SFcompare r c) as [[]|]; reflexivity.
Qed.

Lemma sql_ge_real (r c : float) :
  sql_ge (SReal r) c
  = match SFcompare r c with Some _ => Some (float_le c r) | None => None end.
Proof.
  unfold sql_ge, sql_compare, float_le, SFleb.
  rewrite (SFcompare_antisym c r).
  destruct (SFcompare r c) as [[]|]; reflexivity.
Qed.

Lemma check_rating_real (r : float) :
  r <> S754_nan ->
  check_rating (SReal r) = float_le f_1_0 r && float_le r f_10_0.
Proof.
  intros Hr. unfold check_rating. rewrite sql_ge_real, sql_le_real.
  assert (H1 : exists c, SFcompare r f_1_0 = Some c)
    by (destruct r as [| | |[] ? ?]; try contradiction;
        unfold SFcompare, f_1_0; eexists; reflexivity).
  assert (H10 : exists c, SFcompare r f_10_0 = Some c)
    by (destruct r as [| | |[] ? ?]; try contradiction;
        unfold SFcompare, f_10_0; eexists; reflexivity).
  destruct H1 as [c1 ->], H10 as [c10 ->].
  destruct (float_le f_1_0 r), (float_le r f_10_0); reflexivity.
Qed.

Lemma sql_real_not_nan (r : float) : r <> S754_nan -> sql_real r = SReal r.
Proof. destruct r; [reflexivity..|contradiction|reflexivity]. Qed.

Lemma bind_param_float (r : float) :
  r <> S754_nan -> bind_param (PyFloat r) = Ok (SReal r).
Proof. intros H. cbn [bind_param]. rewrite (sql_real_not_nan r H). reflexivity. Qed.

Lemma rating_column_valid (r : float) :
  float_le f_1_0 r && float_le r f_10_0 = true ->
  r <> S754_nan /\ rating_column (SReal r) = Some (SReal r).
Proof.
  intros H. assert (Hr : r <> S754_nan).
  { apply andb_true_iff in H as [H _]. eapply float_le_not_nan, H. }
  split; [exact Hr|].
  unfold rating_column. cbn [real_affinity].
  rewrite (check_rating_real r Hr), H. reflexivity.
Qed.

(** ** Single insert *)

Lemma add_movie_valid (d : database) (t di g yl rl : str) (y : Z) (r : float) :
  encodable (strip t) = true -> encodable (strip di) = true ->
  encodable (strip g) = true ->
  py_int (strip yl) = Some y -> in_i64 y = true ->
  py_float (strip rl) = Some r ->
  float_le f_1_0 r && float_le r f_10_0 = true ->
  add_movie d t di g yl rl
  = ({| rows := rows d ++ [{| movie_id := sequence d + 1;
                              title := strip t; director := strip di;
                              genre := strip g; year := SInt y;
                              rating := SReal r |}];
        sequence := sequence d + 1 |}, MsgAdded).
Proof.
  intros Ht Hdi Hg Hy Hi Hr Hc. unfold add_movie. rewrite Hy, Hr, Hc. cbn [negb].
  destruct (rating_column_valid r Hc) as [Hn Hcol].
  unfold execute_insert. cbn [map_result].
  rewrite (bind_param_float r Hn). cbn [bind_param]. rewrite Ht, Hdi, Hg, Hi.
  cbn [bind_result insert_row text_column].
  unfold year_column. cbn [integer_affinity]. rewrite Hcol. reflexivity.
Qed.

(** A text with a lone surrogate is refused when the values are bound;
    the exception is a [ValueError]. *)
Lemma add_movie_unencodable (d : database) (t di g yl rl : str) (y : Z) (r : float) :
  encodable (strip t) && encodable (strip di) && encodable (strip g) = false ->
  py_int (strip yl) = Some y ->
  py_float (strip rl) = Some r ->
  float_le f_1_0 r && float_le r f_10_0 = true ->
  add_movie d t di g yl rl = (d, MsgNumberFormat).
Proof.
  intros He Hy Hr Hc. unfold add_movie. rewrite Hy, Hr, Hc. cbn [negb].
  unfold execute_insert. cbn [map_result bind_param].
  destruct (encodable (strip t)); cbn [bind_result]; [|reflexivity].
  destruct (encodable (strip di)); cbn [bind_result]; [|reflexivity].
  destruct (encodable (strip g)); cbn [bind_result]; [discriminate|reflexivity].
Qed.

Lemma add_movie_out_of_range (d : database) (t di g yl rl : str) (y : Z) (r : float) :
  py_int (strip yl) = Some y ->
  py_float (strip rl) = Some r ->
  float_le f_1_0 r && float_le r f_10_0 = false ->
  add_movie d t di g yl rl = (d, MsgRatingRange).
Proof.
  intros Hy Hr Hc. unfold add_movie. rewrite Hy, Hr, Hc. reflexivity.
Qed.

(** The single insert never stores a NULL rating: whatever is typed, the
    table is left alone or gains one row whose rating is a REAL in range. *)
Lemma add_movie_cases (d : database) (t di g yl rl : str) :
  fst (add_movie d t di g yl rl) = d
  \/ exists y r,
       in_i64 y = true
       /\ float_le f_1_0 r && float_le r f_10_0 = true
       /\ add_movie d t di g yl rl
          = ({| rows := rows d ++ [{| movie_id := sequence d + 1;
                                      title := strip t; director := strip di;
                                      genre := strip g; year := SInt y;
                                      rating := SReal r |}];
                sequence := sequence d + 1 |}, MsgAdded).
Proof.
  destruct (py_int (strip yl)) as [y|] eqn:Hy;
    [|left; unfold add_movie; rewrite Hy; reflexivity].
  destruct (py_float (strip rl)) as [r|] eqn:Hr;
    [|left; unfold add_movie; rewrite Hy, Hr; reflexivity].
  destruct (float_le f_1_0 r && float_le r f_10_0) eqn:Hc;
    [|left; unfold add_movie; rewrite Hy, Hr, Hc; reflexivity].
  destruct (encodable (strip t) && encodable (strip di) && encodable (strip g))
    eqn:He;
    [|left; rewrite (add_movie_unencodable d t di g yl rl y r He Hy Hr Hc);
      reflexivity].
  apply andb_true_iff in He as [He Hg]. apply andb_true_iff in He as [Ht Hdi].
  destruct (in_i64 y) eqn:Hi.
  - right. exists y, r. split; [exact Hi|]. split; [exact Hc|].
    apply add_movie_valid; assumption.
  - left. unfold add_movie. rewrite Hy, Hr, Hc. cbn [negb].
    unfold execute_insert. cbn [map_result bind_param bind_result].
    rewrite Ht, Hdi, Hg, Hi. reflexivity.
Qed.

(** C2. With three texts that can be bound (no lone surrogate) and a year
    that reads as a 64-bit integer, [add_movie] writes a record exactly
    when the rating [r] it reads satisfies 1 <= r <= 10: then the new
    record is appended under a fresh id, otherwise the range message is
    printed and the table is untouched.  1.0 and 10.0 are in the range,
    0.99 and 10.01 are not. *)
Theorem add_movie_rating_bounds (d : database) (t di g yl rl : str)
    (y : Z) (r : float) :
  encodable (strip t) = true -> encodable (strip di) = true ->
  encodable (strip g) = true ->
  py_int (strip yl) = Some y -> in_i64 y = true ->
  py_float (strip rl) = Some r -> is_binary64 r = true ->
  (snd (add_movie d t di g yl rl) = MsgAdded <-> rating_in_range r)
  /\ (rating_in_range r ->
        add_movie d t di g yl rl
        = ({| rows := rows d ++ [{| movie_id := sequence d + 1;
                                    title := strip t; director := strip di;
                                    genre := strip g; year := SInt y;
                                    rating := SReal r |}];
              sequence := sequence d + 1 |}, MsgAdded))
  /\ (~ rating_in_range r -> add_movie d t di g yl rl = (d, MsgRatingRange))
  /\ rating_in_range f_1_0 /\ rating_in_range f_10_0
  /\ ~ rating_in_range f_0_99 /\ ~ rating_in_range f_10_01.
Proof.
  intros Ht Hdi Hg Hy Hi Hr Hv.
  pose proof (rating_check_range r Hv) as Hiff.
  destruct (float_le f_1_0 r && float_le r f_10_0) eqn:Hc.
  - assert (Hin : rating_in_range r) by (apply Hiff; reflexivity).
    rewrite (add_movie_valid d t di g yl rl y r Ht Hdi Hg Hy Hi Hr Hc).
    repeat split; auto; try contradiction.
    + apply (rating_check_range f_1_0); reflexivity.
    + apply (rating_check_range f_10_0); reflexivity.
    + intros H. apply (rating_check_range f_0_99) in H; [discriminate|reflexivity].
    + intros H. apply (rating_check_range f_10_01) in H; [discriminate|reflexivity].
  - assert (Hout : ~ rating_in_range r) by (intros H; apply Hiff in H; discriminate).
    rewrite (add_movie_out_of_range d t di g yl rl y r Hy Hr Hc).
    repeat split; auto; try contradiction; try discriminate.
    + apply (rating_check_range f_1_0); reflexivity.
    + apply (rating_check_range f_10_0); reflexivity.
    + intros H. apply (rating_check_range f_0_99) in H; [discriminate|reflexivity].
    + intros H. apply (rating_check_range f_10_01) in H; [discriminate|reflexivity].
Qed.

(** ** Update *)

Lemma update_rows_map (sets : list (column * sqlval)) (i : Z) (f : Movie -> Movie)
    (l : list Movie) :
  (forall m, assign_all m sets = Some (f m)) ->
  update_rows l sets i
  = Some ((fun m => if movie_id m =? i then f m else m) <$> l).
Proof.
  intros Hf. induction l as [|m l IH]; [reflexivity|].
  cbn [update_rows]. rewrite IH, Hf, fmap_cons.
  destruct (movie_id m =? i); reflexivity.
Qed.

(** Every run of [modify_movie] either leaves the table alone or ends in
    one UPDATE of the first match, whose effect on a row is [updated]. *)
Lemma modify_movie_cases (d : database) (t nt nd ng ny nr : str) :
  (fst (modify_movie d t nt nd ng ny nr) = d
   /\ snd (modify_movie d t nt nd ng ny nr) <> MsgModified)
  \/ (exists movie rest oy orr,
        search_movies d (strip t) = movie :: rest
        /\ snd (modify_movie d t nt nd ng ny nr) = MsgModified
        /\ (strip ny = [] /\ oy = None
            \/ exists y, strip ny <> [] /\ py_int (strip ny) = Some y
                         /\ in_i64 y = true /\ oy = Some (SInt y))
        /\ (strip nr = [] /\ orr = None
            \/ exists f, strip nr <> [] /\ py_float (strip nr) = Some f
                         /\ float_le f_1_0 f && float_le f f_10_0 = true
                         /\ orr = Some (SReal f))
        /\ fst (modify_movie d t nt nd ng ny nr)
           = {| rows := (fun m => if movie_id m =? movie_id movie
                                  then updated m (strip nt) (strip nd) (strip ng) oy orr
                                  else m) <$> rows d;
                sequence := sequence d |}).
Proof.
  unfold modify_movie.
  destruct (search_movies d (strip t)) as [|movie rest] eqn:Hs; [unchanged|].
  destruct (strip nt) as [|c1 s1], (strip nd) as [|c2 s2], (strip ng) as [|c3 s3],
    (strip ny) as [|c4 s4], (strip nr) as [|c5 s5]; cbn [set_if app].
  all: try (destruct (py_int (c4 :: s4)) as [y|] eqn:Hy; cbn [option_map];
            [|unchanged]).
  all: try (destruct (py_float (c5 :: s5)) as [f|] eqn:Hf; [|unchanged];
            destruct (float_le f_1_0 f && float_le f f_10_0) eqn:Hc; cbn [negb];
            [|unchanged];
            destruct (rating_column_valid f Hc) as [Hn Hcol]).
  all: try unchanged.
  all: cbn [app]; unfold execute_update; cbn [map_result bind_result fst snd];
    rewrite ?(bind_param_float _ Hn); cbn [bind_param bind_result].
  all: repeat (match goal with
               | |- context [encodable ?s] => destruct (encodable s) eqn:?
               end; cbn [bind_result]; [|unchanged]).
  all: try (destruct (in_i64 y) eqn:Hiy; cbn [bind_result]; [|unchanged]).
  all: destruct (in_i64 (movie_id movie)) eqn:Hid; cbn [bind_result]; [|unchanged].
  all: erewrite update_rows_map;
    [|intros m; simpl; unfold year_column; simpl; rewrite ?Hcol; simpl; reflexivity].
  all: right; eexists movie, rest, _, _.
  all: split; [reflexivity|]; split; [reflexivity|].
  all: split; [requested|]; split; [requested|]; reflexivity.
Qed.

(** When [modify_movie] goes through. *)
Lemma modify_movie_valid (d : database) (t nt nd ng ny nr : str)
    (target : Movie) (others : list Movie) (oy orr : option sqlval) :
  search_movies d (strip t) = target :: others ->
  in_i64 (movie_id target) = true ->
  encodable (strip nt) = true -> encodable (strip nd) = true ->
  encodable (strip ng) = true ->
  (strip ny = [] /\ oy = None
   \/ exists y, strip ny <> [] /\ py_int (strip ny) = Some y
                /\ in_i64 y = true /\ oy = Some (SInt y)) ->
  (strip nr = [] /\ orr = None
   \/ exists f, strip nr <> [] /\ py_float (strip nr) = Some f
                /\ float_le f_1_0 f && float_le f f_10_0 = true
                /\ orr = Some (SReal f)) ->
  ~ (strip nt = [] /\ strip nd = [] /\ strip ng = []
     /\ strip ny = [] /\ strip nr = []) ->
  modify_movie d t nt nd ng ny nr
  = ({| rows := (fun m => if movie_id m =? movie_id target
                          then updated m (strip nt) (strip nd) (strip ng) oy orr
                          else m) <$> rows d;
        sequence := sequence d |}, MsgModified).
Proof.
  intros Hs Hid He1 He2 He3 Hy Hr Hsome. unfold modify_movie. rewrite Hs.
  destruct Hy as [[Hy ->]|(y & Hyne & Hy & Hiy & ->)];
    destruct Hr as [[Hr ->]|(f & Hrne & Hr & Hc & ->)].
  all: destruct (strip nt) as [|c1 s1], (strip nd) as [|c2 s2],
         (strip ng) as [|c3 s3], (strip ny) as [|c4 s4], (strip nr) as [|c5 s5];
    try discriminate; try contradiction; cbn [set_if app].
  all: try (exfalso; apply Hsome; repeat split; reflexivity).
  all: rewrite ?Hy, ?Hr; cbn [option_map]; rewrite ?Hc; cbn [negb].
  all: try destruct (rating_column_valid f Hc) as [Hn Hcol].
  all: cbn [app]; unfold execute_update; cbn [map_result bind_result fst snd];
    rewrite ?(bind_param_float _ Hn); cbn [bind_param bind_result];
    rewrite ?He1, ?He2, ?He3; cbn [bind_result];
    rewrite ?Hiy; cbn [bind_result]; rewrite Hid; cbn [bind_result].
  all: erewrite update_rows_map;
    [|intros m; simpl; unfold year_column; simpl; rewrite ?Hcol; simpl; reflexivity].
  all: reflexivity.
Qed.

Lemma modify_movie_accepted (d : database) (t nt nd ng ny nr : str)
    (target : Movie) (others : list Movie) :
  search_movies d (strip t) = target :: others ->
  accepted target nt nd ng ny nr ->
  snd (modify_movie d t nt nd ng ny nr) = MsgModified.
Proof.
  intros Hs (Hid & He1 & He2 & He3 & Hy & Hr & Hsome).
  assert (exists oy,
            strip ny = [] /\ oy = None
            \/ exists y, strip ny <> [] /\ py_int (strip ny) = Some y
                         /\ in_i64 y = true /\ oy = Some (SInt y)) as [oy Hoy].
  { destruct (strip ny) as [|c x] eqn:E; [exists None; left; split; reflexivity|].
    destruct Hy as [Hy|(y & Hy & Hi)]; [discriminate|].
    exists (Some (SInt y)). right. exists y.
    split; [discriminate|]. repeat split; assumption. }
  assert (exists orr,
            strip nr = [] /\ orr = None
            \/ exists f, strip nr <> [] /\ py_float (strip nr) = Some f
                         /\ float_le f_1_0 f && float_le f f_10_0 = true
                         /\ orr = Some (SReal f)) as [orr Horr].
  { destruct (strip nr) as [|c x] eqn:E; [exists None; left; split; reflexivity|].
    destruct Hr as [Hr|(f & Hr & Hc)]; [discriminate|].
    exists (Some (SReal f)). right. exists f.
    split; [discriminate|]. repeat split; assumption. }
  rewrite (modify_movie_valid d t nt nd ng ny nr target others oy orr
             Hs Hid He1 He2 He3 Hoy Horr Hsome).
  reflexivity.
Qed.

Lemma search_movies_sublist (d : database) (x : str) :
  search_movies d x `sublist_of` rows d.
Proof.
  destruct (search_movies_outcome d x) as [->|[P ->]].
  - apply sublist_nil_l.
  - apply sublist_filter.
Qed.

(** C4. After [modify_movie], whatever the lines typed, every record keeps
    its id and every field whose line was left empty; records other than
    the first match of the search are as they were, and so is the id
    counter. *)
Theorem modify_movie_frame (d : database) (t nt nd ng ny nr : str) :
  sequence (fst (modify_movie d t nt nd ng ny nr)) = sequence d
  /\ Forall2
       (fun m m' =>
          movie_id m' = movie_id m
          /\ (strip nt = [] -> title m' = title m)
          /\ (strip nd = [] -> director m' = director m)
          /\ (strip ng = [] -> genre m' = genre m)
          /\ (strip ny = [] -> year m' = year m)
          /\ (strip nr = [] -> rating m' = rating m)
          /\ ((forall target, head (search_movies d (strip t)) = Some target ->
                             movie_id m <> movie_id target) -> m' = m))
       (rows d) (rows (fst (modify_movie d t nt nd ng ny nr))).
Proof.
  destruct (modify_movie_cases d t nt nd ng ny nr)
    as [[-> _]|(movie & rest & oy & orr & Hs & _ & Hy & Hr & ->)].
  - split; [reflexivity|]. apply Forall2_same_length_lookup_2; [reflexivity|].
    intros i m m' H1 H2. rewrite H1 in H2. injection H2 as <-.
    repeat split; reflexivity.
  - split; [reflexivity|]. cbn [rows].
    apply Forall2_fmap_r, Forall_Forall2_diag, Forall_forall. intros m _.
    unfold compose. cbv beta.
    destruct (Z.eqb_spec (movie_id m) (movie_id movie)) as [Heq|Hne].
    + cbn [updated movie_id title director genre year rating].
      split; [reflexivity|]. repeat split.
      * intros ->. reflexivity.
      * intros ->. reflexivity.
      * intros ->. reflexivity.
      * intros Hy0. destruct Hy as [[_ ->]|(y & Hy1 & _)]; [reflexivity|contradiction].
      * intros Hr0. destruct Hr as [[_ ->]|(f & Hr1 & _)]; [reflexivity|contradiction].
      * intros Ht. exfalso. apply (Ht movie); [rewrite Hs; reflexivity|exact Heq].
    + repeat split; reflexivity.
Qed.

(** C6. When the search finds a record and all five lines are left empty,
    [modify_movie] runs no UPDATE: the database is returned as it was and
    the message is the one for no modification. *)
Theorem modify_movie_nothing (d : database) (t nt nd ng ny nr : str) :
  search_movies d (strip t) <> [] ->
  strip nt = [] -> strip nd = [] -> strip ng = [] ->
  strip ny = [] -> strip nr = [] ->
  modify_movie d t nt nd ng ny nr = (d, MsgNothingModified).
Proof.
  intros Hs Ht Hd Hg Hy Hr. unfold modify_movie.
  destruct (search_movies d (strip t)) as [|movie rest]; [contradiction|].
  rewrite Ht, Hd, Hg, Hy, Hr. reflexivity.
Qed.

Lemma fmap_fixed {A} (g : A -> A) (l : list A) :
  (forall x, x ∈ l -> g x = x) -> g <$> l = l.
Proof.
  induction l as [|a l IH]; intros H; [reflexivity|].
  rewrite fmap_cons, (H a), IH; [reflexivity| |left].
  intros x Hx. apply H. right. exact Hx.
Qed.

(** A table without two rows of the same id splits around any of its rows,
    and every other row has another id. *)
Lemma split_at_row (l : list Movie) (target : Movie) :
  NoDup (movie_id <$> l) -> target ∈ l ->
  exists before after,
    l = before ++ target :: after
    /\ (forall m, m ∈ before ++ after -> movie_id m <> movie_id target).
Proof.
  intros Hnd Hin. apply list_elem_of_split in Hin as (before & after & ->).
  exists before, after. split; [reflexivity|].
  rewrite fmap_app, fmap_cons in Hnd.
  apply NoDup_app in Hnd as (_ & Hb & Ha). apply NoDup_cons in Ha as [Ha _].
  intros m Hm Heq. apply elem_of_app in Hm as [Hm|Hm].
  - apply (Hb (movie_id m)); [apply list_elem_of_fmap; eauto|].
    rewrite Heq. left.
  - apply Ha. rewrite <- Heq. apply list_elem_of_fmap. eauto.
Qed.

(** C10. In a table whose ids are distinct, when the search returns
    [target :: others], [modify_movie] touches the row of [target] and no
    other: the table is the old one with [target] replaced in place, and
    the remaining matches [others] are among the untouched rows.  The
    update is reported whenever the lines typed are acceptable, and when
    it is reported the replacement is [target] with the requested fields
    set. *)
Theorem modify_movie_first_match (d : database) (t nt nd ng ny nr : str)
    (target : Movie) (others : list Movie) :
  NoDup (movie_id <$> rows d) ->
  search_movies d (strip t) = target :: others ->
  exists before after target',
    rows d = before ++ target :: after
    /\ rows (fst (modify_movie d t nt nd ng ny nr)) = before ++ target' :: after
    /\ (forall m, m ∈ others -> m ∈ before ++ after)
    /\ (snd (modify_movie d t nt nd ng ny nr) <> MsgModified -> target' = target)
    /\ (snd (modify_movie d t nt nd ng ny nr) = MsgModified ->
        exists oy orr,
          (strip ny = [] /\ oy = None
           \/ exists y, strip ny <> [] /\ py_int (strip ny) = Some y
                        /\ in_i64 y = true /\ oy = Some (SInt y))
          /\ (strip nr = [] /\ orr = None
              \/ exists f, strip nr <> [] /\ py_float (strip nr) = Some f
                           /\ float_le f_1_0 f && float_le f f_10_0 = true
                           /\ orr = Some (SReal f))
          /\ target' = updated target (strip nt) (strip nd) (strip ng) oy orr)
    /\ (accepted target nt nd ng ny nr ->
        snd (modify_movie d t nt nd ng ny nr) = MsgModified).
Proof.
  intros Hnd Hs.
  pose proof (modify_movie_accepted d t nt nd ng ny nr target others Hs) as Hacc.
  assert (Hsub : target :: others `sublist_of` rows d)
    by (rewrite <- Hs; apply search_movies_sublist).
  assert (Hin : target ∈ rows d)
    by (eapply sublist_subseteq; [exact Hsub|left]).
  destruct (split_at_row (rows d) target Hnd Hin) as (before & after & Hrows & Hids).
  assert (Hothers : forall m, m ∈ others -> m ∈ before ++ after).
  { intros m Hm.
    assert (Hnd' : NoDup (target :: others)).
    { eapply sublist_NoDup; [|exact Hsub]. eapply NoDup_fmap_1, Hnd. }
    apply NoDup_cons in Hnd' as [Hnot _].
    assert (Hm' : m ∈ rows d)
      by (eapply sublist_subseteq; [exact Hsub|right; exact Hm]).
    rewrite Hrows in Hm'. apply elem_of_app in Hm' as [Hm'|Hm'].
    - apply elem_of_app. left. exact Hm'.
    - apply elem_of_cons in Hm' as [->|Hm']; [contradiction|].
      apply elem_of_app. right. exact Hm'. }
  destruct (modify_movie_cases d t nt nd ng ny nr)
    as [[Hd Hm]|(movie & rest & oy & orr & Hs' & Hm & Hy & Hr & Hd)].
  - exists before, after, target. rewrite Hd.
    split; [exact Hrows|]. split; [exact Hrows|]. split; [exact Hothers|].
    split; [reflexivity|]. split; [intros H; contradiction|].
    exact Hacc.
  - rewrite Hs in Hs'. injection Hs' as <- <-.
    exists before, after, (updated target (strip nt) (strip nd) (strip ng) oy orr).
    split; [exact Hrows|]. split.
    + rewrite Hd. cbn [rows]. rewrite Hrows, fmap_app, fmap_cons, Z.eqb_refl.
      rewrite !fmap_fixed; [reflexivity| |].
      * intros m Hin'. destruct (Z.eqb_spec (movie_id m) (movie_id target)) as [He|_];
          [|reflexivity].
        exfalso. apply (Hids m); [apply elem_of_app; right; exact Hin'|exact He].
      * intros m Hin'. destruct (Z.eqb_spec (movie_id m) (movie_id target)) as [He|_];
          [|reflexivity].
        exfalso. apply (Hids m); [apply elem_of_app; left; exact Hin'|exact He].
    + split; [exact Hothers|]. split; [intros H; contradiction|].
      split; [|exact Hacc].
      intros _. exists oy, orr. auto.
Qed.

(** ** Delete *)

Lemma filter_no_id (l : list Movie) :
  filter (fun m => movie_id m ∉ @nil Z) l = l.
Proof.
  induction l as [|m l IHl]; [reflexivity|].
  rewrite filter_cons_True, IHl; [reflexivity|]. apply not_elem_of_nil.
Qed.

Lemma fold_delete_id (ids : list Z) (l : list Movie) :
  fold_left delete_id ids l = filter (fun m => movie_id m ∉ ids) l.
Proof.
  revert l. induction ids as [|i ids IH]; intros l.
  - cbn [fold_left]. symmetry. apply filter_no_id.
  - cbn [fold_left]. rewrite IH. unfold delete_id.
    rewrite list_filter_filter. apply list_filter_iff. intros m.
    rewrite not_elem_of_cons. split; intros [H1 H2]; split; assumption.
Qed.

(** C5. Deleting by ids keeps exactly the rows whose id is not among them,
    in their order and unchanged; deleting all leaves no row.  In
    [delete_movies] the ids are those of the search result, and nothing is
    deleted without the confirmation. *)
Theorem delete_movies_exact (d : database) :
  (forall ids,
     executemany_delete d ids
     = {| rows := filter (fun m => movie_id m ∉ ids) (rows d);
          sequence := sequence d |})
  /\ rows (delete_all d) = []
  /\ (forall a c t, lower_is_y a = true -> lower_is_y c = true ->
        delete_movies d a c t = (delete_all d, MsgAllDeleted))
  /\ (forall a c t, lower_is_y a = false -> lower_is_y c = true ->
        rows (fst (delete_movies d a c t))
        = filter (fun m => movie_id m ∉ (movie_id <$> search_movies d (strip t)))
                 (rows d))
  /\ (forall a c t, lower_is_y c = false -> fst (delete_movies d a c t) = d).
Proof.
  split; [|split; [|split; [|split]]].
  - intros ids. unfold executemany_delete. rewrite fold_delete_id. reflexivity.
  - reflexivity.
  - intros a c t Ha Hc. unfold delete_movies. rewrite Ha, Hc. reflexivity.
  - intros a c t Ha Hc. unfold delete_movies. rewrite Ha, Hc.
    destruct (search_movies d (strip t)) as [|m ms] eqn:Hs.
    + cbn [fst fmap list_fmap]. symmetry. apply filter_no_id.
    + cbn [fst]. unfold executemany_delete. cbn [rows].
      apply fold_delete_id.
  - intros a c t Hc. unfold delete_movies. rewrite Hc.
    destruct (lower_is_y a); [reflexivity|].
    destruct (search_movies d (strip t)); reflexivity.
Qed.

(** ** Export *)

Lemma iterencode_sql (level : nat) (v : sqlval) :
  iterencode level (py_of_sql v) = json_of_sql v.
Proof. destruct v; reflexivity. Qed.

Lemma iterencode_row (m : Movie) : iterencode 1 (dict_of_row m) = object_text m.
Proof.
  unfold dict_of_row, object_text, member.
  cbn [iterencode List.map join]. rewrite !iterencode_sql.
  unfold py_encode_basestring, quoted. rewrite <- !app_assoc. reflexivity.
Qed.

Lemma join_cons (sep x y : str) (l : list str) :
  join sep (x :: y :: l) = x ++ sep ++ join sep (y :: l).
Proof. reflexivity. Qed.

Lemma join_rows (m : Movie) (ms : list Movie) :
  join (lit "," ++ newline_indent 1)
       (iterencode 1 (dict_of_row m)
        :: List.map (iterencode 1) (dict_of_row <$> ms))
  = object_text m ++ array_items ms.
Proof.
  revert m. induction ms as [|m' ms IH]; intros m.
  - rewrite fmap_nil. cbn [List.map join array_items].
    rewrite iterencode_row, app_nil_r. reflexivity.
  - rewrite fmap_cons. cbn [List.map]. rewrite join_cons, IH, iterencode_row.
    cbn [array_items]. rewrite <- !app_assoc. reflexivity.
Qed.

Lemma iterencode_rows (m : Movie) (ms : list Movie) :
  iterencode 0 (PyList (dict_of_row <$> m :: ms)) = array_text m ms.
Proof.
  rewrite fmap_cons. cbn [iterencode List.map]. rewrite join_rows.
  unfold array_text. rewrite <- !app_assoc. reflexivity.
Qed.

Example utf8_encode_sample :
  utf8_encode [65%N; 233%N; 20013%N; 128512%N]
  = [65%N; 195%N; 169%N; 228%N; 184%N; 173%N; 240%N; 159%N; 152%N; 128%N].
Proof. reflexivity. Qed.

Lemma escape_char_plain (c : N) :
  (32 <= c)%N -> c <> 34%N -> c <> 92%N -> escape_char c = [c].
Proof.
  intros H32 H34 H92. unfold escape_char.
  repeat match goal with
         | |- context [(c =? ?k)%N] => destruct (N.eqb_spec c k); [lia|]
         end.
  destruct (N.ltb_spec c 32); [lia|reflexivity].
Qed.

Lemma quoted_plain (s : str) :
  Forall (fun c => (32 <= c)%N /\ c <> 34%N /\ c <> 92%N) s ->
  quoted s = [34%N] ++ s ++ [34%N].
Proof.
  intros H. unfold quoted. f_equal. f_equal.
  induction H as [|c s (H32 & H34 & H92) _ IH]; [reflexivity|].
  rewrite fmap_cons. cbn [concat]. rewrite IH, escape_char_plain by assumption.
  reflexivity.
Qed.

(** C8 (amended: for a selection that is not empty; with none, nothing is
    written).  When the records selected for export are [m :: ms],
    [export_movies] replaces the content of [exported.json], whatever it
    was, by the UTF-8 bytes of an indented JSON array with one object per
    record, each with the members id, title, director, genre, year and
    rating in this order; no other file changes.  When no record is
    selected, whatever the table, the answers and the files, it writes
    nothing: every file, [exported.json] included, is as it was, and the
    message is the one for no data.  In the strings only the quote, the
    backslash and control characters are escaped: every other character,
    non-ASCII included, is written as itself. *)
Theorem export_movies_file (d : database) (fs : files) (all_export title : str) :
  (forall m ms,
     (if lower_is_y all_export then search_movies d []
      else search_movies d (strip title)) = m :: ms ->
     export_movies d fs all_export title
     = (<[JSON_OUT_PATH := utf8_encode (array_text m ms)]> fs, MsgExported)
     /\ fst (export_movies d fs all_export title) !! JSON_OUT_PATH
        = Some (utf8_encode (array_text m ms))
     /\ (forall path, path <> JSON_OUT_PATH ->
           fst (export_movies d fs all_export title) !! path = fs !! path))
  /\ ((if lower_is_y all_export then search_movies d []
       else search_movies d (strip title)) = [] ->
      export_movies d fs all_export title = (fs, MsgNoData))
  /\ (forall c, (128 <= c)%N -> escape_char c = [c])
  /\ (forall s, Forall (fun c => (32 <= c)%N /\ c <> 34%N /\ c <> 92%N) s ->
        quoted s = [34%N] ++ s ++ [34%N])
  /\ (forall c, (c < 128)%N -> utf8_char c = [c]).
Proof.
  split.
  { intros m ms Hsel.
    assert (Hex : export_movies d fs all_export title
                  = (<[JSON_OUT_PATH := utf8_encode (array_text m ms)]> fs,
                     MsgExported)).
    { unfold export_movies. rewrite Hsel, iterencode_rows. reflexivity. }
    rewrite Hex. cbn [fst].
    split; [reflexivity|]. split; [apply lookup_insert_eq|].
    intros path Hp; apply lookup_insert_ne; congruence. }
  split; [intros Hsel; unfold export_movies; rewrite Hsel; reflexivity|].
  split; [intros c Hc; apply escape_char_plain; lia|].
  split; [exact quoted_plain|].
  intros c Hc. unfold utf8_char. destruct (N.ltb_spec c 128); [reflexivity|lia].
Qed.

(** ** Import *)

Lemma movie_params_row (m : Movie) :
  movie_params (dict_of_row m)
  = Ok [PyStr (title m); PyStr (director m); PyStr (genre m);
        py_of_sql (year m); py_of_sql (rating m)].
Proof. reflexivity. Qed.

Lemma map_result_rows (l : list Movie) :
  map_result movie_params (dict_of_row <$> l)
  = Ok ((fun m => [PyStr (title m); PyStr (director m); PyStr (genre m);
                   py_of_sql (year m); py_of_sql (rating m)]) <$> l).
Proof.
  induction l as [|m l IH]; [reflexivity|].
  rewrite !fmap_cons. cbn [map_result]. rewrite movie_params_row, IH. reflexivity.
Qed.

Lemma text_ok_encodable (s : str) : text_ok s = true -> encodable s = true.
Proof.
  unfold text_ok, encodable. rewrite !forallb_forall. intros H c Hc.
  specialize (H c Hc). unfold scalar, is_surrogate in *.
  destruct (N.ltb_spec c 55296), (N.ltb_spec 57343 c),
    (N.leb_spec 55296 c), (N.leb_spec c 57343); try reflexivity; try lia;
    discriminate.
Qed.

Lemma stored_year (y : sqlval) :
  year_ok y = true ->
  match y with SText s => text_ok s = true | _ => True end ->
  bind_param (py_of_sql y) = Ok y /\ year_column y = Some y.
Proof.
  unfold year_column. destruct y as [|z|f|s]; cbn [year_ok py_of_sql]; intros H Ht.
  - discriminate.
  - cbn [bind_param integer_affinity]. rewrite H. auto.
  - assert (Hn : f <> S754_nan) by (intros ->; discriminate).
    split; [apply bind_param_float, Hn|]. cbn [integer_affinity].
    assert (Hr : real_to_integer f = SReal f).
    { destruct f as [sg|sg| |sg m e]; try contradiction;
        unfold real_to_integer in *;
        destruct (float_exact_Z _) as [z|]; try reflexivity;
        destruct ((min_i64 <? z) && (z <? max_i64)); try reflexivity;
        discriminate. }
    rewrite Hr. reflexivity.
  - split; [cbn [bind_param]; rewrite (text_ok_encodable s Ht); reflexivity|].
    cbn [integer_affinity].
    destruct (sqlite_numeric s); [discriminate|reflexivity].
Qed.

Lemma stored_rating (r : sqlval) :
  rating_ok r = true -> bind_param (py_of_sql r) = Ok r /\ rating_column r = Some r.
Proof.
  destruct r as [|z|f|s]; cbn [rating_ok py_of_sql]; intros H; try discriminate.
  - split; reflexivity.
  - destruct (rating_column_valid f H) as [Hn Hcol].
    split; [apply bind_param_float, Hn|exact Hcol].
Qed.

Lemma execute_insert_row (d : database) (m : Movie) :
  row_ok m -> texts_ok m ->
  execute_insert d [PyStr (title m); PyStr (director m); PyStr (genre m);
                    py_of_sql (year m); py_of_sql (rating m)]
  = Ok {| rows := rows d ++ [{| movie_id := sequence d + 1; title := title m;
                                director := director m; genre := genre m;
                                year := year m; rating := rating m |}];
          sequence := sequence d + 1 |}.
Proof.
  intros [Hy Hr] (Ht & Hdi & Hg & Hty).
  destruct (stored_year _ Hy Hty) as [Hby Hcy], (stored_rating _ Hr) as [Hbr Hcr].
  unfold execute_insert. cbn [map_result]. rewrite Hby, Hbr.
  cbn [bind_param]. rewrite (text_ok_encodable _ Ht), (text_ok_encodable _ Hdi),
    (text_ok_encodable _ Hg).
  cbn [bind_result insert_row text_column]. rewrite Hcy, Hcr.
  reflexivity.
Qed.

Lemma executemany_insert_rows (l : list Movie) (d : database) :
  Forall row_ok l -> Forall texts_ok l ->
  exists d',
    executemany_insert d
      ((fun m => [PyStr (title m); PyStr (director m); PyStr (genre m);
                  py_of_sql (year m); py_of_sql (rating m)]) <$> l) = Ok d'
    /\ fields <$> rows d' = (fields <$> rows d) ++ (fields <$> l).
Proof.
  intros H Ht. revert d. induction H as [|m l Hm _ IH]; intros d.
  - exists d. rewrite app_nil_r. split; reflexivity.
  - apply Forall_cons_1 in Ht as [Htm Ht]. specialize (IH Ht).
    rewrite fmap_cons. cbn [executemany_insert].
    rewrite (execute_insert_row d m Hm Htm). cbn [bind_result].
    destruct (IH {| rows := rows d ++ [{| movie_id := sequence d + 1;
                                          title := title m; director := director m;
                                          genre := genre m; year := year m;
                                          rating := rating m |}];
                    sequence := sequence d + 1 |}) as (d' & Hd' & Hf).
    exists d'. split; [exact Hd'|].
    rewrite Hf. cbn [rows]. rewrite fmap_app, fmap_cons, <- app_assoc. reflexivity.
Qed.

(** ** Reading the exported file back *)

Lemma lor_128 (x : N) : (x < 64)%N -> N.lor 128 x = (128 + x)%N.
Proof.
  intros H. destruct x as [|p]; [reflexivity|].
  do 6 (destruct p as [p|p|]; try reflexivity); exfalso; lia.
Qed.

Lemma lor_192 (x : N) : (x < 32)%N -> N.lor 192 x = (192 + x)%N.
Proof.
  intros H. destruct x as [|p]; [reflexivity|].
  do 5 (destruct p as [p|p|]; try reflexivity); exfalso; lia.
Qed.

Lemma lor_224 (x : N) : (x < 16)%N -> N.lor 224 x = (224 + x)%N.
Proof.
  intros H. destruct x as [|p]; [reflexivity|].
  do 4 (destruct p as [p|p|]; try reflexivity); exfalso; lia.
Qed.

Lemma lor_240 (x : N) : (x < 8)%N -> N.lor 240 x = (240 + x)%N.
Proof.
  intros H. destruct x as [|p]; [reflexivity|].
  do 3 (destruct p as [p|p|]; try reflexivity); exfalso; lia.
Qed.

Lemma land_63 (x : N) : N.land x 63 = (x mod 64)%N.
Proof. change 63%N with (N.ones 6). rewrite N.land_ones. reflexivity. Qed.

Lemma utf8_decode_char (c : N) (b : list N) :
  scalar c = true ->
  utf8_decode (utf8_char c ++ b) = cons c <$> utf8_decode b.
Proof.
  unfold scalar, utf8_char. intros Hc.
  rewrite !land_63, !N.shiftr_div_pow2.
  change (2 ^ 6)%N with 64%N. change (2 ^ 12)%N with 4096%N.
  change (2 ^ 18)%N with 262144%N.
  assert (Hs : (c < 55296 \/ 57343 < c < 1114112)%N).
  { destruct (N.ltb_spec c 55296); [left; assumption|right].
    cbn [orb] in Hc. apply andb_true_iff in Hc as [H1 H2].
    apply N.ltb_lt in H1, H2. lia. }
  clear Hc.
  destruct (N.ltb_spec c 128) as [H1|H1].
  { cbn [app utf8_decode]. destruct (N.ltb_spec c 128); [reflexivity|lia]. }
  destruct (N.ltb_spec c 2048) as [H2|H2].
  { rewrite lor_192, lor_128 by div_lia. cbn [app utf8_decode].
    unfold is_cont.
    repeat match goal with
           | |- context [(?a <? ?b)%N] => destruct (N.ltb_spec a b); try div_lia
           | |- context [(?a <=? ?b)%N] => destruct (N.leb_spec a b); try div_lia
           end.
    cbn [andb]. f_equal. f_equal. div_lia. }
  destruct (N.ltb_spec c 65536) as [H3|H3].
  { rewrite lor_224, !lor_128 by div_lia. cbn [app utf8_decode].
    unfold is_cont, scalar.
    replace ((224 + c / 4096 - 224) * 4096 + (128 + (c / 64) mod 64 - 128) * 64
             + (128 + c mod 64 - 128))%N with c by div_lia.
    repeat match goal with
           | |- context [(?a <? ?b)%N] => destruct (N.ltb_spec a b); try div_lia
           | |- context [(?a <=? ?b)%N] => destruct (N.leb_spec a b); try div_lia
           end; reflexivity. }
  rewrite lor_240, !lor_128 by div_lia. cbn [app utf8_decode].
  unfold is_cont.
  replace ((240 + c / 262144 - 240) * 262144 + (128 + (c / 4096) mod 64 - 128) * 4096
           + (128 + (c / 64) mod 64 - 128) * 64 + (128 + c mod 64 - 128))%N
    with c by div_lia.
  repeat match goal with
         | |- context [(?a <? ?b)%N] => destruct (N.ltb_spec a b); try div_lia
         | |- context [(?a <=? ?b)%N] => destruct (N.leb_spec a b); try div_lia
         end; reflexivity.
Qed.

Lemma utf8_decode_encode (s : str) :
  text_ok s = true -> utf8_decode (utf8_encode s) = Some s.
Proof.
  unfold text_ok, utf8_encode. induction s as [|c s IH]; intros H.
  - reflexivity.
  - cbn [forallb] in H. apply andb_true_iff in H as [Hc Hs].
    rewrite fmap_cons. cbn [concat]. rewrite utf8_decode_char by exact Hc.
    rewrite IH by exact Hs. reflexivity.
Qed.

Lemma universal_newlines_id (s : str) :
  forallb file_char s = true -> universal_newlines s = s.
Proof.
  induction s as [|c s IH]; intros H; [reflexivity|].
  cbn [forallb] in H. apply andb_true_iff in H as [Hc Hs].
  unfold file_char in Hc. apply andb_true_iff in Hc as [_ Hc].
  cbn [universal_newlines]. destruct (c =? 13)%N; [discriminate|].
  rewrite IH by exact Hs. reflexivity.
Qed.

(** *** Strings *)

Lemma scanstring_control (c : N) (rest x r : str) :
  (c < 32)%N -> scanstring rest = Some (x, r) ->
  scanstring ([92; 117; 48; 48; hex_digit (c / 16); hex_digit (c mod 16)]%N ++ rest)
  = Some (c :: x, r).
Proof.
  intros Hc Hrest.
  assert (Hh : hex4 48 48 (hex_digit (c / 16)) (hex_digit (c mod 16)) = Some c).
  { destruct c as [|p]; [reflexivity|].
    do 5 (destruct p as [p|p|]; try reflexivity); exfalso; lia. }
  assert (Hs : is_high_surrogate c = false).
  { unfold is_high_surrogate. destruct (N.leb_spec 55296 c); [lia|reflexivity]. }
  cbn [app scanstring N.eqb Pos.eqb]. rewrite Hh, Hs, Hrest. cbn [andb].
  destruct rest as [|? [|? [|? [|? [|? [|? ?]]]]]]; reflexivity.
Qed.

Lemma scanstring_escape (c : N) (rest x r : str) :
  scanstring rest = Some (x, r) ->
  scanstring (escape_char c ++ rest) = Some (c :: x, r).
Proof.
  intros Hrest. unfold escape_char.
  repeat match goal with
         | |- context [(c =? ?k)%N] =>
             destruct (N.eqb_spec c k) as [->|?];
             [cbn [app scanstring N.eqb Pos.eqb unescape]; rewrite Hrest; reflexivity|]
         end.
  destruct (N.ltb_spec c 32) as [H32|H32].
  - apply scanstring_control; assumption.
  - cbn [app scanstring].
    destruct (N.eqb_spec c 34); [contradiction|].
    destruct (N.eqb_spec c 92); [contradiction|].
    destruct (N.ltb_spec c 32); [lia|]. rewrite Hrest. reflexivity.
Qed.

Lemma scanstring_quoted (s rest : str) :
  scanstring (concat (escape_char <$> s) ++ 34%N :: rest) = Some (s, rest).
Proof.
  induction s as [|c s IH]; [reflexivity|].
  rewrite fmap_cons. cbn [concat]. rewrite <- app_assoc.
  apply scanstring_escape, IH.
Qed.

(** *** Numbers *)

Lemma span_digits_ext (s ds r : str) (c : N) (rest : str) :
  span_digits s = (ds, r) -> is_digit c = false ->
  span_digits (s ++ c :: rest) = (ds, r ++ c :: rest).
Proof.
  intros H Hc. revert ds r H. induction s as [|a s IH]; intros ds r H.
  - cbn in H. injection H as <- <-. cbn [app span_digits]. rewrite Hc. reflexivity.
  - cbn [app span_digits] in *. destruct (is_digit a).
    + destruct (span_digits s) as [ds' r'] eqn:E. injection H as <- <-.
      rewrite (IH ds' r' eq_refl). reflexivity.
    + injection H as <- <-. reflexivity.
Qed.

Lemma span_digits_all (ds : str) :
  forallb is_digit ds = true -> span_digits ds = (ds, []).
Proof.
  induction ds as [|c ds IH]; intros H; [reflexivity|].
  cbn [forallb] in H. apply andb_true_iff in H as [Hc Hds].
  cbn [span_digits]. rewrite Hc, IH by exact Hds. reflexivity.
Qed.

Lemma span_digits_digits (s ds r : str) :
  span_digits s = (ds, r) -> forallb is_digit ds = true /\ s = ds ++ r.
Proof.
  revert ds r. induction s as [|a s IH]; intros ds r H.
  - cbn in H. injection H as <- <-. split; reflexivity.
  - cbn [span_digits] in H. destruct (is_digit a) eqn:Ha.
    + destruct (span_digits s) as [ds' r'] eqn:E. injection H as <- <-.
      destruct (IH ds' r' eq_refl) as [H1 H2]. cbn [forallb]. rewrite Ha, H1.
      split; [reflexivity|]. cbn [app]. rewrite <- H2. reflexivity.
    + injection H as <- <-. split; reflexivity.
Qed.

Lemma delimiter_not_digit (c : N) : delimiter c -> is_digit c = false.
Proof. intros [->| ->]; reflexivity. Qed.

Lemma take_sign_ext (s x r : str) (c : N) (rest : str) :
  take_sign s = (x, r) -> delimiter c ->
  take_sign (s ++ c :: rest) = (x, r ++ c :: rest).
Proof.
  intros H Hc. destruct s as [|a s].
  - cbn in H. injection H as <- <-. destruct Hc as [->| ->]; reflexivity.
  - cbn [app take_sign] in *. destruct (a =? 45)%N; injection H as <- <-; reflexivity.
Qed.

Lemma take_int_ext (s x r : str) (c : N) (rest : str) :
  take_int s = Some (x, r) -> delimiter c ->
  take_int (s ++ c :: rest) = Some (x, r ++ c :: rest).
Proof.
  intros H Hc. destruct s as [|a s]; [discriminate|].
  cbn [app take_int] in *. destruct (a =? 48)%N.
  - injection H as <- <-. reflexivity.
  - destruct (is_digit a); [|discriminate].
    destruct (span_digits s) as [ds r'] eqn:E. injection H as <- <-.
    rewrite (span_digits_ext s ds r' c rest E (delimiter_not_digit c Hc)).
    reflexivity.
Qed.

Lemma take_frac_ext (s x r : str) (c : N) (rest : str) :
  take_frac s = (x, r) -> delimiter c ->
  take_frac (s ++ c :: rest) = (x, r ++ c :: rest).
Proof.
  intros H Hc. pose proof (delimiter_not_digit c Hc) as Hd.
  destruct s as [|p [|a s]].
  - cbn in H. injection H as <- <-. destruct Hc as [->| ->]; destruct rest; reflexivity.
  - cbn in H. injection H as <- <-. cbn [app take_frac]. rewrite Hd, andb_false_r.
    reflexivity.
  - cbn [app take_frac] in *. destruct ((p =? 46)%N && is_digit a).
    + destruct (span_digits s) as [ds r'] eqn:E. injection H as <- <-.
      rewrite (span_digits_ext s ds r' c rest E Hd). reflexivity.
    + injection H as <- <-. reflexivity.
Qed.

Lemma take_exp_ext (s x r : str) (c : N) (rest : str) :
  take_exp s = (x, r) -> delimiter c ->
  take_exp (s ++ c :: rest) = (x, r ++ c :: rest).
Proof.
  intros H Hc. pose proof (delimiter_not_digit c Hc) as Hd.
  destruct s as [|e s].
  - cbn in H. injection H as <- <-. destruct Hc as [->| ->]; reflexivity.
  - cbn [app take_exp] in *. destruct ((e =? 101) || (e =? 69))%N.
    + destruct s as [|a s].
      * cbn in H. injection H as <- <-. cbn [app span_digits].
        destruct Hc as [->| ->]; reflexivity.
      * cbn [app] in *. destruct ((a =? 43) || (a =? 45))%N.
        -- destruct (span_digits s) as [ds r'] eqn:E.
           rewrite (span_digits_ext s ds r' c rest E Hd).
           destruct ds; injection H as <- <-; reflexivity.
        -- destruct (span_digits (a :: s)) as [ds r'] eqn:E.
           change (a :: s ++ c :: rest) with ((a :: s) ++ c :: rest).
           rewrite (span_digits_ext (a :: s) ds r' c rest E Hd).
           destruct ds; injection H as <- <-; reflexivity.
    + injection H as <- <-. reflexivity.
Qed.

Lemma match_number_ext (s t r : str) (b : bool) (c : N) (rest : str) :
  match_number s = Some (t, b, r) -> delimiter c ->
  match_number (s ++ c :: rest) = Some (t, b, r ++ c :: rest).
Proof.
  unfold match_number. intros H Hc.
  destruct (take_sign s) as [sg s0] eqn:E0.
  rewrite (take_sign_ext s sg s0 c rest E0 Hc).
  destruct (take_int s0) as [[ip s1]|] eqn:E1; [|discriminate].
  rewrite (take_int_ext s0 ip s1 c rest E1 Hc).
  destruct (take_frac s1) as [fr s2] eqn:E2.
  rewrite (take_frac_ext s1 fr s2 c rest E2 Hc).
  destruct (take_exp s2) as [ex s3] eqn:E3.
  rewrite (take_exp_ext s2 ex s3 c rest E3 Hc).
  injection H as <- <- <-. reflexivity.
Qed.

Lemma lit_String (a : ascii) (s : string) : lit (String a s) = N_of_ascii a :: lit s.
Proof. reflexivity. Qed.

Lemma pretty_N_char_code (d : N) :
  (d < 10)%N -> N_of_ascii (pretty_N_char d) = (48 + d)%N.
Proof.
  intros H. destruct d as [|p]; [reflexivity|].
  do 4 (destruct p as [p|p|]; try reflexivity); exfalso; lia.
Qed.

Lemma int_of_digits_snoc (ds : str) (c : N) :
  int_of_digits (ds ++ [c]) = 10 * int_of_digits ds + (Z.of_N c - 48).
Proof. unfold int_of_digits. rewrite fold_left_app. reflexivity. Qed.

Lemma forallb_snoc {A} (f : A -> bool) (l : list A) (a : A) :
  forallb f (l ++ [a]) = forallb f l && f a.
Proof. rewrite forallb_app. cbn [forallb]. rewrite andb_true_r. reflexivity. Qed.

(** The digits [pretty] writes for a positive number: no leading zero,
    and they read back as the number. *)
Lemma pretty_N_go_digits (x : N) (s : string) :
  (0 < x)%N ->
  exists c ds,
    lit (pretty_N_go x s) = c :: ds ++ lit s
    /\ is_digit c = true /\ c <> 48%N /\ forallb is_digit ds = true
    /\ int_of_digits (c :: ds) = Z.of_N x.
Proof.
  revert s. induction (N.lt_wf_0 x) as [x _ IH]. intros s Hx.
  rewrite pretty_N_go_step by exact Hx.
  assert (Hd : (x mod 10 < 10)%N) by (apply N.mod_lt; lia).
  pose proof (pretty_N_char_code (x mod 10) Hd) as Hc.
  assert (Hdiv : (x = 10 * (x / 10) + x mod 10)%N) by (apply N.div_mod; lia).
  destruct (N.eq_dec (x / 10)%N 0%N) as [E|E].
  - rewrite E, pretty_N_go_0, lit_String, Hc.
    exists (48 + x mod 10)%N, []. split; [reflexivity|].
    unfold is_digit.
    destruct (N.leb_spec 48 (48 + x mod 10)); [|div_lia].
    destruct (N.leb_spec (48 + x mod 10) 57); [|div_lia].
    repeat split; try reflexivity; [div_lia|].
    unfold int_of_digits. cbn [fold_left]. div_lia.
  - destruct (IH (x / 10)%N) with (s := String (pretty_N_char (x mod 10)) s)
      as (c & ds & H1 & H2 & H3 & H4 & H5); [div_lia|div_lia|].
    exists c, (ds ++ [(48 + x mod 10)%N]).
    rewrite H1, lit_String, Hc, <- app_assoc. split; [reflexivity|].
    split; [exact H2|]. split; [exact H3|]. split.
    + rewrite forallb_snoc, H4. unfold is_digit.
      destruct (N.leb_spec 48 (48 + x mod 10)); [|div_lia].
      destruct (N.leb_spec (48 + x mod 10) 57); [reflexivity|div_lia].
    + change (c :: ds ++ [(48 + x mod 10)%N]) with ((c :: ds) ++ [(48 + x mod 10)%N]).
      rewrite int_of_digits_snoc, H5. div_lia.
Qed.

Lemma match_number_digits (c : N) (ds : str) :
  is_digit c = true -> c <> 48%N -> forallb is_digit ds = true ->
  match_number (c :: ds) = Some (c :: ds, false, [])
  /\ match_number (45%N :: c :: ds) = Some (45%N :: c :: ds, false, []).
Proof.
  intros Hc H0 Hds. unfold match_number.
  assert (H45 : (c =? 45)%N = false).
  { unfold is_digit in Hc. apply andb_true_iff in Hc as [H1 H2].
    apply N.leb_le in H1, H2. apply N.eqb_neq. lia. }
  assert (H48 : (c =? 48)%N = false) by (apply N.eqb_neq; exact H0).
  assert (Hint : take_int (c :: ds) = Some (c :: ds, [])).
  { cbn [take_int]. rewrite H48, Hc, (span_digits_all ds Hds). reflexivity. }
  split.
  - cbn [take_sign]. rewrite H45, Hint. cbn [take_frac take_exp app].
    rewrite app_nil_r. reflexivity.
  - cbn [take_sign N.eqb Pos.eqb]. rewrite Hint. cbn [take_frac take_exp app].
    rewrite app_nil_r. reflexivity.
Qed.

Lemma digits_signed (ds : str) :
  forallb is_digit ds = true ->
  forallb (fun c => is_digit c || (c =? 45)%N) ds = true.
Proof.
  induction ds as [|a ds IH]; intros H; [reflexivity|].
  cbn [forallb] in *. apply andb_true_iff in H as [Ha Hds].
  rewrite Ha, IH by exact Hds. reflexivity.
Qed.

(** The decimal text of an integer is a JSON integer, and reads back. *)
Lemma decimal_number (z : Z) :
  match_number (decimal z) = Some (decimal z, false, [])
  /\ parse_int (decimal z) = z
  /\ forallb (fun c => is_digit c || (c =? 45)%N) (decimal z) = true.
Proof.
  unfold decimal. destruct z as [|p|p].
  - repeat split.
  - change (pretty (Z.pos p)) with (pretty_N_go (N.pos p) EmptyString).
    destruct (pretty_N_go_digits (N.pos p) EmptyString) as (c & ds & H1 & H2 & H3 & H4 & H5);
      [lia|].
    change (lit EmptyString) with (@nil N) in H1. rewrite app_nil_r in H1.
    rewrite H1. destruct (match_number_digits c ds H2 H3 H4) as [M _].
    split; [exact M|]. split.
    + unfold parse_int.
      assert (H45 : (c =? 45)%N = false).
      { unfold is_digit in H2. apply andb_true_iff in H2 as [Ha Hb].
        apply N.leb_le in Ha, Hb. apply N.eqb_neq. lia. }
      rewrite H45, H5. reflexivity.
    + cbn [forallb]. rewrite H2, (digits_signed ds H4). reflexivity.
  - change (pretty (Z.neg p)) with ("-" +:+ pretty_N_go (N.pos p) EmptyString).
    change (lit ("-" +:+ pretty_N_go (N.pos p) EmptyString))
      with (45%N :: lit (pretty_N_go (N.pos p) EmptyString)).
    destruct (pretty_N_go_digits (N.pos p) EmptyString) as (c & ds & H1 & H2 & H3 & H4 & H5);
      [lia|].
    change (lit EmptyString) with (@nil N) in H1. rewrite app_nil_r in H1.
    rewrite H1. destruct (match_number_digits c ds H2 H3 H4) as [_ M].
    split; [exact M|]. split.
    + unfold parse_int. cbn [N.eqb Pos.eqb]. rewrite H5. reflexivity.
    + cbn [forallb]. rewrite H2, (digits_signed ds H4). reflexivity.
Qed.

Lemma match_number_first (s t r : str) (b : bool) :
  match_number s = Some (t, b, r) ->
  exists c s', s = c :: s' /\ (c = 45%N \/ is_digit c = true).
Proof.
  unfold match_number. intros H. destruct s as [|c s']; [discriminate|].
  exists c, s'. split; [reflexivity|].
  cbn [take_sign] in H. destruct (N.eqb_spec c 45) as [E|E]; [left; exact E|right].
  cbn [take_int] in H. destruct (N.eqb_spec c 48) as [->|E']; [reflexivity|].
  destruct (is_digit c); [reflexivity|discriminate].
Qed.

Lemma number_start (c : N) :
  c = 45%N \/ is_digit c = true ->
  (c =? 34)%N = false /\ (c =? 123)%N = false /\ (c =? 91)%N = false
  /\ (110 =? c)%N = false /\ (116 =? c)%N = false /\ (102 =? c)%N = false
  /\ is_ws c = false.
Proof.
  intros [->|H]; [repeat split|].
  unfold is_digit in H. apply andb_true_iff in H as [H1 H2].
  apply N.leb_le in H1, H2. unfold is_ws.
  repeat match goal with
         | |- context [(?a =? ?b)%N] => destruct (N.eqb_spec a b); [lia|]
         end.
  repeat split.
Qed.

(** A text that begins with a number is read by the number branch of the
    scanner. *)
Lemma scan_once_number (k : nat) (s t r : str) (b : bool) :
  match_number s = Some (t, b, r) ->
  scan_once (S k) s
  = if b then f ← py_float t; Some (PyFloat f, r)
    else Some (PyInt (parse_int t), r).
Proof.
  intros H. destruct (match_number_first s t r b H) as (c & s' & -> & Hc).
  destruct (number_start c Hc) as (H1 & H2 & H3 & H4 & H5 & H6 & _).
  cbn [scan_once]. rewrite H1, H2, H3.
  change (lit "null") with [110; 117; 108; 108]%N.
  change (lit "true") with [116; 114; 117; 101]%N.
  change (lit "false") with [102; 97; 108; 115; 101]%N.
  cbn [starts_with]. rewrite H4, H5, H6. cbn [andb]. rewrite H. reflexivity.
Qed.

Lemma skip_ws_spaces (n : nat) (s : str) :
  skip_ws (repeat 32%N n ++ s) = skip_ws s.
Proof. induction n as [|n IH]; [reflexivity|exact IH]. Qed.

Lemma skip_ws_indent (n : nat) (s : str) :
  skip_ws (10%N :: repeat 32%N n ++ s) = skip_ws s.
Proof. cbn [skip_ws is_ws N.eqb Pos.eqb orb]. apply skip_ws_spaces. Qed.

(** The text of a stored value begins with a character that is not white
    space. *)
Lemma json_of_sql_first (v : sqlval) (rest : str) :
  sql_float_ok v -> skip_ws (json_of_sql v ++ rest) = json_of_sql v ++ rest.
Proof.
  intros Hv. destruct v as [|z|f|s]; cbn [json_of_sql].
  - reflexivity.
  - destruct (decimal_number z) as (M & _ & _).
    destruct (match_number_first _ _ _ _ M) as (c & s' & E & Hc). rewrite E.
    destruct (number_start c Hc) as (_ & _ & _ & _ & _ & _ & W).
    cbn [app skip_ws]. rewrite W. reflexivity.
  - destruct f as [sg|sg| |sg m e]; cbn [floatstr].
    + destruct Hv as [M _].
      destruct (match_number_first _ _ _ _ M) as (c & s' & E & Hc). rewrite E.
      destruct (number_start c Hc) as (_ & _ & _ & _ & _ & _ & W).
      cbn [app skip_ws]. rewrite W. reflexivity.
    + destruct sg; reflexivity.
    + reflexivity.
    + destruct Hv as [M _].
      destruct (match_number_first _ _ _ _ M) as (c & s' & E & Hc). rewrite E.
      destruct (number_start c Hc) as (_ & _ & _ & _ & _ & _ & W).
      cbn [app skip_ws]. rewrite W. reflexivity.
  - reflexivity.
Qed.

(** The scanner reads the text of a stored value as the value the export
    dumped. *)
Lemma scan_once_value (k : nat) (v : sqlval) (c : N) (rest : str) :
  sql_float_ok v -> delimiter c ->
  scan_once (S k) (json_of_sql v ++ c :: rest) = Some (py_of_sql v, c :: rest).
Proof.
  intros Hv Hc. destruct v as [|z|f|s]; cbn [json_of_sql py_of_sql].
  - reflexivity.
  - destruct (decimal_number z) as (M & P & _).
    rewrite (scan_once_number k _ _ _ _ (match_number_ext _ _ _ _ c rest M Hc)).
    rewrite P. reflexivity.
  - destruct f as [sg|sg| |sg m e]; cbn [floatstr].
    + destruct Hv as [M F].
      rewrite (scan_once_number k _ _ _ _ (match_number_ext _ _ _ _ c rest M Hc)).
      rewrite F. reflexivity.
    + destruct sg; reflexivity.
    + reflexivity.
    + destruct Hv as [M F].
      rewrite (scan_once_number k _ _ _ _ (match_number_ext _ _ _ _ c rest M Hc)).
      rewrite F. reflexivity.
  - unfold quoted. cbn [app scan_once N.eqb Pos.eqb]. rewrite <- app_assoc.
    cbn [app]. rewrite scanstring_quoted. reflexivity.
Qed.

(** *** Objects and arrays *)

Lemma scan_once_brace (k : nat) (s : str) :
  scan_once (S k) (123%N :: s) = parse_object (scan_once k) k s.
Proof. reflexivity. Qed.

Lemma scan_once_bracket (k : nat) (s : str) :
  scan_once (S k) (91%N :: s) = parse_array (scan_once k) k s.
Proof. reflexivity. Qed.

(** A member of the exported object that is followed by another one. *)
Lemma parse_members_more (scan : str -> option (pyval * str)) (n : nat)
    (key : string) (v : sqlval) (rest : str) :
  (forall v c rest, sql_float_ok v -> delimiter c ->
     scan (json_of_sql v ++ c :: rest) = Some (py_of_sql v, c :: rest)) ->
  sql_float_ok v ->
  concat (escape_char <$> lit key) = lit key ->
  parse_members scan (S n)
    (member key (json_of_sql v) ++ 44%N :: 10%N :: repeat 32%N 8 ++ rest)
  = '(kvs, r) ← parse_members scan n (skip_ws rest);
    Some ((lit key, py_of_sql v) :: kvs, r).
Proof.
  intros Hscan Hv Hkey. unfold member. rewrite <- !app_assoc.
  change (lit ": ") with [58; 32]%N.
  cbn [app parse_members N.eqb Pos.eqb].
  rewrite <- Hkey at 1. rewrite scanstring_quoted.
  cbn [mbind option_bind skip_ws is_ws N.eqb Pos.eqb orb].
  rewrite json_of_sql_first by exact Hv.
  rewrite Hscan by (exact Hv || (left; reflexivity)).
  cbn [mbind option_bind skip_ws is_ws N.eqb Pos.eqb orb].
  rewrite skip_ws_spaces. reflexivity.
Qed.

(** The last member of the exported object. *)
Lemma parse_members_last (scan : str -> option (pyval * str)) (n : nat)
    (key : string) (v : sqlval) (rest : str) :
  (forall v c rest, sql_float_ok v -> delimiter c ->
     scan (json_of_sql v ++ c :: rest) = Some (py_of_sql v, c :: rest)) ->
  sql_float_ok v ->
  concat (escape_char <$> lit key) = lit key ->
  parse_members scan (S n)
    (member key (json_of_sql v) ++ 10%N :: repeat 32%N 4 ++ 125%N :: rest)
  = Some ([(lit key, py_of_sql v)], rest).
Proof.
  intros Hscan Hv Hkey. unfold member. rewrite <- !app_assoc.
  change (lit ": ") with [58; 32]%N.
  cbn [app parse_members N.eqb Pos.eqb].
  rewrite <- Hkey at 1. rewrite scanstring_quoted.
  cbn [mbind option_bind skip_ws is_ws N.eqb Pos.eqb orb].
  rewrite json_of_sql_first by exact Hv.
  rewrite Hscan by (exact Hv || (right; reflexivity)).
  cbn [mbind option_bind skip_ws is_ws N.eqb Pos.eqb orb].
  rewrite skip_ws_spaces. reflexivity.
Qed.

(** The object the export writes for a row is read as the dict that was
    dumped. *)
Lemma parse_object_row (scan : str -> option (pyval * str)) (n : nat)
    (m : Movie) (rest : str) :
  (forall v c rest, sql_float_ok v -> delimiter c ->
     scan (json_of_sql v ++ c :: rest) = Some (py_of_sql v, c :: rest)) ->
  floats_ok m ->
  parse_object scan (6 + n) (tail (object_text m ++ rest))
  = Some (dict_of_row m, rest).
Proof.
  intros Hscan [Hy Hr]. unfold object_text. rewrite <- !app_assoc.
  change (lit "{") with [123%N]. change (lit ",") with [44%N].
  change (lit "}") with [125%N]. cbn [app tail].
  change (decimal (movie_id m)) with (json_of_sql (SInt (movie_id m))).
  change (quoted (title m)) with (json_of_sql (SText (title m))).
  change (quoted (director m)) with (json_of_sql (SText (director m))).
  change (quoted (genre m)) with (json_of_sql (SText (genre m))).
  unfold parse_object. rewrite skip_ws_indent.
  assert (Hq : forall key v s, skip_ws (member key v ++ s) = member key v ++ s)
    by reflexivity.
  rewrite !Hq.
  change (member "id" (json_of_sql (SInt (movie_id m))) ++ ?s)
    with (34%N :: (lit "id" ++ [34%N] ++ lit ": " ++ json_of_sql (SInt (movie_id m))) ++ s) at 1.
  cbn [N.eqb Pos.eqb Nat.add].
  rewrite (parse_members_more scan) by (exact Hscan || exact I || reflexivity).
  rewrite Hq.
  rewrite (parse_members_more scan) by (exact Hscan || exact I || reflexivity).
  rewrite Hq.
  rewrite (parse_members_more scan) by (exact Hscan || exact I || reflexivity).
  rewrite Hq.
  rewrite (parse_members_more scan) by (exact Hscan || exact I || reflexivity).
  rewrite Hq.
  rewrite (parse_members_more scan) by (exact Hscan || exact Hy || reflexivity).
  rewrite Hq.
  rewrite (parse_members_last scan) by (exact Hscan || exact Hr || reflexivity).
  reflexivity.
Qed.

Lemma scan_once_row (k : nat) (m : Movie) (rest : str) :
  floats_ok m ->
  scan_once (8 + k) (object_text m ++ rest) = Some (dict_of_row m, rest).
Proof.
  intros Hm.
  change (object_text m ++ rest) with (123%N :: tail (object_text m ++ rest)).
  change (8 + k)%nat with (S (6 + S k)). rewrite scan_once_brace.
  apply parse_object_row; [|exact Hm].
  intros v c r Hv Hc. change (6 + S k)%nat with (S (6 + k)).
  apply scan_once_value; assumption.
Qed.

Lemma parse_elements_rows (scan : str -> option (pyval * str))
    (ms : list Movie) (m : Movie) (n : nat) (rest : str) :
  (forall m rest, floats_ok m ->
     scan (object_text m ++ rest) = Some (dict_of_row m, rest)) ->
  Forall floats_ok (m :: ms) -> (length ms < n)%nat ->
  parse_elements scan n (object_text m ++ array_items ms ++ 10%N :: 93%N :: rest)
  = Some (dict_of_row <$> m :: ms, rest).
Proof.
  intros Hscan. revert m n. induction ms as [|m' ms IH]; intros m n Hok Hn.
  - destruct n as [|n]; [lia|]. apply Forall_cons in Hok as [Hm _].
    cbn [parse_elements array_items app]. rewrite Hscan by exact Hm.
    reflexivity.
  - destruct n as [|n]; [cbn [length] in Hn; lia|].
    apply Forall_cons in Hok as [Hm Hok].
    cbn [parse_elements array_items]. rewrite <- !app_assoc.
    rewrite Hscan by exact Hm. change (lit ",") with [44%N].
    cbn [app mbind option_bind skip_ws is_ws N.eqb Pos.eqb orb].
    rewrite skip_ws_spaces.
    change (skip_ws (object_text m' ++ ?s)) with (object_text m' ++ s).
    rewrite IH by (exact Hok || (cbn [length] in Hn; lia)).
    reflexivity.
Qed.

Lemma parse_array_rows (scan : str -> option (pyval * str)) (n : nat)
    (s t : str) :
  skip_ws s = 123%N :: t ->
  parse_array scan n s
  = '(vs, r) ← parse_elements scan n (123%N :: t); Some (PyList vs, r).
Proof. unfold parse_array. intros ->. reflexivity. Qed.

Lemma array_items_length (ms : list Movie) :
  (length ms <= length (array_items ms))%nat.
Proof.
  induction ms as [|m ms IH]; [reflexivity|].
  cbn [array_items]. rewrite !length_app. cbn [length]. lia.
Qed.

Lemma array_text_length (m : Movie) (ms : list Movie) :
  (9 + length ms <= length (array_text m ms))%nat.
Proof.
  unfold array_text, object_text. rewrite !length_app.
  pose proof (array_items_length ms). cbn [length lit fmap list_fmap
    list_ascii_of_string repeat]. lia.
Qed.

(** The scanner reads the exported array as the list that was dumped. *)
Lemma scan_once_rows (k : nat) (m : Movie) (ms : list Movie) :
  Forall floats_ok (m :: ms) -> (9 + length ms <= k)%nat ->
  scan_once (S k) (array_text m ms) = Some (PyList (dict_of_row <$> m :: ms), []).
Proof.
  intros Hok Hk.
  destruct (Nat.le_exists_sub 8 k) as (p & -> & _); [lia|].
  replace (p + 8)%nat with (8 + p)%nat by lia.
  change (array_text m ms) with (91%N :: tail (array_text m ms)).
  rewrite scan_once_bracket.
  rewrite (parse_array_rows _ _ _
             (tail (object_text m ++ array_items ms ++ 10%N :: 93%N :: [])));
    [|reflexivity].
  change (123%N :: tail (object_text m ++ ?s)) with (object_text m ++ s).
  rewrite parse_elements_rows; [reflexivity| |exact Hok|lia].
  intros m0 rest Hm0. apply scan_once_row. exact Hm0.
Qed.

Lemma json_loads_rows (m : Movie) (ms : list Movie) :
  Forall floats_ok (m :: ms) ->
  json_loads (array_text m ms) = Ok (PyList (dict_of_row <$> m :: ms)).
Proof.
  intros Hok. pose proof (array_text_length m ms) as Hlen.
  pose proof (scan_once_rows (length (array_text m ms)) m ms Hok Hlen) as H.
  unfold json_loads.
  change (skip_ws (array_text m ms)) with (array_text m ms).
  rewrite H. reflexivity.
Qed.

(** *** The characters of the exported text *)

Lemma is_digit_file_char (c : N) : is_digit c = true -> file_char c = true.
Proof.
  unfold is_digit, file_char, scalar. intros H.
  apply andb_true_iff in H as [H1 H2]. apply N.leb_le in H1, H2.
  destruct (N.ltb_spec c 55296); [|lia].
  destruct (N.eqb_spec c 13); [lia|reflexivity].
Qed.

Lemma digits_file_char (ds : str) :
  forallb is_digit ds = true -> forallb file_char ds = true.
Proof.
  induction ds as [|c ds IH]; intros H; [reflexivity|].
  cbn [forallb] in *. apply andb_true_iff in H as [Hc Hds].
  rewrite (is_digit_file_char c Hc), IH by exact Hds. reflexivity.
Qed.

Lemma match_number_file_char (s t r : str) (b : bool) :
  match_number s = Some (t, b, r) -> forallb file_char t = true.
Proof.
  unfold match_number. intros H.
  destruct (take_sign s) as [sg s0] eqn:E0.
  destruct (take_int s0) as [[ip s1]|] eqn:E1; [|discriminate].
  destruct (take_frac s1) as [fr s2] eqn:E2.
  destruct (take_exp s2) as [ex s3] eqn:E3.
  injection H as <- _ _. rewrite !forallb_app.
  assert (H0 : forallb file_char sg = true).
  { destruct s as [|c s]; [injection E0 as <- _; reflexivity|].
    cbn [take_sign] in E0. destruct (N.eqb_spec c 45) as [->|_];
      injection E0 as <- _; reflexivity. }
  assert (H1 : forallb file_char ip = true).
  { destruct s0 as [|c s0]; [discriminate|]. cbn [take_int] in E1.
    destruct (N.eqb_spec c 48) as [->|_]; [injection E1 as <- _; reflexivity|].
    destruct (is_digit c) eqn:Hc; [|discriminate].
    destruct (span_digits s0) as [ds r'] eqn:E. injection E1 as <- _.
    destruct (span_digits_digits _ _ _ E) as [Hds _].
    cbn [forallb]. rewrite (is_digit_file_char c Hc), (digits_file_char ds Hds).
    reflexivity. }
  assert (H2 : forallb file_char fr = true).
  { destruct s1 as [|p [|c s1]]; try (injection E2 as <- _; reflexivity).
    cbn [take_frac] in E2. destruct (N.eqb_spec p 46) as [->|_];
      [|injection E2 as <- _; reflexivity].
    destruct (is_digit c) eqn:Hc; cbn [andb] in E2;
      [|injection E2 as <- _; reflexivity].
    destruct (span_digits s1) as [ds r'] eqn:E. injection E2 as <- _.
    destruct (span_digits_digits _ _ _ E) as [Hds _].
    cbn [forallb]. rewrite (is_digit_file_char c Hc), (digits_file_char ds Hds).
    reflexivity. }
  assert (H3 : forallb file_char ex = true).
  { destruct s2 as [|e s2]; [injection E3 as <- _; reflexivity|].
    cbn [take_exp] in E3.
    assert (He : ((e =? 101) || (e =? 69))%N = true -> file_char e = true).
    { destruct (N.eqb_spec e 101) as [->|_]; [reflexivity|].
      destruct (N.eqb_spec e 69) as [->|_]; [reflexivity|discriminate]. }
    destruct ((e =? 101) || (e =? 69))%N; [|injection E3 as <- _; reflexivity].
    specialize (He eq_refl).
    destruct s2 as [|a s2].
    { cbn in E3. injection E3 as <- _. reflexivity. }
    destruct ((a =? 43) || (a =? 45))%N eqn:Ea.
    - assert (Ha : file_char a = true).
      { destruct (N.eqb_spec a 43) as [->|_]; [reflexivity|].
        destruct (N.eqb_spec a 45) as [->|_]; [reflexivity|discriminate]. }
      destruct (span_digits s2) as [[|d ds] r'] eqn:E; injection E3 as <- _;
        [reflexivity|].
      destruct (span_digits_digits _ _ _ E) as [Hds _].
      cbn [forallb app]. rewrite He, Ha. exact (digits_file_char _ Hds).
    - destruct (span_digits (a :: s2)) as [[|d ds] r'] eqn:E; injection E3 as <- _;
        [reflexivity|].
      destruct (span_digits_digits _ _ _ E) as [Hds _].
      cbn [forallb app]. rewrite He. exact (digits_file_char _ Hds). }
  rewrite H0, H1, H2, H3. reflexivity.
Qed.

Lemma escape_char_file_char (c : N) :
  scalar c = true -> forallb file_char (escape_char c) = true.
Proof.
  intros Hc. unfold escape_char.
  repeat match goal with
         | |- context [(c =? ?k)%N] => destruct (N.eqb_spec c k) as [->|?]; [reflexivity|]
         end.
  destruct (N.ltb_spec c 32) as [H32|H32].
  - destruct c as [|p]; [reflexivity|].
    do 5 (destruct p as [p|p|]; try reflexivity); exfalso; lia.
  - cbn [forallb]. unfold file_char. rewrite Hc.
    destruct (N.eqb_spec c 13); [contradiction|reflexivity].
Qed.

Lemma quoted_file_char (s : str) :
  text_ok s = true -> forallb file_char (quoted s) = true.
Proof.
  intros H. unfold quoted. rewrite !forallb_app.
  assert (Hs : forallb file_char (concat (escape_char <$> s)) = true).
  { unfold text_ok in H. induction s as [|c s IH]; [reflexivity|].
    cbn [forallb] in H. apply andb_true_iff in H as [Hc Hs].
    rewrite fmap_cons. cbn [concat]. rewrite forallb_app.
    rewrite (escape_char_file_char c Hc), IH by exact Hs. reflexivity. }
  rewrite Hs. reflexivity.
Qed.

Lemma decimal_file_char (z : Z) : forallb file_char (decimal z) = true.
Proof.
  destruct (decimal_number z) as (M & _ & _).
  exact (match_number_file_char _ _ _ _ M).
Qed.

Lemma json_of_sql_file_char (v : sqlval) :
  sql_float_ok v ->
  match v with SText s => text_ok s = true | _ => True end ->
  forallb file_char (json_of_sql v) = true.
Proof.
  intros Hv Ht. destruct v as [|z|f|s]; cbn [json_of_sql].
  - reflexivity.
  - apply decimal_file_char.
  - destruct f as [sg|sg| |sg m e]; cbn [floatstr].
    + destruct Hv as [M _]. exact (match_number_file_char _ _ _ _ M).
    + destruct sg; reflexivity.
    + reflexivity.
    + destruct Hv as [M _]. exact (match_number_file_char _ _ _ _ M).
  - apply quoted_file_char, Ht.
Qed.

Lemma object_text_file_char (m : Movie) :
  row_ok m -> texts_ok m -> floats_ok m ->
  forallb file_char (object_text m) = true.
Proof.
  intros [_ Hr] (Ht & Hd & Hg & Hy) [Hfy Hfr]. unfold object_text, member.
  rewrite !forallb_app.
  rewrite (decimal_file_char (movie_id m)), (quoted_file_char _ Ht),
    (quoted_file_char _ Hd), (quoted_file_char _ Hg),
    (json_of_sql_file_char (year m) Hfy Hy),
    (json_of_sql_file_char (rating m) Hfr).
  - reflexivity.
  - destruct (rating m); (exact I || discriminate).
Qed.

Lemma array_text_file_char (m : Movie) (ms : list Movie) :
  Forall row_ok (m :: ms) -> Forall texts_ok (m :: ms) ->
  Forall floats_ok (m :: ms) ->
  forallb file_char (array_text m ms) = true.
Proof.
  intros Hr Ht Hf.
  apply Forall_cons in Hr as [Hrm Hr], Ht as [Htm Ht], Hf as [Hfm Hf].
  unfold array_text. rewrite !forallb_app.
  rewrite (object_text_file_char m Hrm Htm Hfm).
  assert (Hi : forallb file_char (array_items ms) = true).
  { induction ms as [|m' ms IH]; [reflexivity|].
    apply Forall_cons in Hr as [Hrm' Hr], Ht as [Htm' Ht], Hf as [Hfm' Hf].
    cbn [array_items]. rewrite !forallb_app.
    rewrite (object_text_file_char m' Hrm' Htm' Hfm'), IH by assumption.
    reflexivity. }
  rewrite Hi. reflexivity.
Qed.

Lemma file_char_text_ok (s : str) :
  forallb file_char s = true -> text_ok s = true.
Proof.
  unfold text_ok. induction s as [|c s IH]; intros H; [reflexivity|].
  cbn [forallb] in *. apply andb_true_iff in H as [Hc Hs].
  unfold file_char in Hc. apply andb_true_iff in Hc as [Hc _].
  rewrite Hc, IH by exact Hs. reflexivity.
Qed.

(** The bytes the export writes are read back, by the model of
    [json.load], as the list of dicts that was dumped. *)
Lemma json_load_exported (m : Movie) (ms : list Movie) :
  Forall row_ok (m :: ms) -> Forall texts_ok (m :: ms) ->
  Forall floats_ok (m :: ms) ->
  json_load_utf8 (utf8_encode (array_text m ms))
  = Ok (PyList (dict_of_row <$> m :: ms)).
Proof.
  intros Hr Ht Hf. pose proof (array_text_file_char m ms Hr Ht Hf) as Hc.
  unfold json_load_utf8.
  rewrite (utf8_decode_encode _ (file_char_text_ok _ Hc)).
  rewrite (universal_newlines_id _ Hc). apply json_loads_rows, Hf.
Qed.

(** C3.  For every table of well-formed rows, exporting all of it and then
    importing the exported document, as the file the import reads, into a
    table without rows gives records with the same title, director,
    genre, year and rating, in the same order and number.  The export
    writes the bytes of the dumped list; the model of [json.load] reads
    those bytes back as that list; the import stores one row for each
    dict.  When the table is empty the export writes nothing: with no
    file there the import finds none and the table stays empty.  The
    assumptions are on the libraries: [repr] and [float] agree on the
    floats of the table, and [json.load] reads the file as its model
    does. *)
Theorem export_import_roundtrip (d d0 : database) (fs fs' : files) :
  Forall row_ok (rows d) -> Forall texts_ok (rows d) ->
  Forall floats_ok (rows d) ->
  (rows d = [] -> fs !! JSON_OUT_PATH = None) ->
  rows d0 = [] ->
  fs' !! JSON_IN_PATH = fst (export_movies d fs (lit "y") []) !! JSON_OUT_PATH ->
  (forall content, fs' !! JSON_IN_PATH = Some content ->
     json_load content = json_load_utf8 content) ->
  fields <$> rows (fst (import_movies d0 fs')) = fields <$> rows d
  /\ fields <$> rows (fst (import_movies d0 fs')) ≡ₚ fields <$> rows d
  /\ (rows d <> [] ->
      exists content,
        export_movies d fs (lit "y") []
        = (<[JSON_OUT_PATH := content]> fs, MsgExported)
        /\ content = utf8_encode (iterencode 0 (PyList (dict_of_row <$> rows d)))
        /\ json_load_utf8 content = Ok (PyList (dict_of_row <$> rows d))
        /\ snd (import_movies d0 fs') = MsgImported)
  /\ (rows d = [] ->
      export_movies d fs (lit "y") [] = (fs, MsgNoData)
      /\ import_movies d0 fs' = (d0, MsgFileNotFound)).
Proof.
  intros Hok Ht Hf Hnone Hd0 Hfs Hload.
  assert (Hexp : export_movies d fs (lit "y") []
                 = match rows d with
                   | [] => (fs, MsgNoData)
                   | _ :: _ =>
                       (<[JSON_OUT_PATH :=
                            utf8_encode (iterencode 0 (PyList (dict_of_row <$> rows d)))]> fs,
                        MsgExported)
                   end).
  { unfold export_movies. change (lower_is_y (lit "y")) with true. cbv iota.
    change (search_movies d []) with (rows d). destruct (rows d); reflexivity. }
  destruct (rows d) as [|m ms] eqn:E.
  - rewrite Hexp in Hfs |- *. cbn [fst] in Hfs. rewrite (Hnone eq_refl) in Hfs.
    assert (Himp : import_movies d0 fs' = (d0, MsgFileNotFound)).
    { unfold import_movies, open_read. rewrite Hfs. reflexivity. }
    rewrite Himp. cbn [fst]. rewrite Hd0.
    split; [reflexivity|]. split; [reflexivity|]. split; [intros H; contradiction|].
    intros _. split; reflexivity.
  - rewrite Hexp in Hfs |- *. cbn [fst] in Hfs. rewrite lookup_insert_eq in Hfs.
    assert (Hjson : json_load_utf8
                      (utf8_encode (iterencode 0 (PyList (dict_of_row <$> m :: ms))))
                    = Ok (PyList (dict_of_row <$> m :: ms))).
    { rewrite iterencode_rows. apply json_load_exported; assumption. }
    destruct (executemany_insert_rows (m :: ms) d0 Hok Ht) as (d' & Hd' & Hfd).
    rewrite Hd0, fmap_nil, app_nil_l in Hfd.
    assert (Himp : import_movies d0 fs' = (d', MsgImported)).
    { unfold import_movies, open_read. rewrite Hfs. cbn [bind_result].
      rewrite (Hload _ Hfs), Hjson. cbn [bind_result iterate].
      rewrite map_result_rows. cbn [bind_result]. rewrite Hd'. reflexivity. }
    rewrite Himp. cbn [fst snd].
    split; [exact Hfd|]. split; [rewrite Hfd; reflexivity|]. split.
    + intros _. eexists. split; [reflexivity|]. split; [reflexivity|].
      split; [exact Hjson|reflexivity].
    + intros H. discriminate H.
Qed.

(** C9 (the code departs from it).  A document whose record has [null] for
    rating is imported: the row is stored with a NULL rating.  (That is for
    texts that can be bound; a lone surrogate in one of them stops the
    import at the binding, and the table is as it was.) *)
Theorem import_movies_null_rating (d : database) (fs : files) (content : list N)
    (t di g : str) (y : Z) :
  fs !! JSON_IN_PATH = Some content ->
  json_load content
  = Ok (PyList [PyDict [(lit "title", PyStr t); (lit "director", PyStr di);
                        (lit "genre", PyStr g); (lit "year", PyInt y);
                        (lit "rating", PyNone)]]) ->
  in_i64 y = true ->
  import_movies d fs
  = if encodable t && encodable di && encodable g
    then ({| rows := rows d ++ [{| movie_id := sequence d + 1; title := t;
                                   director := di; genre := g; year := SInt y;
                                   rating := SNull |}];
             sequence := sequence d + 1 |}, MsgImported)
    else (d, MsgOtherError UnicodeEncodeError).
Proof.
  intros Hfs Hload Hy. unfold import_movies, open_read. rewrite Hfs.
  cbn [bind_result]. rewrite Hload. cbn [bind_result iterate map_result].
  change (movie_params _) with (Ok [PyStr t; PyStr di; PyStr g; PyInt y; PyNone]).
  cbn [bind_result executemany_insert]. unfold execute_insert.
  cbn [map_result bind_param]. rewrite Hy.
  destruct (encodable t); cbn [andb bind_result]; [|reflexivity].
  destruct (encodable di); cbn [andb bind_result]; [|reflexivity].
  destruct (encodable g); cbn [andb bind_result]; reflexivity.
Qed.

(** ** What every write path keeps

    [table_ok] holds of the empty table and is kept by the four functions
    that write, so the hypotheses on the table made above (distinct ids,
    rows as SQLite stores them) hold in every state the program reaches. *)

Lemma table_ok_empty : table_ok empty_database.
Proof. split; [constructor|split; constructor]. Qed.

Lemma table_ok_NoDup (d : database) : table_ok d -> NoDup (movie_id <$> rows d).
Proof. intros [H _]. exact H. Qed.

Lemma table_ok_append (d : database) (m : Movie) :
  table_ok d -> movie_id m = sequence d + 1 -> row_ok m ->
  table_ok {| rows := rows d ++ [m]; sequence := sequence d + 1 |}.
Proof.
  intros (Hnd & Hb & Hok) Hid Hm. unfold table_ok; cbn [rows sequence]. split; [|split].
  - rewrite fmap_app. apply NoDup_app. split; [exact Hnd|]. split.
    + intros x Hx Hx'. apply list_elem_of_fmap in Hx as (m' & -> & Hm').
      apply list_elem_of_singleton in Hx'. rewrite Hid in Hx'.
      rewrite Forall_forall in Hb. specialize (Hb m' Hm'). lia.
    + apply NoDup_singleton.
  - apply Forall_app. split.
    + eapply Forall_impl; [exact Hb|]. intros x Hx. cbn beta in Hx. lia.
    + apply Forall_singleton. lia.
  - apply Forall_app. split; [exact Hok|]. apply Forall_singleton. exact Hm.
Qed.

Lemma NoDup_ids_filter (P : Movie -> Prop) `{!forall m, Decision (P m)}
    (l : list Movie) :
  NoDup (movie_id <$> l) -> NoDup (movie_id <$> filter P l).
Proof.
  induction l as [|m l IH]; intros Hnd; [constructor|].
  rewrite fmap_cons in Hnd. apply NoDup_cons in Hnd as [Hm Hl].
  rewrite filter_cons. destruct (decide (P m)); [|apply IH, Hl].
  rewrite fmap_cons. apply NoDup_cons. split; [|apply IH, Hl].
  intros Hin. apply Hm. apply list_elem_of_fmap in Hin as (m' & -> & Hm').
  apply list_elem_of_filter in Hm' as [_ Hm']. apply list_elem_of_fmap. eauto.
Qed.

Lemma table_ok_filter (d : database) (P : Movie -> Prop)
    `{!forall m, Decision (P m)} :
  table_ok d -> table_ok {| rows := filter P (rows d); sequence := sequence d |}.
Proof.
  intros (Hnd & Hb & Hok). unfold table_ok; cbn [rows sequence]. split; [|split].
  - apply NoDup_ids_filter, Hnd.
  - rewrite Forall_forall in *. intros m Hm.
    apply list_elem_of_filter in Hm as [_ Hm]. auto.
  - rewrite Forall_forall in *. intros m Hm.
    apply list_elem_of_filter in Hm as [_ Hm]. auto.
Qed.

Lemma table_ok_update (d : database) (g : Movie -> Movie) :
  (forall m, movie_id (g m) = movie_id m) ->
  (forall m, row_ok m -> row_ok (g m)) ->
  table_ok d -> table_ok {| rows := g <$> rows d; sequence := sequence d |}.
Proof.
  intros Hid Hg (Hnd & Hb & Hok). unfold table_ok; cbn [rows sequence].
  assert (Hids : movie_id <$> (g <$> rows d) = movie_id <$> rows d).
  { rewrite <- list_fmap_compose. apply list_fmap_ext. intros i m _. apply Hid. }
  split; [rewrite Hids; exact Hnd|]. split.
  - apply Forall_fmap. eapply Forall_impl; [exact Hb|].
    intros m Hm. unfold compose. rewrite Hid. exact Hm.
  - apply Forall_fmap. eapply Forall_impl; [exact Hok|]. intros m Hm. apply Hg, Hm.
Qed.

Lemma add_movie_ok (d : database) (t di g yl rl : str) :
  table_ok d -> table_ok (fst (add_movie d t di g yl rl)).
Proof.
  intros Hd.
  destruct (add_movie_cases d t di g yl rl) as [->|(y & r & Hi & Hc & ->)];
    [exact Hd|].
  cbn [fst]. apply table_ok_append; [exact Hd|reflexivity|].
  split; [exact Hi|exact Hc].
Qed.

Lemma modify_movie_ok (d : database) (t nt nd ng ny nr : str) :
  table_ok d -> table_ok (fst (modify_movie d t nt nd ng ny nr)).
Proof.
  intros Hd.
  destruct (modify_movie_cases d t nt nd ng ny nr)
    as [[-> _]|(movie & rest & oy & orr & _ & _ & Hy & Hr & ->)]; [exact Hd|].
  apply table_ok_update; [| |exact Hd].
  - intros m. destruct (movie_id m =? movie_id movie); reflexivity.
  - intros m [Hmy Hmr]. destruct (movie_id m =? movie_id movie); [|split; assumption].
    split; cbn [updated year rating].
    + destruct Hy as [[_ ->]|(y & _ & _ & Hi & ->)]; [exact Hmy|exact Hi].
    + destruct Hr as [[_ ->]|(f & _ & _ & Hc & ->)]; [exact Hmr|exact Hc].
Qed.

Lemma delete_movies_ok (d : database) (a c t : str) :
  table_ok d -> table_ok (fst (delete_movies d a c t)).
Proof.
  intros Hd. unfold delete_movies.
  destruct (lower_is_y a).
  - destruct (lower_is_y c); [|exact Hd].
    destruct Hd as (_ & _ & _). split; [constructor|split; constructor].
  - destruct (search_movies d (strip t)) as [|m ms]; [exact Hd|].
    destruct (lower_is_y c); [|exact Hd].
    cbn [fst]. unfold executemany_delete. rewrite fold_delete_id.
    apply table_ok_filter, Hd.
Qed.

Lemma real_to_integer_ok (f : float) :
  real_to_integer f = SNull \/ year_ok (real_to_integer f) = true.
Proof.
  destruct f as [sg|sg| |sg m e]; [| |left; reflexivity|].
  all: unfold real_to_integer; destruct (float_exact_Z _) as [z|] eqn:Hz;
    try (right; cbn [sql_real year_ok]; unfold real_to_integer; rewrite Hz;
         reflexivity).
  all: destruct ((min_i64 <? z) && (z <? max_i64)) eqn:Hr;
    try (right; cbn [sql_real year_ok]; unfold real_to_integer; rewrite Hz, Hr;
         reflexivity).
  all: right; cbn [year_ok]; apply andb_true_iff in Hr as [H1 H2];
    apply Z.ltb_lt in H1; apply Z.ltb_lt in H2;
    unfold in_i64; apply andb_true_iff; split; apply Z.leb_le; lia.
Qed.

Lemma year_column_ok (pv : pyval) (v y : sqlval) :
  numeric_fits ->
  bind_param pv = Ok v -> year_column v = Some y -> year_ok y = true.
Proof.
  intros Hnum Hb. unfold year_column.
  assert (Hy : integer_affinity v = SNull \/ year_ok (integer_affinity v) = true).
  { destruct v as [|z|f|s]; cbn [integer_affinity].
    - left. reflexivity.
    - right. destruct pv; try discriminate; cbn [bind_param] in Hb.
      + injection Hb as <-. destruct b; reflexivity.
      + destruct (in_i64 z0) eqn:Hi; [|discriminate]. injection Hb as <-. exact Hi.
      + destruct f; discriminate.
      + destruct (encodable s); discriminate.
    - apply real_to_integer_ok.
    - destruct (sqlite_numeric s) as [[z|f]|] eqn:Hs.
      + right. apply (Hnum s z Hs).
      + apply real_to_integer_ok.
      + right. cbn [year_ok]. rewrite Hs. reflexivity. }
  destruct Hy as [->|Hy]; [discriminate|].
  destruct (integer_affinity v); [discriminate|..]; intros [= <-]; exact Hy.
Qed.

Lemma sql_real_cases (f : float) :
  sql_real f = SNull \/ (f <> S754_nan /\ sql_real f = SReal f).
Proof. destruct f; [right|right|left|right]; try (split; [discriminate|]); reflexivity. Qed.

Lemma rating_column_ok (pv : pyval) (v r : sqlval) :
  bind_param pv = Ok v -> rating_column v = Some r -> rating_ok r = true.
Proof.
  intros Hb. unfold rating_column.
  assert (Hv : real_affinity v = SNull
               \/ (exists f, f <> S754_nan /\ real_affinity v = SReal f)
               \/ (exists s, real_affinity v = SText s)).
  { destruct v as [|z|f|s]; cbn [real_affinity].
    - left. reflexivity.
    - destruct (sql_real_cases (float_of_Z z)) as [->|[Hn ->]]; eauto.
    - right. left. exists f. split; [|reflexivity]. intros ->.
      destruct pv; try discriminate; cbn [bind_param] in Hb.
      + destruct (in_i64 z); discriminate.
      + destruct f; discriminate.
      + destruct (encodable s); discriminate.
    - destruct (sqlite_numeric s) as [[z|f]|]; [| |eauto].
      + destruct (sql_real_cases (float_of_Z z)) as [->|[Hn ->]]; eauto.
      + destruct (sql_real_cases f) as [->|[Hn ->]]; eauto. }
  destruct Hv as [->|[(f & Hn & ->)|(s & ->)]].
  - intros [= <-]. reflexivity.
  - rewrite (check_rating_real f Hn).
    destruct (float_le f_1_0 f && float_le f f_10_0) eqn:Hc; [|discriminate].
    intros [= <-]. exact Hc.
  - discriminate.
Qed.

Lemma map_result_inv {A B} (f : A -> result B) (l : list A) (l' : list B) :
  map_result f l = Ok l' -> Forall2 (fun a b => f a = Ok b) l l'.
Proof.
  revert l'. induction l as [|a l IH]; intros l' H; cbn [map_result] in H.
  - injection H as <-. constructor.
  - destruct (f a) as [b|] eqn:Hb; [|discriminate]. cbn [bind_result] in H.
    destruct (map_result f l) as [bs|]; [|discriminate]. cbn [bind_result] in H.
    injection H as <-. constructor; [exact Hb|apply IH; reflexivity].
Qed.

Lemma execute_insert_ok (d d' : database) (params : list pyval) :
  numeric_fits ->
  table_ok d -> execute_insert d params = Ok d' -> table_ok d'.
Proof.
  intros Hnum Hd. unfold execute_insert.
  destruct (map_result bind_param params) as [p|] eqn:Hp; [|discriminate].
  cbn [bind_result]. apply map_result_inv in Hp.
  destruct p as [|t [|di [|g [|y [|r [|]]]]]]; try discriminate.
  cbn [insert_row].
  destruct (text_column t) as [t'|]; [|discriminate].
  destruct (text_column di) as [di'|]; [|discriminate].
  destruct (text_column g) as [g'|]; [|discriminate].
  destruct (year_column y) as [y'|] eqn:Hy; [|discriminate].
  destruct (rating_column r) as [r'|] eqn:Hr; [|discriminate].
  intros [= <-].
  inversion Hp as [|? ? ? ? _ Hp1]; subst. inversion Hp1 as [|? ? ? ? _ Hp2]; subst.
  inversion Hp2 as [|? ? ? ? _ Hp3]; subst.
  inversion Hp3 as [|? ? ? ? Hby Hp4]; subst.
  inversion Hp4 as [|? ? ? ? Hbr _]; subst.
  apply table_ok_append; [exact Hd|reflexivity|]. split; cbn [year rating].
  - exact (year_column_ok _ _ _ Hnum Hby Hy).
  - exact (rating_column_ok _ _ _ Hbr Hr).
Qed.

Lemma executemany_insert_ok (seq_of_params : list (list pyval)) (d d' : database) :
  numeric_fits ->
  table_ok d -> executemany_insert d seq_of_params = Ok d' -> table_ok d'.
Proof.
  intros Hnum. revert d. induction seq_of_params as [|params rest IH]; intros d Hd H.
  - injection H as <-. exact Hd.
  - cbn [executemany_insert] in H.
    destruct (execute_insert d params) as [d1|] eqn:H1; [|discriminate].
    cbn [bind_result] in H. eapply IH; [|exact H].
    eapply execute_insert_ok; eassumption.
Qed.

Lemma import_movies_ok (d : database) (fs : files) :
  numeric_fits -> table_ok d -> table_ok (fst (import_movies d fs)).
Proof.
  intros Hnum Hd. unfold import_movies.
  destruct (open_read fs JSON_IN_PATH) as [content|e]; cbn [bind_result];
    [|destruct e; exact Hd].
  destruct (json_load content) as [movies|e]; cbn [bind_result];
    [|destruct e; exact Hd].
  destruct (iterate movies) as [items|e]; cbn [bind_result];
    [|destruct e; exact Hd].
  destruct (map_result movie_params items) as [seq_of_params|e];
    cbn [bind_result]; [|destruct e; exact Hd].
  destruct (executemany_insert d seq_of_params) as [d'|e] eqn:H;
    [|destruct e; exact Hd].
  eapply executemany_insert_ok; eassumption.
Qed.

(** ** The report *)

Lemma get_display_width_length (s : str) :
  Z.of_nat (length s) <= get_display_width s <= 2 * Z.of_nat (length s).
Proof.
  rewrite get_display_width_sum.
  induction s as [|c s IH]; [cbn; lia|].
  cbn [foldr length]. pose proof (char_width_cases c). lia.
Qed.

Lemma get_display_width_repeat (c : N) (n : nat) :
  char_width c = 1 -> get_display_width (repeat c n) = Z.of_nat n.
Proof.
  intros Hc. rewrite get_display_width_sum.
  induction n as [|n IH]; [reflexivity|].
  cbn [repeat foldr]. rewrite Hc, IH. lia.
Qed.

Lemma pad_string_width (s : str) (w : Z) :
  east_asian_width 32 = EA_Na ->
  get_display_width (pad_string s w) = Z.max w (get_display_width s).
Proof.
  intros Hsp. unfold pad_string.
  rewrite get_display_width_app, (get_display_width_spaces _ Hsp). lia.
Qed.

Lemma row_line_sum (m : Movie) :
  east_asian_width 32 = EA_Na ->
  get_display_width (row_line m)
  = Z.max 20 (get_display_width (title m))
    + Z.max 24 (get_display_width (director m))
    + Z.max 12 (get_display_width (genre m))
    + Z.max 10 (get_display_width (str_of_sql (year m)))
    + Z.max 6 (get_display_width (str_of_sql (rating m))).
Proof.
  intros Hsp. unfold row_line. cbn [concat].
  rewrite !get_display_width_app, !(pad_string_width _ _ Hsp).
  change (get_display_width []) with 0.
  change (widths !!! 0%nat) with 20. change (widths !!! 1%nat) with 24.
  change (widths !!! 2%nat) with 12. change (widths !!! 3%nat) with 10.
  change (widths !!! 4%nat) with 6. lia.
Qed.

Lemma fits_widths (m : Movie) :
  fits m <->
  get_display_width (title m) <= 20
  /\ get_display_width (director m) <= 24
  /\ get_display_width (genre m) <= 12
  /\ get_display_width (str_of_sql (year m)) <= 10
  /\ get_display_width (str_of_sql (rating m)) <= 6.
Proof.
  unfold fits, row_texts, widths. split.
  - intros H. repeat (apply Forall2_cons_1 in H; destruct H as [? H]).
    repeat split; assumption.
  - intros (H1 & H2 & H3 & H4 & H5). repeat constructor; assumption.
Qed.

(** X1. The display width of a text lies between its number of characters
    and twice that number, and the width of two texts put together is the
    sum of their widths. *)
Theorem get_display_width_bounds (s t : str) :
  Z.of_nat (length s) <= get_display_width s <= 2 * Z.of_nat (length s)
  /\ get_display_width (s ++ t) = get_display_width s + get_display_width t.
Proof.
  split; [apply get_display_width_length|apply get_display_width_app].
Qed.

(** X4. When the space counts for one column, padding a padded text again,
    to the same or to a smaller width, changes nothing. *)
Theorem pad_string_idempotent (s : str) (w v : Z) :
  east_asian_width 32 = EA_Na ->
  v <= w ->
  pad_string (pad_string s w) v = pad_string s w.
Proof.
  intros Hsp Hv. unfold pad_string at 1. rewrite (pad_string_width _ _ Hsp).
  replace (Z.to_nat (Z.max (v - Z.max w (get_display_width s)) 0)) with 0%nat by lia.
  apply app_nil_r.
Qed.

(** X2. When the space counts for one column, a row of the report is as
    wide as the sum, over its five columns, of the larger of the column
    width and the text's width.  So it is never narrower than the 72
    columns of the separator, and it is exactly 72 wide if and only if
    every text fits its column: a longer text is printed whole and pushes
    the columns after it to the right. *)
Theorem row_line_width (m : Movie) :
  east_asian_width 32 = EA_Na ->
  get_display_width (row_line m)
  = Z.max 20 (get_display_width (title m))
    + Z.max 24 (get_display_width (director m))
    + Z.max 12 (get_display_width (genre m))
    + Z.max 10 (get_display_width (str_of_sql (year m)))
    + Z.max 6 (get_display_width (str_of_sql (rating m)))
  /\ 72 <= get_display_width (row_line m)
  /\ (get_display_width (row_line m) = 72 <-> fits m).
Proof.
  intros Hsp. rewrite fits_widths, (row_line_sum _ Hsp).
  split; [reflexivity|]. split; [lia|]. lia.
Qed.

(** X3. The report of no record is the single line for no data.  The
    report of records that all fit their columns, when the space and the
    hyphen count for one column, is an empty line followed by the header,
    the separator and one line per record, in the order of the records,
    all of display width 72. *)
Theorem list_rpt_aligned (movies : list Movie) :
  east_asian_width 32 = EA_Na ->
  east_asian_width 45 = EA_Na ->
  movies <> [] ->
  Forall fits movies ->
  list_rpt [] = [Status MsgNoData]
  /\ list_rpt movies
     = Line [] :: Line header_line :: Line (repeat 45%N 72)
       :: (Line <$> (row_line <$> movies))
  /\ get_display_width header_line = 72
  /\ get_display_width (repeat 45%N 72) = 72
  /\ Forall (fun l => get_display_width l = 72) (row_line <$> movies).
Proof.
  intros Hsp Hhy Hne Hfit. split; [reflexivity|]. split; [|split; [|split]].
  - destruct movies as [|m ms]; [contradiction|].
    unfold list_rpt. cbn [app]. rewrite <- list_fmap_compose. reflexivity.
  - unfold header_line, headers, widths. cbn [zip_with concat].
    rewrite !get_display_width_app, !(pad_string_width _ _ Hsp).
    change (get_display_width []) with 0.
    pose proof (get_display_width_length [38651; 24433; 21517; 31281]%N) as H1.
    pose proof (get_display_width_length [23566; 28436]%N) as H2.
    pose proof (get_display_width_length [39006; 22411]%N) as H3.
    pose proof (get_display_width_length [19978; 26144; 24180; 20221]%N) as H4.
    pose proof (get_display_width_length [35413; 20998]%N) as H5.
    cbn [length] in H1, H2, H3, H4, H5. lia.
  - apply (get_display_width_repeat 45 72). unfold char_width. rewrite Hhy.
    reflexivity.
  - apply Forall_fmap. eapply Forall_impl; [exact Hfit|].
    intros m Hm. cbn beta. unfold compose.
    apply fits_widths in Hm. rewrite (row_line_sum _ Hsp). lia.
Qed.

(** ** Searching, again *)

Lemma like_percents (n : nat) (s : str) : like (repeat pct (S n)) s = true.
Proof.
  induction n as [|n IH].
  - rewrite <- (app_nil_r s). apply like_any_skip. reflexivity.
  - change (repeat pct (S (S n))) with (pct :: repeat pct (S n)).
    apply (like_any_skip _ [] s). exact IH.
Qed.

Lemma like_spec_prefix (x p s : str) :
  like_spec p s -> like_spec (x ++ p) (x ++ s).
Proof.
  intros H. induction x as [|c x IH]; [exact H|].
  cbn [app]. destruct (decide (c = pct)) as [->|Hp].
  - apply (like_any (x ++ p) [pct] (x ++ s)). exact IH.
  - destruct (decide (c = und)) as [->|Hu].
    + apply like_one. exact IH.
    + apply like_char; [assumption..|reflexivity|exact IH].
Qed.

(** A text matches the pattern made of itself between two [%]. *)
Lemma like_self (x : str) : like ([pct] ++ x ++ [pct]) x = true.
Proof.
  apply like_complete. apply (like_any (x ++ [pct]) [] x).
  rewrite <- (app_nil_r x) at 2. apply like_spec_prefix.
  apply (like_any [] [] []). constructor.
Qed.

Lemma like_one_char (s : str) :
  like [pct; und; pct] s = true <-> s <> [].
Proof.
  destruct s as [|c s].
  - split; [discriminate|contradiction].
  - split; [discriminate|]. intros _.
    apply (like_any_skip [und; pct] [] (c :: s)).
    rewrite like_other_step by discriminate.
    rewrite N.eqb_refl. apply (like_percents 0).
Qed.

Lemma utf8_encode_ascii (s : str) :
  Forall (fun c => (c < 128)%N) s -> utf8_encode s = s.
Proof.
  induction 1 as [|c s Hc _ IH]; [reflexivity|].
  unfold utf8_encode in *. rewrite fmap_cons. cbn [concat]. rewrite IH.
  unfold utf8_char. destruct (N.ltb_spec c 128); [reflexivity|lia].
Qed.

Lemma percents_pattern (n : nat) :
  [pct] ++ repeat pct (S n) ++ [pct] = repeat pct (S (S (S n))).
Proof. cbn [repeat app]. rewrite <- repeat_cons. reflexivity. Qed.

Lemma percents_plain (k : nat) :
  Forall (fun c => (c < 128)%N) (repeat pct k)
  /\ encodable (repeat pct k) = true
  /\ until_nul (repeat pct k) = repeat pct k.
Proof.
  induction k as [|k (IH1 & IH2 & IH3)]; [repeat split; constructor|].
  cbn [repeat]. split; [constructor; [reflexivity|exact IH1]|].
  split; [exact IH2|]. cbn [until_nul]. change (pct =? 0)%N with false.
  rewrite IH3. reflexivity.
Qed.

Lemma filter_all {A} (P : A -> Prop) `{!forall x, Decision (P x)} (l : list A) :
  (forall x, P x) -> filter P l = l.
Proof.
  intros Hall. induction l as [|a l IH]; [reflexivity|].
  rewrite filter_cons_True by apply Hall. now rewrite IH.
Qed.

(** X5. The [%] and [_] of a filter are not escaped, they act as
    wildcards.  A filter made only of [%] returns the whole table as long
    as the pattern, the filter between two more [%], has at most 50000
    bytes, and nothing when it has more.  The filter [_] returns exactly
    the records whose title, read up to its first U+0000, is not empty. *)
Theorem search_movies_wildcards (d : database) (n : nat) :
  (Z.of_nat n + 3 <= LIKE_PATTERN_LENGTH ->
   search_movies d (repeat pct (S n)) = rows d)
  /\ (LIKE_PATTERN_LENGTH < Z.of_nat n + 3 ->
      search_movies d (repeat pct (S n)) = [])
  /\ forall m, m ∈ search_movies d [und]
               <-> m ∈ rows d /\ until_nul (title m) <> [].
Proof.
  assert (pattern_bytes (repeat pct (S n)) = Z.of_nat n + 3) as Hb.
  { unfold pattern_bytes. rewrite percents_pattern.
    rewrite (utf8_encode_ascii _ (proj1 (percents_plain _))).
    rewrite repeat_length. lia. }
  split; [|split].
  - intros Hl.
    rewrite (search_movies_filter d (repeat pct (S n)));
      [|discriminate|apply percents_plain|left; rewrite Hb; exact Hl].
    apply filter_all. intros m. apply Is_true_true_2. unfold sqlite_like.
    rewrite percents_pattern, (proj2 (proj2 (percents_plain _))).
    apply like_percents.
  - intros Hl. destruct (rows d) as [|m l] eqn:Hr.
    + rewrite (search_movies_filter d (repeat pct (S n)));
        [|discriminate|apply percents_plain|right; exact Hr].
      rewrite Hr. reflexivity.
    + apply search_movies_too_long; [discriminate|rewrite Hr; discriminate|].
      rewrite Hb. exact Hl.
  - intros m.
    rewrite (search_movies_filter d [und]);
      [|discriminate|reflexivity|left; vm_compute; discriminate].
    rewrite list_elem_of_filter. unfold sqlite_like.
    change (until_nul ([pct] ++ [und] ++ [pct])) with [pct; und; pct].
    split; intros [H1 H2]; split; try assumption.
    + apply like_one_char. now apply Is_true_true_1.
    + apply Is_true_true_2. now apply like_one_char.
Qed.

(** ** Adding, again *)

(** Every outcome of [add_movie]. *)
Lemma add_movie_outcome (d : database) (t di g yl rl : str) :
  (exists y r,
     in_i64 y = true
     /\ float_le f_1_0 r && float_le r f_10_0 = true
     /\ encodable (strip t) = true
     /\ add_movie d t di g yl rl
        = ({| rows := rows d ++ [{| movie_id := sequence d + 1;
                                    title := strip t; director := strip di;
                                    genre := strip g; year := SInt y;
                                    rating := SReal r |}];
              sequence := sequence d + 1 |}, MsgAdded))
  \/ (fst (add_movie d t di g yl rl) = d
      /\ (snd (add_movie d t di g yl rl) = MsgNumberFormat
          \/ snd (add_movie d t di g yl rl) = MsgRatingRange
          \/ snd (add_movie d t di g yl rl) = MsgOtherError OverflowError)).
Proof.
  destruct (py_int (strip yl)) as [y|] eqn:Hy;
    [|right; unfold add_movie; rewrite Hy; split; [reflexivity|left; reflexivity]].
  destruct (py_float (strip rl)) as [r|] eqn:Hr;
    [|right; unfold add_movie; rewrite Hy, Hr; split; [reflexivity|left; reflexivity]].
  destruct (float_le f_1_0 r && float_le r f_10_0) eqn:Hc;
    [|right; unfold add_movie; rewrite Hy, Hr, Hc;
      split; [reflexivity|right; left; reflexivity]].
  destruct (encodable (strip t) && encodable (strip di) && encodable (strip g))
    eqn:He;
    [|right; rewrite (add_movie_unencodable d t di g yl rl y r He Hy Hr Hc);
      split; [reflexivity|left; reflexivity]].
  apply andb_true_iff in He as [He Hg]. apply andb_true_iff in He as [Ht Hdi].
  destruct (in_i64 y) eqn:Hi.
  - left. exists y, r. split; [exact Hi|]. split; [exact Hc|].
    split; [exact Ht|]. apply add_movie_valid; assumption.
  - right. unfold add_movie. rewrite Hy, Hr, Hc. cbn [negb].
    unfold execute_insert. cbn [map_result bind_param bind_result].
    rewrite Ht, Hdi, Hg, Hi. split; [reflexivity|right; right; reflexivity].
Qed.

Lemma lstrip_blank (s : str) :
  Forall (fun c => py_isspace c = true) s -> lstrip s = [].
Proof.
  induction 1 as [|c s Hc _ IH]; [reflexivity|].
  cbn [lstrip]. rewrite Hc. exact IH.
Qed.

Lemma strip_blank (s : str) :
  Forall (fun c => py_isspace c = true) s -> strip s = [].
Proof. intros H. unfold strip. rewrite (lstrip_blank s H). reflexivity. Qed.

(** X6. [add_movie] writes all or nothing.  Either it reports the record
    as added, and then the table is the old one followed by one record
    that has the next id, the three texts stripped, an integer year within
    64 bits and a rating within the range; or the table is exactly as it
    was and the message is the one for a bad number, for the rating range
    or for an overflow.  No other message can come out: the constraint of
    the table is never what refuses a record. *)
Theorem add_movie_all_or_nothing (d : database) (t di g yl rl : str) :
  (exists y r,
     in_i64 y = true
     /\ float_le f_1_0 r && float_le r f_10_0 = true
     /\ add_movie d t di g yl rl
        = ({| rows := rows d ++ [{| movie_id := sequence d + 1;
                                    title := strip t; director := strip di;
                                    genre := strip g; year := SInt y;
                                    rating := SReal r |}];
              sequence := sequence d + 1 |}, MsgAdded))
  \/ (fst (add_movie d t di g yl rl) = d
      /\ (snd (add_movie d t di g yl rl) = MsgNumberFormat
          \/ snd (add_movie d t di g yl rl) = MsgRatingRange
          \/ snd (add_movie d t di g yl rl) = MsgOtherError OverflowError)).
Proof.
  destruct (add_movie_outcome d t di g yl rl)
    as [(y & r & Hi & Hc & _ & E)|H]; [|right; exact H].
  left. exists y, r. split; [exact Hi|]. split; [exact Hc|exact E].
Qed.

(** X7. A year that [int] reads but that does not fit 64 bits is refused
    when the values are bound, even with a rating in the range, and the
    table is as it was.  The values are bound in their order: with three
    texts that can be bound the message is the one for other errors
    (OverflowError); with a lone surrogate in one of them the binding
    stops there, and the message is the one for a bad number. *)
Theorem add_movie_year_overflow (d : database) (t di g yl rl : str)
    (y : Z) (r : float) :
  py_int (strip yl) = Some y -> in_i64 y = false ->
  py_float (strip rl) = Some r ->
  float_le f_1_0 r && float_le r f_10_0 = true ->
  add_movie d t di g yl rl
  = (d, if encodable (strip t) && encodable (strip di) && encodable (strip g)
        then MsgOtherError OverflowError else MsgNumberFormat).
Proof.
  intros Hy Hi Hr Hc.
  destruct (encodable (strip t) && encodable (strip di) && encodable (strip g))
    eqn:He; [|exact (add_movie_unencodable d t di g yl rl y r He Hy Hr Hc)].
  apply andb_true_iff in He as [He Hg]. apply andb_true_iff in He as [Ht Hdi].
  unfold add_movie. rewrite Hy, Hr, Hc. cbn [negb].
  unfold execute_insert. cbn [map_result bind_param bind_result].
  rewrite Ht, Hdi, Hg, Hi. reflexivity.
Qed.

(** X8. Nothing asks for a title, a director or a genre: lines of white
    space only are stored as empty texts, with a valid year and rating
    the record is added. *)
Theorem add_movie_blank_texts (d : database) (t di g yl rl : str)
    (y : Z) (r : float) :
  Forall (fun c => py_isspace c = true) t ->
  Forall (fun c => py_isspace c = true) di ->
  Forall (fun c => py_isspace c = true) g ->
  py_int (strip yl) = Some y -> in_i64 y = true ->
  py_float (strip rl) = Some r ->
  float_le f_1_0 r && float_le r f_10_0 = true ->
  add_movie d t di g yl rl
  = ({| rows := rows d ++ [{| movie_id := sequence d + 1; title := [];
                              director := []; genre := []; year := SInt y;
                              rating := SReal r |}];
        sequence := sequence d + 1 |}, MsgAdded).
Proof.
  intros Ht Hdi Hg Hy Hi Hr Hc.
  rewrite (add_movie_valid d t di g yl rl y r); try assumption;
    rewrite ?(strip_blank t Ht), ?(strip_blank di Hdi), ?(strip_blank g Hg);
    reflexivity.
Qed.

Lemma until_nul_snoc (x : str) (c : N) :
  until_nul (x ++ [c]) = until_nul x
  \/ until_nul (x ++ [c]) = until_nul x ++ [c].
Proof.
  induction x as [|a x IH].
  - cbn. destruct (c =? 0)%N; [left|right]; reflexivity.
  - cbn [app until_nul]. destruct (a =? 0)%N; [left; reflexivity|].
    destruct IH as [->| ->]; [left|right]; reflexivity.
Qed.

(** A text matches the pattern made of itself between two [%], as SQLite
    reads them. *)
Lemma sqlite_like_self (x : str) : sqlite_like ([pct] ++ x ++ [pct]) x = true.
Proof.
  unfold sqlite_like. cbn [app until_nul]. change (pct =? 0)%N with false.
  destruct (until_nul_snoc x pct) as [->| ->].
  - apply like_complete. apply (like_any _ [] (until_nul x)).
    rewrite <- (app_nil_r (until_nul x)). apply like_spec_prefix. constructor.
  - apply (like_self (until_nul x)).
Qed.

(** X9. A record that was just added is found by its own title, unless
    the title is too long for a pattern.  When [add_movie] reports
    success for a title that is not blank, and the pattern made of the
    title between two [%] has at most 50000 bytes, searching the new
    table for that title returns what the search returned before,
    followed by the new record; when the pattern has more bytes, the
    search returns nothing. *)
Theorem add_movie_then_search (d : database) (t di g yl rl : str) :
  snd (add_movie d t di g yl rl) = MsgAdded ->
  strip t <> [] ->
  exists m,
    rows (fst (add_movie d t di g yl rl)) = rows d ++ [m]
    /\ title m = strip t
    /\ (pattern_bytes (strip t) <= LIKE_PATTERN_LENGTH ->
        search_movies (fst (add_movie d t di g yl rl)) (strip t)
        = search_movies d (strip t) ++ [m])
    /\ (LIKE_PATTERN_LENGTH < pattern_bytes (strip t) ->
        search_movies (fst (add_movie d t di g yl rl)) (strip t) = []).
Proof.
  intros Hm Hne.
  destruct (add_movie_outcome d t di g yl rl)
    as [(y & r & _ & _ & He & E)|[_ H]].
  - rewrite E. cbn [fst rows]. eexists. split; [reflexivity|].
    split; [reflexivity|]. split.
    + intros Hl.
      rewrite !(search_movies_filter _ (strip t) Hne He) by (left; exact Hl).
      cbn [rows]. rewrite filter_app. f_equal.
      rewrite filter_cons_True; [reflexivity|].
      cbn [title]. rewrite (sqlite_like_self (strip t)). exact I.
    + intros Hl. apply (search_movies_too_long _ _ Hne); [|exact Hl].
      cbn [rows]. intros Habs. apply app_eq_nil in Habs as [_ Habs].
      discriminate.
  - rewrite Hm in H. destruct H as [H|[H|H]]; discriminate.
Qed.

(** ** Modifying, again *)

(** Every message of [modify_movie]. *)
Lemma modify_movie_messages (d : database) (t nt nd ng ny nr : str) :
  let m := snd (modify_movie d t nt nd ng ny nr) in
  m = MsgNoData \/ m = MsgYearFormat \/ m = MsgRatingFormat
  \/ m = MsgRatingRange \/ m = MsgNothingModified \/ m = MsgModified
  \/ m = MsgOtherError OverflowError \/ m = MsgOtherError UnicodeEncodeError.
Proof.
  cbv zeta. unfold modify_movie.
  destruct (search_movies d (strip t)) as [|movie rest] eqn:Hs; [listed|].
  destruct (strip nt) as [|c1 s1], (strip nd) as [|c2 s2], (strip ng) as [|c3 s3],
    (strip ny) as [|c4 s4], (strip nr) as [|c5 s5]; cbn [set_if app].
  all: try (destruct (py_int (c4 :: s4)) as [y|] eqn:Hy; cbn [option_map];
            [|listed]).
  all: try (destruct (py_float (c5 :: s5)) as [f|] eqn:Hf; [|listed];
            destruct (float_le f_1_0 f && float_le f f_10_0) eqn:Hc; cbn [negb];
            [|listed];
            destruct (rating_column_valid f Hc) as [Hn Hcol]).
  all: try listed.
  all: cbn [app]; unfold execute_update; cbn [map_result bind_result fst snd];
    rewrite ?(bind_param_float _ Hn); cbn [bind_param bind_result].
  all: repeat (match goal with
               | |- context [encodable ?s] => destruct (encodable s) eqn:?
               end; cbn [bind_result]; [|listed]).
  all: try (destruct (in_i64 y) eqn:Hiy; cbn [bind_result]; [|listed]).
  all: destruct (in_i64 (movie_id movie)) eqn:Hid; cbn [bind_result]; [|listed].
  all: erewrite update_rows_map;
    [|intros m; simpl; unfold year_column; simpl; rewrite ?Hcol; simpl; reflexivity].
  all: listed.
Qed.

(** X10. [modify_movie] writes all or nothing: unless it reports the
    record as modified the table is exactly as it was.  A search that
    finds nothing is reported as no data; a year that is typed and does
    not read as an integer is reported as such whatever the other lines
    hold.  The message is always one of eight, the last two being the
    line for other errors with an OverflowError (a year or an id beyond
    64 bits) and with a UnicodeEncodeError (a lone surrogate in a text
    typed); it is never that of a refused constraint. *)
Theorem modify_movie_all_or_nothing (d : database) (t nt nd ng ny nr : str) :
  (snd (modify_movie d t nt nd ng ny nr) <> MsgModified ->
   fst (modify_movie d t nt nd ng ny nr) = d)
  /\ (search_movies d (strip t) = [] ->
      modify_movie d t nt nd ng ny nr = (d, MsgNoData))
  /\ (search_movies d (strip t) <> [] -> strip ny <> [] ->
      py_int (strip ny) = None ->
      modify_movie d t nt nd ng ny nr = (d, MsgYearFormat))
  /\ (let m := snd (modify_movie d t nt nd ng ny nr) in
      m = MsgNoData \/ m = MsgYearFormat \/ m = MsgRatingFormat
      \/ m = MsgRatingRange \/ m = MsgNothingModified \/ m = MsgModified
      \/ m = MsgOtherError OverflowError
      \/ m = MsgOtherError UnicodeEncodeError).
Proof.
  split; [|split; [|split]].
  - intros H. destruct (modify_movie_cases d t nt nd ng ny nr) as [[E _]|C];
      [exact E|].
    destruct C as (? & ? & ? & ? & _ & E & _). contradiction.
  - intros Hs. unfold modify_movie. rewrite Hs. reflexivity.
  - intros Hs Hne Hy. unfold modify_movie.
    destruct (search_movies d (strip t)) as [|movie rest]; [contradiction|].
    destruct (strip ny) as [|c s]; [contradiction|].
    rewrite Hy. reflexivity.
  - apply modify_movie_messages.
Qed.

(** X11. When [modify_movie] goes through.  If the search returns
    [target :: others], the three texts typed can be bound (no lone
    surrogate), the year line is empty or reads as an integer within 64
    bits, the rating line is empty or reads as a float within the range,
    and at least one of the five lines is not blank, then the record is
    reported as modified and the new table is the old one where the row
    with [target]'s id holds the values typed, in place. *)
Theorem modify_movie_succeeds (d : database) (t nt nd ng ny nr : str)
    (target : Movie) (others : list Movie) (oy orr : option sqlval) :
  search_movies d (strip t) = target :: others ->
  in_i64 (movie_id target) = true ->
  encodable (strip nt) = true -> encodable (strip nd) = true ->
  encodable (strip ng) = true ->
  (strip ny = [] /\ oy = None
   \/ exists y, strip ny <> [] /\ py_int (strip ny) = Some y
                /\ in_i64 y = true /\ oy = Some (SInt y)) ->
  (strip nr = [] /\ orr = None
   \/ exists f, strip nr <> [] /\ py_float (strip nr) = Some f
                /\ float_le f_1_0 f && float_le f f_10_0 = true
                /\ orr = Some (SReal f)) ->
  ~ (strip nt = [] /\ strip nd = [] /\ strip ng = []
     /\ strip ny = [] /\ strip nr = []) ->
  modify_movie d t nt nd ng ny nr
  = ({| rows := (fun m => if movie_id m =? movie_id target
                          then updated m (strip nt) (strip nd) (strip ng) oy orr
                          else m) <$> rows d;
        sequence := sequence d |}, MsgModified).
Proof. apply modify_movie_valid. Qed.

(** ** Deleting, again *)

(** With distinct ids, a row of the table has the id of a selected row
    only if it is selected itself. *)
Lemma selected_by_id (l sel : list Movie) (m : Movie) :
  NoDup (movie_id <$> l) -> (forall x, x ∈ sel -> x ∈ l) -> m ∈ l ->
  movie_id m ∈ (movie_id <$> sel) <-> m ∈ sel.
Proof.
  intros Hnd Hsub Hm. split.
  - intros Hi. apply list_elem_of_fmap in Hi as (m' & Hid & Hm').
    destruct (split_at_row l m Hnd Hm) as (before & after & -> & Hneq).
    pose proof (Hsub m' Hm') as Hl.
    apply elem_of_app in Hl as [Hb|Hl].
    + exfalso. apply (Hneq m'); [apply elem_of_app; now left|congruence].
    + apply elem_of_cons in Hl as [->|Ha]; [exact Hm'|].
      exfalso. apply (Hneq m'); [apply elem_of_app; now right|congruence].
  - intros Hs. apply list_elem_of_fmap. now exists m.
Qed.

Lemma delete_movies_rows (d : database) (a c t : str) :
  lower_is_y a = false -> lower_is_y c = true ->
  rows (fst (delete_movies d a c t))
  = filter (fun m => movie_id m ∉ (movie_id <$> search_movies d (strip t)))
           (rows d).
Proof.
  intros Ha Hc. unfold delete_movies. rewrite Ha, Hc.
  destruct (search_movies d (strip t)) as [|m ms] eqn:Hs.
  - cbn [fst fmap list_fmap]. symmetry. apply filter_no_id.
  - cbn [fst executemany_delete rows]. apply fold_delete_id.
Qed.

Lemma search_movies_elem (d : database) (x : str) (m : Movie) :
  m ∈ search_movies d x -> m ∈ rows d.
Proof. intros H. exact (elem_of_sublist _ _ _ H (search_movies_sublist d x)). Qed.

(** A match in a part of the table is a match in the table. *)
Lemma search_movies_mono (d d' : database) (x : str) (m : Movie) :
  m ∈ search_movies d' x -> m ∈ rows d -> m ∈ search_movies d x.
Proof.
  destruct x as [|c x]; [intros _ H; exact H|].
  unfold search_movies, execute_select. cbn [bind_param].
  destruct (encodable _); cbn [bind_result];
    [|intros H; apply elem_of_nil in H; contradiction].
  unfold select_like. intros H Hm.
  destruct (rows d') as [|m' l']; [apply elem_of_nil in H; contradiction|].
  destruct (rows d) as [|m0 l0]; [apply elem_of_nil in Hm; contradiction|].
  destruct (_ <? _); [apply elem_of_nil in H; contradiction|].
  apply list_elem_of_filter in H as [H _].
  apply list_elem_of_filter. split; assumption.
Qed.

(** X12. Deleting by title removes every match and nothing else.  In a
    table whose ids are distinct, after a confirmed deletion by title the
    records left are exactly those that the search did not return, in
    the order they had, and the same search on the new table returns
    nothing. *)
Theorem delete_movies_then_search (d : database) (a c t : str) :
  NoDup (movie_id <$> rows d) ->
  lower_is_y a = false -> lower_is_y c = true ->
  (forall m, m ∈ rows (fst (delete_movies d a c t))
             <-> m ∈ rows d /\ m ∉ search_movies d (strip t))
  /\ rows (fst (delete_movies d a c t)) `sublist_of` rows d
  /\ search_movies (fst (delete_movies d a c t)) (strip t) = [].
Proof.
  intros Hnd Ha Hc. pose proof (delete_movies_rows d a c t Ha Hc) as E.
  assert (forall m, m ∈ rows (fst (delete_movies d a c t))
                    <-> m ∈ rows d /\ m ∉ search_movies d (strip t)) as Hmem.
  { intros m. rewrite E, list_elem_of_filter. split.
    - intros [Hi Hm]. split; [exact Hm|]. intros Hs. apply Hi.
      apply list_elem_of_fmap. now exists m.
    - intros [Hm Hs]. split; [|exact Hm]. intros Hi. apply Hs.
      apply (selected_by_id (rows d)); try assumption.
      intros x. apply search_movies_elem. }
  split; [exact Hmem|]. split.
  - rewrite E. apply sublist_filter.
  - apply elem_of_nil_inv. intros m Hm.
    pose proof (search_movies_elem _ _ _ Hm) as Hr.
    apply Hmem in Hr as [Hr Hn]. apply Hn.
    exact (search_movies_mono d _ _ m Hm Hr).
Qed.

(** X13. Deleting never gives an id back.  Whatever is typed, the id counter
    after [delete_movies] is the one before, every record left is a record
    of the table before, and a record added next gets an id that no
    record of a well-formed table ever had. *)
Theorem delete_movies_keeps_counter (d : database) (a c t : str)
    (t' di g yl rl : str) :
  table_ok d ->
  sequence (fst (delete_movies d a c t)) = sequence d
  /\ rows (fst (delete_movies d a c t)) `sublist_of` rows d
  /\ (snd (add_movie (fst (delete_movies d a c t)) t' di g yl rl) = MsgAdded ->
      exists m,
        rows (fst (add_movie (fst (delete_movies d a c t)) t' di g yl rl))
        = rows (fst (delete_movies d a c t)) ++ [m]
        /\ movie_id m = sequence d + 1
        /\ movie_id m ∉ (movie_id <$> rows d)).
Proof.
  intros (_ & Hle & _).
  assert (sequence (fst (delete_movies d a c t)) = sequence d
          /\ rows (fst (delete_movies d a c t)) `sublist_of` rows d) as [Hs Hsub].
  { unfold delete_movies.
    destruct (lower_is_y a), (lower_is_y c);
      try destruct (search_movies d (strip t)) as [|m ms] eqn:Hsr;
      cbn [fst delete_all executemany_delete sequence rows];
      (split; [reflexivity|]);
      first [reflexivity | apply sublist_nil_l
            | rewrite fold_delete_id; apply sublist_filter]. }
  split; [exact Hs|]. split; [exact Hsub|].
  intros Hm.
  destruct (add_movie_outcome (fst (delete_movies d a c t)) t' di g yl rl)
    as [(y & r & _ & _ & _ & E)|[_ H]].
  - rewrite E. cbn [fst rows]. eexists. split; [reflexivity|].
    cbn [movie_id]. rewrite Hs. split; [reflexivity|].
    intros Hi. apply list_elem_of_fmap in Hi as (m' & Hid & Hm').
    rewrite Forall_forall in Hle. specialize (Hle m' Hm'). lia.
  - rewrite Hm in H. destruct H as [H|[H|H]]; discriminate.
Qed.

(** ** Importing, again *)

(** An insert that goes through on one table goes through on any other,
    with the same five values. *)
Lemma execute_insert_any (d d' : database) (params : list pyval) :
  execute_insert d params = Ok d' ->
  exists t di g y r,
    forall e,
      execute_insert e params
      = Ok {| rows := rows e ++ [{| movie_id := sequence e + 1; title := t;
                                    director := di; genre := g; year := y;
                                    rating := r |}];
              sequence := sequence e + 1 |}.
Proof.
  unfold execute_insert.
  destruct (map_result bind_param params) as [p|]; [|discriminate].
  cbn [bind_result]. unfold insert_row.
  destruct p as [|s [|s0 [|s1 [|s2 [|s3 [|s4 p]]]]]]; try discriminate.
  destruct (text_column s) as [t|]; [|discriminate].
  destruct (text_column s0) as [di|]; [|discriminate].
  destruct (text_column s1) as [g|]; [|discriminate].
  destruct (year_column s2) as [y|]; [|discriminate].
  destruct (rating_column s3) as [r|]; [|discriminate].
  intros _. exists t, di, g, y, r. intros e. reflexivity.
Qed.

Lemma executemany_insert_any (sp : list (list pyval)) (d d' : database) :
  executemany_insert d sp = Ok d' ->
  exists fl,
    forall e,
      exists new,
        executemany_insert e sp
        = Ok {| rows := rows e ++ new;
                sequence := sequence e + Z.of_nat (length sp) |}
        /\ fields <$> new = fl
        /\ movie_id <$> new = seqZ (sequence e + 1) (Z.of_nat (length sp)).
Proof.
  revert d. induction sp as [|params rest IH]; intros d H.
  - exists []. intros e. exists []. cbn [executemany_insert length].
    rewrite app_nil_r, Z.add_0_r. destruct e. repeat split; reflexivity.
  - cbn [executemany_insert] in H.
    destruct (execute_insert d params) as [d1|] eqn:H1; [|discriminate].
    cbn [bind_result] in H.
    destruct (execute_insert_any _ _ _ H1) as (t & di & g & y & r & Hone).
    destruct (IH _ H) as (fl & Hrest).
    exists ((t, di, g, y, r) :: fl). intros e.
    destruct (Hrest {| rows := rows e ++ [{| movie_id := sequence e + 1; title := t;
                                             director := di; genre := g; year := y;
                                             rating := r |}];
                       sequence := sequence e + 1 |}) as (new & E & Hf & Hi).
    cbn [rows sequence] in E, Hi.
    eexists (_ :: new). cbn [executemany_insert]. rewrite Hone. cbn [bind_result].
    rewrite E. split; [|split].
    + f_equal. f_equal; [rewrite <- app_assoc; reflexivity|].
      cbn [length]. lia.
    + rewrite fmap_cons, Hf. reflexivity.
    + rewrite fmap_cons, Hi. cbn [movie_id length].
      rewrite (seqZ_cons (sequence e + 1) (Z.of_nat (S (length rest)))) by lia.
      f_equal. f_equal; lia.
Qed.

Lemma import_movies_inv (d d' : database) (fs : files) :
  import_movies d fs = (d', MsgImported) ->
  exists content movies items sp,
    fs !! JSON_IN_PATH = Some content
    /\ json_load content = Ok movies
    /\ iterate movies = Ok items
    /\ map_result movie_params items = Ok sp
    /\ executemany_insert d sp = Ok d'.
Proof.
  unfold import_movies, open_read.
  destruct (fs !! JSON_IN_PATH) as [content|] eqn:H1; cbn [bind_result];
    [|discriminate].
  destruct (json_load content) as [movies|e] eqn:H2; cbn [bind_result];
    [|destruct e; discriminate].
  destruct (iterate movies) as [items|e] eqn:H3; cbn [bind_result];
    [|destruct e; discriminate].
  destruct (map_result movie_params items) as [sp|e] eqn:H4;
    cbn [bind_result]; [|destruct e; discriminate].
  destruct (executemany_insert d sp) as [d1|e] eqn:H5;
    [|destruct e; discriminate].
  intros [= ->]. exists content, movies, items, sp.
  repeat split; first [assumption | reflexivity].
Qed.

Lemma import_movies_failed (d : database) (fs : files) :
  snd (import_movies d fs) <> MsgImported -> fst (import_movies d fs) = d.
Proof.
  unfold import_movies.
  destruct (let* content := open_read fs JSON_IN_PATH in _) as [d'|e].
  - intros H. contradiction H. reflexivity.
  - intros _. destruct e; reflexivity.
Qed.

Lemma import_movies_run (d : database) (fs : files) (content : list N)
    (movies : pyval) (items : list pyval) (sp : list (list pyval))
    (d' : database) :
  fs !! JSON_IN_PATH = Some content ->
  json_load content = Ok movies ->
  iterate movies = Ok items ->
  map_result movie_params items = Ok sp ->
  executemany_insert d sp = Ok d' ->
  import_movies d fs = (d', MsgImported).
Proof.
  intros H1 H2 H3 H4 H5. unfold import_movies, open_read.
  rewrite H1. cbn [bind_result]. rewrite H2. cbn [bind_result].
  rewrite H3. cbn [bind_result]. rewrite H4. cbn [bind_result].
  rewrite H5. reflexivity.
Qed.

Lemma map_result_length {A B} (f : A -> result B) (l : list A) (l' : list B) :
  map_result f l = Ok l' -> length l' = length l.
Proof.
  intros H. apply map_result_inv in H. symmetry. exact (Forall2_length _ _ _ H).
Qed.

(** X14. [import_movies] writes all or nothing.  Unless it reports the
    import, the table is exactly as it was: a record that is refused
    takes back the records inserted before it.  When it reports the
    import, the file was read as a sequence of items and the table is the
    old one followed by one new record per item, with the ids that follow
    the counter, one after the other. *)
Theorem import_movies_all_or_nothing (d : database) (fs : files) :
  (snd (import_movies d fs) <> MsgImported -> fst (import_movies d fs) = d)
  /\ (snd (import_movies d fs) = MsgImported ->
      exists content movies items new,
        fs !! JSON_IN_PATH = Some content
        /\ json_load content = Ok movies
        /\ iterate movies = Ok items
        /\ fst (import_movies d fs)
           = {| rows := rows d ++ new;
                sequence := sequence d + Z.of_nat (length items) |}
        /\ length new = length items
        /\ movie_id <$> new
           = seqZ (sequence d + 1) (Z.of_nat (length items))).
Proof.
  split; [apply import_movies_failed|].
  intros Hm.
  destruct (import_movies d fs) as [d' m] eqn:E. cbn [snd] in Hm. subst m.
  destruct (import_movies_inv _ _ _ E) as (content & movies & items & sp
                                           & H1 & H2 & H3 & H4 & H5).
  destruct (executemany_insert_any _ _ _ H5) as (fl & Hany).
  destruct (Hany d) as (new & E' & Hf & Hi).
  rewrite H5 in E'. injection E' as ->.
  rewrite (map_result_length _ _ _ H4) in Hi |- *.
  exists content, movies, items, new. cbn [fst].
  repeat (split; [assumption || reflexivity|]).
  split; [|exact Hi].
  apply (f_equal length) in Hi. rewrite length_fmap, length_seqZ in Hi. lia.
Qed.

(** X15. Importing the same file again doubles its records: nothing looks
    for a record that is already there.  After a reported import, a
    second import of the same file is reported too, and the table then
    holds the old records followed by the fields of the new ones twice. *)
Theorem import_movies_twice (d d1 : database) (fs : files) :
  import_movies d fs = (d1, MsgImported) ->
  exists new d2,
    rows d1 = rows d ++ new
    /\ import_movies d1 fs = (d2, MsgImported)
    /\ fields <$> rows d2
       = (fields <$> rows d) ++ (fields <$> new) ++ (fields <$> new).
Proof.
  intros E.
  destruct (import_movies_inv _ _ _ E) as (content & movies & items & sp
                                           & H1 & H2 & H3 & H4 & H5).
  destruct (executemany_insert_any _ _ _ H5) as (fl & Hany).
  destruct (Hany d) as (new & E1 & Hf & _).
  rewrite H5 in E1. injection E1 as ->.
  destruct (Hany {| rows := rows d ++ new;
                    sequence := sequence d + Z.of_nat (length sp) |})
    as (new2 & E2 & Hf2 & _).
  eexists new, _. split; [reflexivity|]. split.
  - exact (import_movies_run _ _ _ _ _ _ _ H1 H2 H3 H4 E2).
  - cbn [rows]. rewrite !fmap_app, Hf, Hf2, app_assoc. reflexivity.
Qed.

Lemma executemany_insert_each (sp : list (list pyval)) (d d' : database)
    (params : list pyval) :
  executemany_insert d sp = Ok d' -> params ∈ sp ->
  exists e e', execute_insert e params = Ok e'.
Proof.
  revert d. induction sp as [|p rest IH]; intros d H Hin.
  - apply elem_of_nil in Hin. contradiction.
  - cbn [executemany_insert] in H.
    destruct (execute_insert d p) as [d1|] eqn:H1; [|discriminate].
    cbn [bind_result] in H.
    apply elem_of_cons in Hin as [->|Hin].
    + exists d, d1. exact H1.
    + exact (IH _ H Hin).
Qed.

Lemma movie_params_rating (movie v : pyval) (params : list pyval) :
  movie_params movie = Ok params ->
  getitem movie (lit "rating") = Ok v ->
  exists t di g y, params = [t; di; g; y; v].
Proof.
  unfold movie_params. intros H Hr.
  destruct (getitem movie (lit "title")) as [t|]; [|discriminate].
  destruct (getitem movie (lit "director")) as [di|]; [|discriminate].
  destruct (getitem movie (lit "genre")) as [g|]; [|discriminate].
  destruct (getitem movie (lit "year")) as [y|]; [|discriminate].
  rewrite Hr in H. cbn [bind_result] in H. injection H as <-.
  exists t, di, g, y. reflexivity.
Qed.

Lemma execute_insert_rating (e e' : database) (t di g y : pyval) (r : float) :
  r <> S754_nan ->
  execute_insert e [t; di; g; y; PyFloat r] = Ok e' ->
  float_le f_1_0 r && float_le r f_10_0 = true.
Proof.
  intros Hn. unfold execute_insert. cbn [map_result].
  destruct (bind_param t) as [st|]; [|discriminate].
  destruct (bind_param di) as [sdi|]; [|discriminate].
  destruct (bind_param g) as [sg|]; [|discriminate].
  destruct (bind_param y) as [sy|]; [|discriminate].
  rewrite (bind_param_float r Hn). cbn [bind_result insert_row].
  destruct (text_column st); [|discriminate].
  destruct (text_column sdi); [|discriminate].
  destruct (text_column sg); [|discriminate].
  destruct (year_column sy); [|discriminate].
  unfold rating_column. cbn [real_affinity].
  rewrite (check_rating_real r Hn).
  destruct (float_le f_1_0 r && float_le r f_10_0); [reflexivity|discriminate].
Qed.

(** X16. One record with a rating outside the range stops the whole
    import.  When the file reads as a list of which one item has for
    rating a float that is a number and is not between 1.0 and 10.0, the
    import is not reported and the table is exactly as it was, whatever
    the other items hold. *)
Theorem import_movies_rating_out_of_range (d : database) (fs : files)
    (content : list N) (items : list pyval) (movie : pyval) (r : float) :
  fs !! JSON_IN_PATH = Some content ->
  json_load content = Ok (PyList items) ->
  movie ∈ items ->
  getitem movie (lit "rating") = Ok (PyFloat r) ->
  r <> S754_nan ->
  float_le f_1_0 r && float_le r f_10_0 = false ->
  snd (import_movies d fs) <> MsgImported
  /\ fst (import_movies d fs) = d.
Proof.
  intros H1 H2 Hin Hr Hn Hc.
  assert (snd (import_movies d fs) <> MsgImported) as Hm.
  { intros Hm. destruct (import_movies d fs) as [d' m] eqn:E.
    cbn [snd] in Hm. subst m.
    destruct (import_movies_inv _ _ _ E) as (content' & movies & items' & sp
                                             & H1' & H2' & H3 & H4 & H5).
    rewrite H1 in H1'. injection H1' as <-.
    rewrite H2 in H2'. injection H2' as <-.
    cbn [iterate] in H3. injection H3 as <-.
    apply map_result_inv in H4.
    apply list_elem_of_lookup_1 in Hin as [i Hi].
    destruct (Forall2_lookup_l _ _ _ _ _ H4 Hi) as (params & Hp & Hmp).
    destruct (movie_params_rating _ _ _ Hmp Hr) as (t & di & g & y & ->).
    apply list_elem_of_lookup_2 in Hp.
    destruct (executemany_insert_each _ _ _ _ H5 Hp) as (e & e' & He).
    pose proof (execute_insert_rating _ _ _ _ _ _ _ Hn He) as Ht.
    rewrite Hc in Ht. discriminate. }
  split; [exact Hm|]. exact (import_movies_failed d fs Hm).
Qed.

(** X26. What [import_movies] makes of a file it cannot use.  A missing
    file and a text that is not JSON have each their message.  A document
    that is a number, or that is an object or a text with something in
    it, ends in the message for other errors: a number is no sequence,
    and the keys of an object, like the characters of a text, are no
    records.  An empty list, an empty object and an empty text are
    reported as imported.  In every case the table is exactly as it
    was. *)
Theorem import_movies_bad_file (d : database) (fs : files) (content : list N) :
  (fs !! JSON_IN_PATH = None -> import_movies d fs = (d, MsgFileNotFound))
  /\ (fs !! JSON_IN_PATH = Some content ->
      (json_load content = Raise JSONDecodeError ->
       import_movies d fs = (d, MsgJsonError))
      /\ (forall z, json_load content = Ok (PyInt z) ->
          import_movies d fs = (d, MsgOtherError TypeError))
      /\ (forall kv kvs, json_load content = Ok (PyDict (kv :: kvs)) ->
          import_movies d fs = (d, MsgOtherError TypeError))
      /\ (forall c s, json_load content = Ok (PyStr (c :: s)) ->
          import_movies d fs = (d, MsgOtherError TypeError))
      /\ (json_load content = Ok (PyList [])
          \/ json_load content = Ok (PyDict [])
          \/ json_load content = Ok (PyStr []) ->
          import_movies d fs = (d, MsgImported))).
Proof.
  split.
  - intros H. unfold import_movies, open_read. rewrite H. reflexivity.
  - intros H. unfold import_movies, open_read. rewrite H. cbn [bind_result].
    split; [intros ->; reflexivity|].
    split; [intros z ->; reflexivity|].
    split; [intros kv kvs ->; destruct kv; reflexivity|].
    split; [intros c s ->; reflexivity|].
    intros [-> |[-> | ->]]; cbn; destruct d; reflexivity.
Qed.

(** ** The table stays well formed, ids are never reused *)

(** X17. [add_movie], [modify_movie] and [delete_movies] keep the table
    well formed, whatever is typed: ids stay distinct and within the
    counter, every year is a value the INTEGER column keeps and every
    rating is NULL or a REAL between 1.0 and 10.0. *)
Theorem table_ok_preserved (d : database) (a b c e f g : str) :
  table_ok d ->
  table_ok (fst (add_movie d a b c e f))
  /\ table_ok (fst (modify_movie d a b c e f g))
  /\ table_ok (fst (delete_movies d a b c)).
Proof.
  intros Hd. split; [|split].
  - apply add_movie_ok. exact Hd.
  - apply modify_movie_ok. exact Hd.
  - apply delete_movies_ok. exact Hd.
Qed.

(** X18. [import_movies] keeps the table well formed whatever the file
    holds, provided SQLite makes integers only of texts that fit 64
    bits: a record is stored as the columns keep it, or the import is
    refused as a whole. *)
Theorem import_movies_table_ok (d : database) (fs : files) :
  numeric_fits -> table_ok d -> table_ok (fst (import_movies d fs)).
Proof. apply import_movies_ok. Qed.

Lemma grows_refl (d : database) : grows d d.
Proof.
  split; [lia|]. intros m Hm. left. apply list_elem_of_fmap. now exists m.
Qed.

Lemma grows_trans (d1 d2 d3 : database) : grows d1 d2 -> grows d2 d3 -> grows d1 d3.
Proof.
  intros [H1 H1'] [H2 H2']. split; [lia|].
  intros m Hm. destruct (H2' m Hm) as [Hi|Hlt]; [|right; lia].
  apply list_elem_of_fmap in Hi as (m' & -> & Hm'). exact (H1' m' Hm').
Qed.

Lemma grows_same_ids (d d' : database) :
  sequence d' = sequence d -> movie_id <$> rows d' = movie_id <$> rows d ->
  grows d d'.
Proof.
  intros Hs Hi. split; [lia|]. intros m Hm. left. rewrite <- Hi.
  apply list_elem_of_fmap. now exists m.
Qed.

Lemma grows_sublist (d d' : database) :
  sequence d' = sequence d -> rows d' `sublist_of` rows d -> grows d d'.
Proof.
  intros Hs Hsub. split; [lia|]. intros m Hm. left.
  apply list_elem_of_fmap. exists m. split; [reflexivity|].
  exact (elem_of_sublist _ _ _ Hm Hsub).
Qed.

Lemma grows_append (d : database) (new : list Movie) (n : Z) :
  0 <= n -> Forall (fun m => sequence d < movie_id m) new ->
  grows d {| rows := rows d ++ new; sequence := sequence d + n |}.
Proof.
  intros Hn Hnew. split; [cbn [sequence]; lia|].
  intros m Hm. cbn [rows] in Hm. apply elem_of_app in Hm as [Hm|Hm].
  - left. apply list_elem_of_fmap. now exists m.
  - right. rewrite Forall_forall in Hnew. exact (Hnew m Hm).
Qed.

Lemma add_movie_grows (d : database) (t di g yl rl : str) :
  grows d (fst (add_movie d t di g yl rl)).
Proof.
  destruct (add_movie_outcome d t di g yl rl) as [(y & r & _ & _ & _ & E)|[E _]].
  - rewrite E. cbn [fst]. apply grows_append; [lia|].
    constructor; [cbn [movie_id]; lia|constructor].
  - rewrite E. apply grows_refl.
Qed.

Lemma modify_movie_grows (d : database) (t nt nd ng ny nr : str) :
  grows d (fst (modify_movie d t nt nd ng ny nr)).
Proof.
  destruct (modify_movie_cases d t nt nd ng ny nr) as [[E _]|C].
  - rewrite E. apply grows_refl.
  - destruct C as (movie & rest & oy & orr & _ & _ & _ & _ & E). rewrite E.
    apply grows_same_ids; [reflexivity|]. cbn [rows].
    rewrite <- list_fmap_compose. apply list_fmap_ext. intros i m _.
    unfold compose. destruct (movie_id m =? movie_id movie); reflexivity.
Qed.

Lemma delete_movies_grows (d : database) (a c t : str) :
  grows d (fst (delete_movies d a c t)).
Proof.
  unfold delete_movies.
  destruct (lower_is_y a), (lower_is_y c);
    try destruct (search_movies d (strip t)) as [|m ms] eqn:Hsr;
    cbn [fst]; try apply grows_refl.
  all: apply grows_sublist; [reflexivity|]; cbn [delete_all executemany_delete rows].
  all: first [apply sublist_nil_l | rewrite fold_delete_id; apply sublist_filter].
Qed.

Lemma import_movies_grows (d : database) (fs : files) :
  grows d (fst (import_movies d fs)).
Proof.
  destruct (import_movies d fs) as [d' m] eqn:E.
  assert (m = MsgImported \/ m <> MsgImported) as [->|Hm]
    by (destruct m; (left; reflexivity) || (right; discriminate)).
  - destruct (import_movies_inv _ _ _ E) as (content & movies & items & sp
                                             & _ & _ & _ & _ & H5).
    destruct (executemany_insert_any _ _ _ H5) as (fl & Hany).
    destruct (Hany d) as (new & E' & _ & Hi).
    rewrite H5 in E'. injection E' as ->. cbn [fst].
    apply grows_append; [lia|].
    apply Forall_forall. intros m Hin.
    assert (movie_id m ∈ seqZ (sequence d + 1) (Z.of_nat (length sp))) as Hs.
    { rewrite <- Hi. apply list_elem_of_fmap. now exists m. }
    apply elem_of_seqZ in Hs. lia.
  - pose proof (import_movies_failed d fs) as F. rewrite E in F.
    cbn [fst snd] in F |- *. rewrite (F Hm). apply grows_refl.
Qed.

(** X19. No function gives an id a second time.  After [add_movie],
    [modify_movie], [delete_movies] or [import_movies], the counter has
    not gone back and every record has the id of a record that was there
    before or an id beyond the counter as it was.  So in a well-formed
    table an id that is within the counter and is held by no record, the
    id of a record deleted earlier, is still held by none. *)
Theorem ids_never_reused (d : database) (fs : files) (a b c e f g : str) :
  grows d (fst (add_movie d a b c e f))
  /\ grows d (fst (modify_movie d a b c e f g))
  /\ grows d (fst (delete_movies d a b c))
  /\ grows d (fst (import_movies d fs))
  /\ forall d' i,
       grows d d' -> i <= sequence d -> i ∉ (movie_id <$> rows d) ->
       i ∉ (movie_id <$> rows d').
Proof.
  split; [apply add_movie_grows|]. split; [apply modify_movie_grows|].
  split; [apply delete_movies_grows|]. split; [apply import_movies_grows|].
  intros d' i [_ Hg] Hi Hn Hin.
  apply list_elem_of_fmap in Hin as (m & -> & Hm).
  destruct (Hg m Hm) as [H1|H1]; [contradiction|lia].
Qed.

(** ** The session *)

(** What a turn can do to the table: nothing, or what one of the four
    functions that write does. *)
Lemma turn_db (stdin : list str) (w : world) :
  let d := w_db w in
  let d' := w_db (state_of (turn stdin w)) in
  d' = d
  \/ d' = fst (import_movies d (w_files w))
  \/ (exists t di g y r, d' = fst (add_movie d t di g y r))
  \/ (exists t nt nd ng ny nr, d' = fst (modify_movie d t nt nd ng ny nr))
  \/ (exists a c t, d' = fst (delete_movies d a c t)).
Proof.
  cbv zeta. unfold turn.
  destruct stdin as [|choice rest]; [left; reflexivity|].
  destruct (decide (strip choice = lit "1")) as [_|_].
  { unfold run_import. cbn [say w_db w_files].
    destruct (import_movies (w_db w) (w_files w)) as [d m].
    right. left. reflexivity. }
  destruct (decide (strip choice = lit "2")) as [_|_].
  { unfold run_search. destruct rest as [|yn [|title rest]];
      try destruct (lower_is_y yn); left; reflexivity. }
  destruct (decide (strip choice = lit "3")) as [_|_].
  { unfold run_add. destruct rest as [|t [|di [|g [|y rest]]]];
      try (left; reflexivity).
    destruct (py_int (strip y)); [|left; reflexivity].
    destruct rest as [|r rest]; [left; reflexivity|].
    cbn [say w_db w_files].
    destruct (add_movie (w_db w) t di g y r) as [d m] eqn:E.
    right. right. left. exists t, di, g, y, r. rewrite E. reflexivity. }
  destruct (decide (strip choice = lit "4")) as [_|_].
  { unfold run_modify. destruct rest as [|t rest]; [left; reflexivity|].
    cbn [say w_db w_files].
    destruct (search_movies (w_db w) (strip t)) as [|movie movies];
      [left; reflexivity|].
    destruct rest as [|nt [|nd [|ng [|ny [|nr rest]]]]]; try (left; reflexivity).
    destruct (modify_movie (w_db w) t nt nd ng ny nr) as [d m] eqn:E.
    right. right. right. left. exists t, nt, nd, ng, ny, nr.
    rewrite E. reflexivity. }
  destruct (decide (strip choice = lit "5")) as [_|_].
  { unfold run_delete. destruct rest as [|a rest]; [left; reflexivity|].
    cbn [say w_db w_files].
    destruct (lower_is_y a).
    - destruct rest as [|c rest]; [left; reflexivity|].
      destruct (delete_movies (w_db w) a c []) as [d m] eqn:E.
      right. right. right. right. exists a, c, []. rewrite E. reflexivity.
    - destruct rest as [|t rest]; [left; reflexivity|].
      destruct (search_movies (w_db w) (strip t)) as [|movie movies];
        [left; reflexivity|].
      destruct rest as [|c rest]; [left; reflexivity|].
      destruct (delete_movies (w_db w) a c t) as [d m] eqn:E.
      right. right. right. right. exists a, c, t. rewrite E. reflexivity. }
  destruct (decide (strip choice = lit "6")) as [_|_].
  { unfold run_export. destruct rest as [|a rest]; [left; reflexivity|].
    cbn [say w_db w_files].
    destruct (lower_is_y a).
    - destruct (export_movies _ _ _ _); left; reflexivity.
    - destruct rest as [|t rest]; [left; reflexivity|].
      destruct (export_movies _ _ _ _); left; reflexivity. }
  destruct (decide (strip choice = lit "7")) as [_|_]; left; reflexivity.
Qed.

(** What a turn can do to the files: nothing, or what [export_movies]
    does. *)
Lemma turn_files (stdin : list str) (w : world) :
  let f' := w_files (state_of (turn stdin w)) in
  f' = w_files w
  \/ exists a t, f' = fst (export_movies (w_db w) (w_files w) a t).
Proof.
  cbv zeta. unfold turn.
  destruct stdin as [|choice rest]; [left; reflexivity|].
  destruct (decide (strip choice = lit "1")) as [_|_].
  { unfold run_import. cbn [say w_db w_files].
    destruct (import_movies (w_db w) (w_files w)) as [d m].
    left. reflexivity. }
  destruct (decide (strip choice = lit "2")) as [_|_].
  { unfold run_search. destruct rest as [|yn [|title rest]];
      try destruct (lower_is_y yn); left; reflexivity. }
  destruct (decide (strip choice = lit "3")) as [_|_].
  { unfold run_add. destruct rest as [|t [|di [|g [|y rest]]]];
      try (left; reflexivity).
    destruct (py_int (strip y)); [|left; reflexivity].
    destruct rest as [|r rest]; [left; reflexivity|].
    cbn [say w_db w_files].
    destruct (add_movie (w_db w) t di g y r) as [d m] eqn:E.
    left. reflexivity. }
  destruct (decide (strip choice = lit "4")) as [_|_].
  { unfold run_modify. destruct rest as [|t rest]; [left; reflexivity|].
    cbn [say w_db w_files].
    destruct (search_movies (w_db w) (strip t)) as [|movie movies];
      [left; reflexivity|].
    destruct rest as [|nt [|nd [|ng [|ny [|nr rest]]]]]; try (left; reflexivity).
    destruct (modify_movie (w_db w) t nt nd ng ny nr) as [d m] eqn:E.
    left. reflexivity. }
  destruct (decide (strip choice = lit "5")) as [_|_].
  { unfold run_delete. destruct rest as [|a rest]; [left; reflexivity|].
    cbn [say w_db w_files].
    destruct (lower_is_y a).
    - destruct rest as [|c rest]; [left; reflexivity|].
      destruct (delete_movies (w_db w) a c []) as [d m] eqn:E.
      left. reflexivity.
    - destruct rest as [|t rest]; [left; reflexivity|].
      destruct (search_movies (w_db w) (strip t)) as [|movie movies];
        [left; reflexivity|].
      destruct rest as [|c rest]; [left; reflexivity|].
      destruct (delete_movies (w_db w) a c t) as [d m] eqn:E.
      left. reflexivity. }
  destruct (decide (strip choice = lit "6")) as [_|_].
  { unfold run_export. destruct rest as [|a rest]; [left; reflexivity|].
    cbn [say w_db w_files].
    destruct (lower_is_y a) eqn:Ha.
    - destruct (export_movies (w_db w) (w_files w) a []) as [f m] eqn:E.
      right. exists a, []. rewrite E. reflexivity.
    - destruct rest as [|t rest]; [left; reflexivity|].
      destruct (export_movies (w_db w) (w_files w) a t) as [f m] eqn:E.
      right. exists a, t. rewrite E. reflexivity. }
  destruct (decide (strip choice = lit "7")) as [_|_]; left; reflexivity.
Qed.

(** A turn that goes on has read at least one line, and leaves lines
    that were there. *)
Lemma turn_reads (stdin rest : list str) (w w' : world) :
  turn stdin w = Continue w' rest ->
  (length rest < length stdin)%nat /\ (forall line, line ∈ rest -> line ∈ stdin).
Proof.
  assert (forall (l : list str) x, (forall line, line ∈ l -> line ∈ x :: l)) as Hcons.
  { intros l x line H. now right. }
  unfold turn.
  destruct stdin as [|choice l]; [discriminate|].
  assert (forall r, (length r <= length l)%nat /\ (forall line, line ∈ r -> line ∈ l) ->
                    (length r < length (choice :: l))%nat
                    /\ (forall line, line ∈ r -> line ∈ choice :: l)) as Hup.
  { intros r [H1 H2]. split; [cbn [length]; lia|]. intros line H. right. auto. }
  intros H. apply Hup. clear Hup. revert H.
  destruct (decide (strip choice = lit "1")) as [_|_].
  { unfold run_import. destruct (import_movies _ _). intros [= _ <-].
    split; [lia|auto]. }
  destruct (decide (strip choice = lit "2")) as [_|_].
  { unfold run_search. destruct l as [|yn [|title l]];
      try destruct (lower_is_y yn); try discriminate; intros [= _ <-];
      (split; [cbn [length]; lia|]); intros line H; repeat (try assumption; right). }
  destruct (decide (strip choice = lit "3")) as [_|_].
  { unfold run_add. destruct l as [|t [|di [|g [|y l]]]]; try discriminate.
    - intros [= _ <-]. split; [cbn [length]; lia|].
      intros line H. apply elem_of_nil in H. contradiction.
    - destruct (py_int (strip y)).
      + destruct l as [|r l].
        * intros [= _ <-]. split; [cbn [length]; lia|].
          intros line H. apply elem_of_nil in H. contradiction.
        * destruct (add_movie _ _ _ _ _ _). intros [= _ <-].
          split; [cbn [length]; lia|].
          intros line H; repeat (try assumption; right).
      + intros [= _ <-]. split; [cbn [length]; lia|].
        intros line H; repeat (try assumption; right). }
  destruct (decide (strip choice = lit "4")) as [_|_].
  { unfold run_modify. destruct l as [|t l]; [discriminate|].
    destruct (search_movies _ _) as [|movie movies].
    - intros [= _ <-]. split; [cbn [length]; lia|].
      intros line H; repeat (try assumption; right).
    - destruct l as [|nt [|nd [|ng [|ny [|nr l]]]]]; try discriminate.
      destruct (modify_movie _ _ _ _ _ _ _). intros [= _ <-].
      split; [cbn [length]; lia|].
      intros line H; repeat (try assumption; right). }
  destruct (decide (strip choice = lit "5")) as [_|_].
  { unfold run_delete. destruct l as [|a l]; [discriminate|].
    destruct (lower_is_y a).
    - destruct l as [|c l]; [discriminate|].
      destruct (delete_movies _ _ _ _). intros [= _ <-].
      split; [cbn [length]; lia|].
      intros line H; repeat (try assumption; right).
    - destruct l as [|t l]; [discriminate|].
      destruct (search_movies _ _) as [|movie movies].
      + intros [= _ <-]. split; [cbn [length]; lia|].
        intros line H; repeat (try assumption; right).
      + destruct l as [|c l]; [discriminate|].
        destruct (delete_movies _ _ _ _). intros [= _ <-].
        split; [cbn [length]; lia|].
        intros line H; repeat (try assumption; right). }
  destruct (decide (strip choice = lit "6")) as [_|_].
  { unfold run_export. destruct l as [|a l]; [discriminate|].
    destruct (lower_is_y a).
    - destruct (export_movies _ _ _ _). intros [= _ <-].
      split; [cbn [length]; lia|].
      intros line H; repeat (try assumption; right).
    - destruct l as [|t l]; [discriminate|].
      destruct (export_movies _ _ _ _). intros [= _ <-].
      split; [cbn [length]; lia|].
      intros line H; repeat (try assumption; right). }
  destruct (decide (strip choice = lit "7")) as [_|_]; [discriminate|].
  intros [= _ <-]. split; [lia|auto].
Qed.

(** What the four functions that write keep, a session keeps. *)
Lemma main_loop_db (P : database -> Prop) :
  (forall d fs, P d -> P (fst (import_movies d fs))) ->
  (forall d t di g y r, P d -> P (fst (add_movie d t di g y r))) ->
  (forall d t nt nd ng ny nr, P d -> P (fst (modify_movie d t nt nd ng ny nr))) ->
  (forall d a c t, P d -> P (fst (delete_movies d a c t))) ->
  forall fuel stdin w, P (w_db w) -> P (w_db (fst (main_loop fuel stdin w))).
Proof.
  intros Hi Ha Hm Hd. induction fuel as [|fuel IH]; intros stdin w Hw; [exact Hw|].
  cbn [main_loop].
  assert (P (w_db (state_of (turn stdin w)))) as Hs.
  { destruct (turn_db stdin w) as [E|[E|[E|[E|E]]]].
    - rewrite E. exact Hw.
    - rewrite E. apply Hi, Hw.
    - destruct E as (t & di & g & y & r & ->). apply Ha, Hw.
    - destruct E as (t & nt & nd & ng & ny & nr & ->). apply Hm, Hw.
    - destruct E as (a & c & t & ->). apply Hd, Hw. }
  destruct (turn stdin w) as [w' rest|w' e]; cbn [state_of fst] in *.
  - apply IH. exact Hs.
  - exact Hs.
Qed.

Lemma main_loop_files (P : files -> Prop) :
  (forall d fs a t, P fs -> P (fst (export_movies d fs a t))) ->
  forall fuel stdin w, P (w_files w) -> P (w_files (fst (main_loop fuel stdin w))).
Proof.
  intros He. induction fuel as [|fuel IH]; intros stdin w Hw; [exact Hw|].
  cbn [main_loop].
  assert (P (w_files (state_of (turn stdin w)))) as Hs.
  { destruct (turn_files stdin w) as [E|(a & t & E)]; rewrite E.
    - exact Hw.
    - apply He, Hw. }
  destruct (turn stdin w) as [w' rest|w' e]; cbn [state_of fst] in *.
  - apply IH. exact Hs.
  - exact Hs.
Qed.

(** A turn stops the program at the end of the console, or at choice 7. *)
Lemma turn_stops (stdin : list str) (w w' : world) (e : ending) :
  turn stdin w = Stop w' e ->
  e = EndOfInput
  \/ (e = Exited
      /\ w' = say [Bye] (say [Menu] w)
      /\ exists choice rest, stdin = choice :: rest /\ strip choice = lit "7").
Proof.
  unfold turn.
  destruct stdin as [|choice l]; [intros [= _ <-]; left; reflexivity|].
  destruct (decide (strip choice = lit "1")) as [_|_].
  { unfold run_import. destruct (import_movies _ _). discriminate. }
  destruct (decide (strip choice = lit "2")) as [_|_].
  { unfold run_search. destruct l as [|yn [|title l]];
      try destruct (lower_is_y yn); try discriminate;
      intros [= _ <-]; left; reflexivity. }
  destruct (decide (strip choice = lit "3")) as [_|_].
  { unfold run_add. destruct l as [|t [|di [|g [|y l]]]];
      try (intros [= _ <-]; left; reflexivity); try discriminate.
    destruct (py_int (strip y)); [|discriminate].
    destruct l as [|r l]; [discriminate|].
    destruct (add_movie _ _ _ _ _ _). discriminate. }
  destruct (decide (strip choice = lit "4")) as [_|_].
  { unfold run_modify. destruct l as [|t l]; [intros [= _ <-]; left; reflexivity|].
    destruct (search_movies _ _) as [|movie movies]; [discriminate|].
    destruct l as [|nt [|nd [|ng [|ny [|nr l]]]]];
      try (intros [= _ <-]; left; reflexivity).
    destruct (modify_movie _ _ _ _ _ _ _). discriminate. }
  destruct (decide (strip choice = lit "5")) as [_|_].
  { unfold run_delete. destruct l as [|a l]; [intros [= _ <-]; left; reflexivity|].
    destruct (lower_is_y a).
    - destruct l as [|c l]; [intros [= _ <-]; left; reflexivity|].
      destruct (delete_movies _ _ _ _). discriminate.
    - destruct l as [|t l]; [intros [= _ <-]; left; reflexivity|].
      destruct (search_movies _ _) as [|movie movies]; [discriminate|].
      destruct l as [|c l]; [intros [= _ <-]; left; reflexivity|].
      destruct (delete_movies _ _ _ _). discriminate. }
  destruct (decide (strip choice = lit "6")) as [_|_].
  { unfold run_export. destruct l as [|a l]; [intros [= _ <-]; left; reflexivity|].
    destruct (lower_is_y a).
    - destruct (export_movies _ _ _ _). discriminate.
    - destruct l as [|t l]; [intros [= _ <-]; left; reflexivity|].
      destruct (export_movies _ _ _ _). discriminate. }
  destruct (decide (strip choice = lit "7")) as [H7|_]; [|discriminate].
  intros [= <- <-]. right. split; [reflexivity|]. split; [reflexivity|].
  exists choice, l. split; [reflexivity|exact H7].
Qed.

Lemma main_loop_ends (fuel : nat) (stdin : list str) (w : world) :
  (length stdin < fuel)%nat ->
  snd (main_loop fuel stdin w) <> OutOfFuel
  /\ (snd (main_loop fuel stdin w) = Exited ->
      last (w_out (fst (main_loop fuel stdin w))) = Some Bye
      /\ exists line, line ∈ stdin /\ strip line = lit "7").
Proof.
  revert stdin w. induction fuel as [|fuel IH]; intros stdin w H; [lia|].
  cbn [main_loop]. destruct (turn stdin w) as [w' rest|w' e] eqn:E.
  - apply turn_reads in E as [E Hin].
    destruct (IH rest w' ltac:(lia)) as [H1 H2]. split; [exact H1|].
    intros Hx. destruct (H2 Hx) as [Hl (line & Hline & H7)].
    split; [exact Hl|]. exists line. split; [apply Hin, Hline|exact H7].
  - cbn [fst snd].
    destruct (turn_stops _ _ _ _ E) as [->|(-> & -> & choice & l & -> & H7)].
    + split; [discriminate|discriminate].
    + split; [discriminate|]. intros _. split.
      * unfold say. cbn [w_out]. apply last_snoc.
      * exists choice. split; [left|exact H7].
Qed.

(** X20. A session keeps the table well formed.  Whatever the database
    file held that was well formed, whatever the files hold and whatever
    is typed, the table that [main] leaves, at the exit or at the end of
    the console, is well formed, provided SQLite makes integers only of
    texts that fit 64 bits. *)
Theorem main_table_ok (stored : option database) (fs : files) (stdin : list str) :
  numeric_fits ->
  (forall d, stored = Some d -> table_ok d) ->
  table_ok (w_db (fst (main stored fs stdin))).
Proof.
  intros Hnum Hst. unfold main. apply main_loop_db.
  - intros d f. apply import_movies_ok. exact Hnum.
  - intros d t di g y r. apply add_movie_ok.
  - intros d t nt nd ng ny nr. apply modify_movie_ok.
  - intros d a c t. apply delete_movies_ok.
  - cbn [w_db]. destruct stored as [d|]; cbn [create_table default].
    + apply Hst. reflexivity.
    + apply table_ok_empty.
Qed.

(** X21. A session gives no id a second time.  From the table [main]
    starts with to the table it leaves, the counter does not go back and
    every record has the id of a record of the start or an id beyond
    the counter of the start; so an id within that counter that no
    record held at the start is held by none at the end. *)
Theorem main_ids_never_reused (stored : option database) (fs : files)
    (stdin : list str) (i : Z) :
  grows (create_table stored) (w_db (fst (main stored fs stdin)))
  /\ (i <= sequence (create_table stored) ->
      i ∉ (movie_id <$> rows (create_table stored)) ->
      i ∉ (movie_id <$> rows (w_db (fst (main stored fs stdin))))).
Proof.
  assert (grows (create_table stored) (w_db (fst (main stored fs stdin)))) as Hg.
  { unfold main. apply (main_loop_db (grows (create_table stored))).
    - intros d f H. eapply grows_trans; [exact H|apply import_movies_grows].
    - intros d t di g y r H. eapply grows_trans; [exact H|apply add_movie_grows].
    - intros d t nt nd ng ny nr H.
      eapply grows_trans; [exact H|apply modify_movie_grows].
    - intros d a c t H. eapply grows_trans; [exact H|apply delete_movies_grows].
    - apply grows_refl. }
  split; [exact Hg|]. intros Hi Hn Hin.
  apply list_elem_of_fmap in Hin as (m & -> & Hm).
  destruct Hg as [_ Hg]. destruct (Hg m Hm) as [H1|H1]; [contradiction|lia].
Qed.

(** X22. Of the files it opens itself a session writes [exported.json]
    only: every path other than [exported.json] and than the files of
    SQLite ([movies.db] and the files whose name begins with it, which the
    session does write), [movies.json] among them, holds at the end what
    it held at the start. *)
Theorem main_files (stored : option database) (fs : files) (stdin : list str)
    (path : string) :
  path <> JSON_OUT_PATH ->
  sqlite_file path = false ->
  w_files (fst (main stored fs stdin)) !! path = fs !! path.
Proof.
  intros Hp _. unfold main.
  apply (main_loop_files (fun f => f !! path = fs !! path)); [|reflexivity].
  intros d f a t H. unfold export_movies.
  destruct (if lower_is_y a then _ else _) as [|m ms]; cbn [fst]; [exact H|].
  rewrite lookup_insert_ne by (intros E; apply Hp; symmetry; exact E). exact H.
Qed.

(** X23. A session always ends, and it ends in one of two ways.  Every
    turn reads at least one line, so [main] stops after at most one turn
    more than there are lines: at choice 7, or when the console is at its
    end.  It exits by choice 7 only if some line of the console, stripped,
    is "7", and then the last thing printed is the farewell; with no such
    line the session ends at the end of the console. *)
Theorem main_ends (stored : option database) (fs : files) (stdin : list str) :
  snd (main stored fs stdin) <> OutOfFuel
  /\ (snd (main stored fs stdin) = Exited ->
      last (w_out (fst (main stored fs stdin))) = Some Bye
      /\ exists line, line ∈ stdin /\ strip line = lit "7")
  /\ ((forall line, line ∈ stdin -> strip line <> lit "7") ->
      snd (main stored fs stdin) = EndOfInput).
Proof.
  unfold main.
  destruct (main_loop_ends (S (length stdin)) stdin
              {| w_db := create_table stored; w_files := fs; w_out := [] |}
              ltac:(lia)) as [H1 H2].
  split; [exact H1|]. split; [exact H2|].
  intros Hno.
  destruct (snd (main_loop _ _ _)) eqn:E.
  - destruct (H2 eq_refl) as [_ (line & Hin & H7)]. destruct (Hno line Hin H7).
  - reflexivity.
  - contradiction H1. reflexivity.
Qed.

Lemma turn_choice (choice : str) (rest : list str) (w : world) :
  (strip choice = lit "2" -> turn (choice :: rest) w = run_search rest (say [Menu] w))
  /\ (strip choice = lit "3" -> turn (choice :: rest) w = run_add rest (say [Menu] w))
  /\ (strip choice = lit "7" ->
      turn (choice :: rest) w = Stop (say [Bye] (say [Menu] w)) Exited).
Proof.
  unfold turn. repeat split; intros ->;
    repeat (destruct (decide _) as [E|E];
            [try (vm_compute in E; discriminate E)
            |try (contradiction E; reflexivity); clear E]);
    try reflexivity.
Qed.

(** X24. The console ending inside [add_movie].  The title, the director
    and the genre are read before the [try]: when the console ends there,
    the program ends with it.  The year is read inside: when the console
    ends after the genre, the error is caught and printed, nothing is
    added, the menu comes again, and the program ends at the next
    prompt. *)
Theorem main_console_ends_in_add (stored : option database) (fs : files)
    (choice t di g : str) :
  strip choice = lit "3" ->
  main stored fs [choice; t; di]
  = ({| w_db := create_table stored; w_files := fs; w_out := [Menu] |},
     EndOfInput)
  /\ main stored fs [choice; t; di; g]
     = ({| w_db := create_table stored; w_files := fs;
           w_out := [Menu; OtherErrorEOF; Menu] |}, EndOfInput).
Proof.
  intros H3. unfold main. split.
  - cbn [length main_loop].
    rewrite (proj1 (proj2 (turn_choice choice _ _)) H3). reflexivity.
  - cbn [length main_loop].
    rewrite (proj1 (proj2 (turn_choice choice _ _)) H3). reflexivity.
Qed.

(** X25. Adding, then listing, then leaving.  A session that chooses 3
    and types a record with a valid year and rating, chooses 2 and
    answers y, then chooses 7, leaves the table with the new record at
    its end under the next id, leaves the files alone, and prints: the
    menu, the record as added, the menu, the report of the whole table
    with the new record last, the menu, the farewell.  The three texts
    typed are texts that can be bound (no lone surrogate). *)
Theorem main_add_then_list (stored : option database) (fs : files)
    (c3 t di g yl rl c2 yn c7 : str) (y : Z) (r : float) :
  strip c3 = lit "3" -> strip c2 = lit "2" -> strip c7 = lit "7" ->
  lower_is_y yn = true ->
  encodable (strip t) = true -> encodable (strip di) = true ->
  encodable (strip g) = true ->
  py_int (strip yl) = Some y -> in_i64 y = true ->
  py_float (strip rl) = Some r ->
  float_le f_1_0 r && float_le r f_10_0 = true ->
  main stored fs [c3; t; di; g; yl; rl; c2; yn; c7]
  = ({| w_db := {| rows := rows (create_table stored)
                           ++ [{| movie_id := sequence (create_table stored) + 1;
                                  title := strip t; director := strip di;
                                  genre := strip g; year := SInt y;
                                  rating := SReal r |}];
                   sequence := sequence (create_table stored) + 1 |};
        w_files := fs;
        w_out := [Menu; Status MsgAdded; Menu]
                 ++ list_rpt (rows (create_table stored)
                              ++ [{| movie_id := sequence (create_table stored) + 1;
                                     title := strip t; director := strip di;
                                     genre := strip g; year := SInt y;
                                     rating := SReal r |}])
                 ++ [Menu; Bye] |}, Exited).
Proof.
  intros H3 H2 H7 Hyn Ht Hdi Hg Hy Hi Hr Hc. unfold main.
  cbn [length main_loop].
  rewrite (proj1 (proj2 (turn_choice c3 _ _)) H3).
  unfold run_add. rewrite Hy.
  cbn [say w_db w_files w_out].
  rewrite (add_movie_valid _ t di g yl rl y r Ht Hdi Hg Hy Hi Hr Hc).
  rewrite (proj1 (turn_choice c2 _ _) H2).
  unfold run_search. rewrite Hyn.
  rewrite (proj2 (proj2 (turn_choice c7 _ _)) H7).
  unfold say. cbn [w_db w_files w_out search_movies rows].
  f_equal. f_equal. rewrite <- !app_assoc. reflexivity.
Qed.

End Movies.

(** * The theorems at concrete inputs *)

Lemma display_width_and_padding_witness :
  get_display_width cjk_width [65%N; 20013%N; 66%N] = 4
  /\ pad_string cjk_width [20013%N] 4 = [20013%N; 32%N; 32%N]
  /\ pad_string cjk_width [20013%N; 20013%N] 3 = [20013%N; 20013%N].
Proof.
  pose proof (display_width_and_padding cjk_width eq_refl eq_refl eq_refl eq_refl)
    as (_ & _ & _ & H3 & H4 & H5 & _).
  split; [exact H3|]. split; [exact H4|].
  apply H5. vm_compute. discriminate.
Defined.


Lemma add_movie_rating_bounds_witness :
  snd (add_movie (fun _ => Some 2020) (fun _ => Some f_8_8)
                 (fun _ => []) (fun _ => None) catalogue
                 (lit "Tenet") (lit "Nolan") (lit "Action")
                 (lit "2020") (lit "8.8")) = MsgAdded.
Proof.
  apply (proj1 (add_movie_rating_bounds
                  (fun _ => Some 2020) (fun _ => Some f_8_8)
                  (fun _ => []) (fun _ => None) catalogue
                  (lit "Tenet") (lit "Nolan") (lit "Action")
                  (lit "2020") (lit "8.8") 2020 f_8_8
                  eq_refl eq_refl eq_refl eq_refl eq_refl eq_refl eq_refl)).
  exists (finite_value 4953959590107546 (-49)).
  split; [reflexivity|]. split; vm_compute; discriminate.
Defined.

Lemma delete_movies_exact_witness :
  rows (fst (delete_movies catalogue (lit "n") (lit "y") (lit "Incep")))
  = [interstellar].
Proof.
  destruct (delete_movies_exact catalogue) as (_ & _ & _ & H & _).
  rewrite (H (lit "n") (lit "y") (lit "Incep") eq_refl eq_refl).
  vm_compute. reflexivity.
Defined.

Lemma modify_movie_nothing_witness :
  modify_movie (fun _ => None) (fun _ => None) (fun _ => []) (fun _ => None)
               catalogue (lit "Incep") [] [] [] [] (lit "  ")
  = (catalogue, MsgNothingModified).
Proof.
  apply modify_movie_nothing; try reflexivity.
  vm_compute. discriminate.
Defined.

Lemma export_movies_file_witness :
  export_movies sample_repr catalogue ∅ (lit "y") []
  = (<[JSON_OUT_PATH :=
         utf8_encode (array_text sample_repr inception [interstellar])]> ∅,
     MsgExported).
Proof.
  apply (proj1 (export_movies_file sample_repr catalogue ∅ (lit "y") [])
           inception [interstellar] eq_refl).
Defined.

Lemma export_import_roundtrip_witness :
  export_movies sample_repr catalogue ∅ (lit "y") []
  = (<[JSON_OUT_PATH :=
         utf8_encode (array_text sample_repr inception [interstellar])]> ∅,
     MsgExported)
  /\ json_load_utf8 sample_float
       (utf8_encode (array_text sample_repr inception [interstellar]))
     = Ok (PyList (dict_of_row <$> rows catalogue))
  /\ fields <$> rows (fst (import_movies
                             (json_load_utf8 sample_float)
                             (fun _ => []) (fun _ => None) empty_database
                             {[ JSON_IN_PATH :=
                                  utf8_encode (array_text sample_repr inception
                                                 [interstellar]) ]}))
     = fields <$> rows catalogue
  /\ snd (import_movies
            (json_load_utf8 sample_float)
            (fun _ => []) (fun _ => None) empty_database
            {[ JSON_IN_PATH :=
                 utf8_encode (array_text sample_repr inception [interstellar]) ]})
     = MsgImported.
Proof.
  destruct (export_import_roundtrip
              sample_float sample_repr (json_load_utf8 sample_float)
              (fun _ => []) (fun _ => None) catalogue empty_database ∅
              {[ JSON_IN_PATH :=
                   utf8_encode (array_text sample_repr inception [interstellar]) ]})
    as (Hf & _ & Hne & _).
  - repeat constructor.
  - repeat constructor.
  - repeat constructor.
  - intros H. discriminate H.
  - reflexivity.
  - rewrite lookup_singleton_eq. reflexivity.
  - intros content _. reflexivity.
  - destruct (Hne ltac:(discriminate)) as (content & Hexp & -> & Hjson & Hmsg).
    split; [exact Hexp|]. split; [exact Hjson|]. split; [exact Hf|exact Hmsg].
Defined.

Lemma import_movies_null_rating_witness :
  import_movies
    (fun _ => Ok (PyList [PyDict [(lit "title", PyStr (lit "Tenet"));
                                  (lit "director", PyStr (lit "Nolan"));
                                  (lit "genre", PyStr (lit "Action"));
                                  (lit "year", PyInt 2020);
                                  (lit "rating", PyNone)]]))
    (fun _ => []) (fun _ => None) catalogue {[ JSON_IN_PATH := [] ]}
  = ({| rows := rows catalogue
                ++ [{| movie_id := 3; title := lit "Tenet"; director := lit "Nolan";
                       genre := lit "Action"; year := SInt 2020; rating := SNull |}];
        sequence := 3 |}, MsgImported).
Proof.
  apply (import_movies_null_rating _ (fun _ => []) (fun _ => None) catalogue
           {[ JSON_IN_PATH := [] ]} [] (lit "Tenet") (lit "Nolan") (lit "Action")
           2020 (lookup_singleton_eq _ _) eq_refl eq_refl).
Defined.

Lemma modify_movie_first_match_witness :
  search_movies catalogue (strip (lit "In")) = [inception; interstellar]
  /\ rows (fst (modify_movie (fun _ => None) (fun _ => Some f_9_0)
                             (fun _ => []) (fun _ => None)
                             catalogue (lit "In") [] [] [] [] (lit "9.0")))
     = [{| movie_id := 1; title := lit "Inception"; director := lit "Nolan";
           genre := lit "Sci-Fi"; year := SInt 2010; rating := SReal f_9_0 |};
        interstellar]
  /\ snd (modify_movie (fun _ => None) (fun _ => Some f_9_0)
                       (fun _ => []) (fun _ => None)
                       catalogue (lit "In") [] [] [] [] (lit "9.0"))
     = MsgModified.
Proof.
  assert (Hnd : NoDup (movie_id <$> rows catalogue))
    by (apply (bool_decide_unpack _); reflexivity).
  assert (Hs : search_movies catalogue (strip (lit "In")) = [inception; interstellar])
    by reflexivity.
  split; [exact Hs|].
  destruct (modify_movie_first_match
              (fun _ => None) (fun _ => Some f_9_0) (fun _ => []) (fun _ => None)
              catalogue (lit "In") [] [] [] [] (lit "9.0")
              inception [interstellar] Hnd Hs)
    as (before & after & target' & H1 & H2 & _ & _ & H5 & H6).
  assert (Hacc : accepted (fun _ => None) (fun _ => Some f_9_0)
                          inception [] [] [] [] (lit "9.0")).
  { split; [reflexivity|]. split; [reflexivity|]. split; [reflexivity|].
    split; [reflexivity|]. split; [left; reflexivity|]. split.
    - right. exists f_9_0. split; reflexivity.
    - intros (_ & _ & _ & _ & H). discriminate H. }
  pose proof (H6 Hacc) as Hmsg.
  destruct (H5 Hmsg) as (oy & orr & Hy & Hr & ->).
  destruct Hy as [[_ ->]|(y & Hy & _)]; [|contradiction Hy; reflexivity].
  destruct Hr as [[Hr _]|(f & _ & Hf & _ & ->)]; [discriminate Hr|].
  injection Hf as <-.
  split; [|exact Hmsg]. rewrite H2.
  destruct before as [|b [|b' before]].
  - injection H1 as <-. reflexivity.
  - injection H1 as _ H1. discriminate H1.
  - injection H1 as _ _ H1. destruct before; discriminate H1.
Defined.

(** * Inputs at which the claims as first worded fail *)


(** C8 as first worded (every record sequence): with no record selected
    the file that is already there is not overwritten. *)
Lemma export_of_no_record_keeps_old_file :
  search_movies catalogue (strip (lit "Tenet")) = []
  /\ export_movies (fun _ => []) catalogue
                   {[ JSON_OUT_PATH := [111%N; 108%N; 100%N] ]}
                   (lit "n") (lit "Tenet")
     = ({[ JSON_OUT_PATH := [111%N; 108%N; 100%N] ]}, MsgNoData).
Proof. split; reflexivity. Qed.

(** * The further theorems at concrete inputs *)

Lemma row_line_width_witness :
  get_display_width cjk_width (row_line cjk_width (fun _ => lit "8.8") inception)
  = 72.
Proof.
  apply (proj2 (proj2 (row_line_width cjk_width (fun _ => lit "8.8") inception
                         eq_refl))).
  repeat constructor; vm_compute; discriminate.
Defined.

Lemma list_rpt_aligned_witness :
  Forall (fun l => get_display_width cjk_width l = 72)
         (row_line cjk_width (fun _ => lit "8.8") <$> rows catalogue).
Proof.
  refine (proj2 (proj2 (proj2 (proj2
            (list_rpt_aligned cjk_width (fun _ => lit "8.8") (rows catalogue)
               eq_refl eq_refl _ _))))).
  - discriminate.
  - repeat constructor; vm_compute; discriminate.
Defined.

Lemma pad_string_idempotent_witness :
  pad_string cjk_width (pad_string cjk_width [20013%N] 4) 3
  = pad_string cjk_width [20013%N] 4.
Proof. apply (pad_string_idempotent cjk_width [20013%N] 4 3 eq_refl). lia. Defined.

Lemma add_movie_year_overflow_witness :
  add_movie (fun _ => Some 9223372036854775808) (fun _ => Some f_8_8)
            (fun _ => []) (fun _ => None) catalogue
            (lit "Tenet") (lit "Nolan") (lit "Action")
            (lit "9223372036854775808") (lit "8.8")
  = (catalogue, MsgOtherError OverflowError).
Proof.
  apply (add_movie_year_overflow
           (fun _ => Some 9223372036854775808) (fun _ => Some f_8_8)
           (fun _ => []) (fun _ => None) catalogue
           (lit "Tenet") (lit "Nolan") (lit "Action")
           (lit "9223372036854775808") (lit "8.8")
           9223372036854775808 f_8_8);
    vm_compute; reflexivity.
Defined.

Lemma add_movie_blank_texts_witness :
  add_movie (fun _ => Some 2020) (fun _ => Some f_8_8)
            (fun _ => []) (fun _ => None) catalogue
            (lit "  ") (lit " ") [] (lit "2020") (lit "8.8")
  = ({| rows := rows catalogue
                ++ [{| movie_id := sequence catalogue + 1; title := [];
                       director := []; genre := []; year := SInt 2020;
                       rating := SReal f_8_8 |}];
        sequence := sequence catalogue + 1 |}, MsgAdded).
Proof.
  apply (add_movie_blank_texts
           (fun _ => Some 2020) (fun _ => Some f_8_8)
           (fun _ => []) (fun _ => None) catalogue
           (lit "  ") (lit " ") [] (lit "2020") (lit "8.8") 2020 f_8_8);
    first [repeat constructor | vm_compute; reflexivity].
Defined.

Lemma add_movie_then_search_witness :
  exists m,
    rows (fst (add_movie (fun _ => Some 2020) (fun _ => Some f_8_8)
                         (fun _ => []) (fun _ => None) catalogue
                         (lit " Inception ") (lit "Nolan") (lit "Action")
                         (lit "2020") (lit "8.8")))
    = rows catalogue ++ [m]
    /\ title m = strip (lit " Inception ")
    /\ search_movies
         (fst (add_movie (fun _ => Some 2020) (fun _ => Some f_8_8)
                         (fun _ => []) (fun _ => None) catalogue
                         (lit " Inception ") (lit "Nolan") (lit "Action")
                         (lit "2020") (lit "8.8")))
         (strip (lit " Inception "))
       = search_movies catalogue (strip (lit " Inception ")) ++ [m].
Proof.
  destruct (add_movie_then_search
              (fun _ => Some 2020) (fun _ => Some f_8_8)
              (fun _ => []) (fun _ => None) catalogue
              (lit " Inception ") (lit "Nolan") (lit "Action")
              (lit "2020") (lit "8.8"))
    as (m & H1 & H2 & H3 & _).
  - vm_compute. reflexivity.
  - vm_compute. discriminate.
  - exists m. split; [exact H1|]. split; [exact H2|].
    apply H3. vm_compute. discriminate.
Defined.

Lemma modify_movie_succeeds_witness :
  modify_movie (fun _ => Some 2011) (fun _ => None) (fun _ => []) (fun _ => None)
               catalogue (lit "In") (lit "Origin") [] [] (lit "2011") []
  = ({| rows := (fun m => if movie_id m =? movie_id inception
                          then updated m (strip (lit "Origin")) (strip [])
                                       (strip []) (Some (SInt 2011)) None
                          else m) <$> rows catalogue;
        sequence := sequence catalogue |}, MsgModified).
Proof.
  apply (modify_movie_succeeds
           (fun _ => Some 2011) (fun _ => None) (fun _ => []) (fun _ => None)
           catalogue (lit "In") (lit "Origin") [] [] (lit "2011") []
           inception [interstellar] (Some (SInt 2011)) None).
  - reflexivity.
  - reflexivity.
  - reflexivity.
  - reflexivity.
  - reflexivity.
  - right. exists 2011. split; [vm_compute; discriminate|].
    repeat split; reflexivity.
  - left. split; reflexivity.
  - intros (H & _). vm_compute in H. discriminate H.
Defined.

Lemma delete_movies_then_search_witness :
  search_movies (fst (delete_movies catalogue (lit "n") (lit "y") (lit "Incep")))
                (strip (lit "Incep")) = [].
Proof.
  refine (proj2 (proj2 (delete_movies_then_search catalogue (lit "n") (lit "y")
                          (lit "Incep") _ eq_refl eq_refl))).
  apply (bool_decide_unpack _). reflexivity.
Defined.

Lemma delete_movies_keeps_counter_witness :
  sequence (fst (delete_movies catalogue (lit "y") (lit "y") [])) = sequence catalogue.
Proof.
  refine (proj1 (delete_movies_keeps_counter
                   (fun _ => None) (fun _ => None) (fun _ => []) (fun _ => None)
                   catalogue (lit "y") (lit "y") [] [] [] [] [] [] _)).
  split; [apply (bool_decide_unpack _); reflexivity|].
  split; repeat constructor; vm_compute; discriminate.
Defined.

Lemma import_movies_twice_witness :
  exists new d2,
    rows {| rows := [inception]; sequence := 1 |} = rows empty_database ++ new
    /\ import_movies (fun _ => Ok (PyList [dict_of_row inception]))
                     (fun _ => []) (fun _ => None)
                     {| rows := [inception]; sequence := 1 |}
                     {[ JSON_IN_PATH := [] ]}
       = (d2, MsgImported)
    /\ fields <$> rows d2
       = (fields <$> rows empty_database) ++ (fields <$> new) ++ (fields <$> new).
Proof.
  apply (import_movies_twice (fun _ => Ok (PyList [dict_of_row inception]))
           (fun _ => []) (fun _ => None) empty_database
           {| rows := [inception]; sequence := 1 |} {[ JSON_IN_PATH := [] ]}).
  vm_compute. reflexivity.
Defined.

Lemma import_movies_rating_out_of_range_witness :
  fst (import_movies
         (fun _ => Ok (PyList [dict_of_row inception;
                               PyDict [(lit "title", PyStr (lit "Tenet"));
                                       (lit "director", PyStr (lit "Nolan"));
                                       (lit "genre", PyStr (lit "Action"));
                                       (lit "year", PyInt 2020);
                                       (lit "rating", PyFloat f_10_01)]]))
         (fun _ => []) (fun _ => None) catalogue {[ JSON_IN_PATH := [] ]})
  = catalogue.
Proof.
  refine (proj2 (import_movies_rating_out_of_range
                   (fun _ => Ok (PyList [dict_of_row inception;
                                         PyDict [(lit "title", PyStr (lit "Tenet"));
                                                 (lit "director", PyStr (lit "Nolan"));
                                                 (lit "genre", PyStr (lit "Action"));
                                                 (lit "year", PyInt 2020);
                                                 (lit "rating", PyFloat f_10_01)]]))
                   (fun _ => []) (fun _ => None) catalogue {[ JSON_IN_PATH := [] ]}
                   [] _
                   (PyDict [(lit "title", PyStr (lit "Tenet"));
                            (lit "director", PyStr (lit "Nolan"));
                            (lit "genre", PyStr (lit "Action"));
                            (lit "year", PyInt 2020);
                            (lit "rating", PyFloat f_10_01)])
                   f_10_01 (lookup_singleton_eq _ _) eq_refl _ eq_refl _ _)).
  - right. left.
  - discriminate.
  - vm_compute. reflexivity.
Defined.

Lemma table_ok_preserved_witness :
  table_ok (fun _ => None)
           (fst (add_movie (fun _ => Some 2020) (fun _ => Some f_8_8)
                           (fun _ => []) (fun _ => None) catalogue
                           (lit "Tenet") (lit "Nolan") (lit "Action")
                           (lit "2020") (lit "8.8"))).
Proof.
  refine (proj1 (table_ok_preserved
                   (fun _ => Some 2020) (fun _ => Some f_8_8)
                   (fun _ => []) (fun _ => None) catalogue
                   (lit "Tenet") (lit "Nolan") (lit "Action")
                   (lit "2020") (lit "8.8") [] _)).
  split; [apply (bool_decide_unpack _); reflexivity|].
  split; repeat constructor; vm_compute; discriminate.
Defined.

Lemma import_movies_table_ok_witness :
  table_ok (fun _ => None)
           (fst (import_movies (fun _ => Ok (PyList [dict_of_row inception]))
                               (fun _ => []) (fun _ => None) catalogue
                               {[ JSON_IN_PATH := [] ]})).
Proof.
  apply (import_movies_table_ok (fun _ => Ok (PyList [dict_of_row inception]))
           (fun _ => []) (fun _ => None) catalogue {[ JSON_IN_PATH := [] ]}).
  - intros s z H. discriminate H.
  - split; [apply (bool_decide_unpack _); reflexivity|].
  split; repeat constructor; vm_compute; discriminate.
Defined.

Lemma main_table_ok_witness :
  table_ok (fun _ => None)
           (w_db (fst (main cjk_width (fun _ => Some 2020) (fun _ => Some f_8_8)
                            (fun _ => lit "8.8") (fun _ => Raise JSONDecodeError)
                            (fun _ => []) (fun _ => None)
                            (Some catalogue) ∅
                            [lit "5"; lit "n"; lit "Incep"; lit "y"; lit "7"]))).
Proof.
  apply (main_table_ok cjk_width (fun _ => Some 2020) (fun _ => Some f_8_8)
           (fun _ => lit "8.8") (fun _ => Raise JSONDecodeError)
           (fun _ => []) (fun _ => None)
           (Some catalogue) ∅
           [lit "5"; lit "n"; lit "Incep"; lit "y"; lit "7"]).
  - intros s z H. discriminate H.
  - intros d [= <-]. split; [apply (bool_decide_unpack _); reflexivity|].
  split; repeat constructor; vm_compute; discriminate.
Defined.

Lemma main_files_witness :
  w_files (fst (main cjk_width (fun _ => Some 2020) (fun _ => Some f_8_8)
                     (fun _ => lit "8.8") (fun _ => Raise JSONDecodeError)
                     (fun _ => []) (fun _ => None)
                     (Some catalogue) {[ JSON_IN_PATH := [] ]}
                     [lit "6"; lit "y"; lit "7"])) !! JSON_IN_PATH
  = ({[ JSON_IN_PATH := [] ]} : files) !! JSON_IN_PATH.
Proof.
  apply (main_files cjk_width (fun _ => Some 2020) (fun _ => Some f_8_8)
           (fun _ => lit "8.8") (fun _ => Raise JSONDecodeError)
           (fun _ => []) (fun _ => None)
           (Some catalogue) {[ JSON_IN_PATH := [] ]}
           [lit "6"; lit "y"; lit "7"] JSON_IN_PATH).
  - discriminate.
  - reflexivity.
Defined.

Lemma main_console_ends_in_add_witness :
  main cjk_width (fun _ => Some 2020) (fun _ => Some f_8_8)
       (fun _ => lit "8.8") (fun _ => Raise JSONDecodeError)
       (fun _ => []) (fun _ => None)
       (Some catalogue) ∅ [lit " 3 "; lit "Tenet"; lit "Nolan"; lit "Action"]
  = ({| w_db := catalogue; w_files := ∅;
        w_out := [Menu; OtherErrorEOF; Menu] |}, EndOfInput).
Proof.
  refine (proj2 (main_console_ends_in_add
                   cjk_width (fun _ => Some 2020) (fun _ => Some f_8_8)
                   (fun _ => lit "8.8") (fun _ => Raise JSONDecodeError)
                   (fun _ => []) (fun _ => None)
                   (Some catalogue) ∅ (lit " 3 ") (lit "Tenet") (lit "Nolan")
                   (lit "Action") _)).
  reflexivity.
Defined.

Lemma main_add_then_list_witness :
  snd (main cjk_width (fun _ => Some 2020) (fun _ => Some f_8_8)
            (fun _ => lit "8.8") (fun _ => Raise JSONDecodeError)
            (fun _ => []) (fun _ => None)
            None ∅
            [lit "3"; lit "Tenet"; lit "Nolan"; lit "Action"; lit "2020";
             lit "8.8"; lit "2"; lit "Y"; lit "7"])
  = Exited.
Proof.
  rewrite (main_add_then_list
             cjk_width (fun _ => Some 2020) (fun _ => Some f_8_8)
             (fun _ => lit "8.8") (fun _ => Raise JSONDecodeError)
             (fun _ => []) (fun _ => None)
             None ∅
             (lit "3") (lit "Tenet") (lit "Nolan") (lit "Action") (lit "2020")
             (lit "8.8") (lit "2") (lit "Y") (lit "7") 2020 f_8_8);
    reflexivity.
Defined.
